(** * Travel booking aggregation: a shallow embedding

    The development follows three source files of the repository:

    - [dataNormalizer.ts]: [DataNormalizer] (normalizeFlight, normalizeHotel,
      normalizeTransport, mergeDuplicates and their private helpers);
    - [realBookingAggregator.ts]: [RealBookingAggregator] (searchFlights,
      findMultiCityRoutes, searchHotels, identifyBestDeals, searchExperiences);
    - [bookingAggregator.ts]: [BookingAggregator] (search, searchAllSources,
      normalizeAll, mergeAll, findBestDeals, extractSources and the cache).

    The normalizer receives values of TypeScript type [any]; they are modelled
    by a small universe of JavaScript values with the coercions the code
    relies on.  Code that can throw, or that awaits a promise, lives in a
    state-and-exception monad; the clock and the random generator are part of
    the state. *)

From Stdlib Require Import ZArith QArith Qround Qpower String Ascii List Lia
  Permutation Sorted.
From stdpp Require Import base option gmap strings list pretty.

Set Warnings "-register-all".
Local Open Scope string_scope.
Local Open Scope list_scope.

(** ** JavaScript numbers

    A number is a double.  A finite double is represented by the rational it
    denotes; the three non-finite values are kept, because the code divides
    by prices that may be zero.  The result of an arithmetic operation is the
    exact result rounded to the nearest double, halves to the even
    neighbour, and an infinity beyond the largest double.  The sign of zero
    is not modelled. *)

Inductive number :=
| Fin (q : Q)
| PosInf
| NegInf
| NaN.

Definition Qltb (x y : Q) : bool := negb (Qle_bool y x).

Definition num_of_Z (z : Z) : number := Fin (inject_Z z).

Definition pow2 (e : Z) : Q := Qpower 2 e.

(** Rounding to an integer, halves to the even neighbour. *)
Definition round_half_even (y : Q) : Z :=
  let f := Qfloor y in
  match Qcompare (y - inject_Z f) (1 # 2) with
  | Lt => f
  | Gt => (f + 1)%Z
  | Eq => if Z.even f then f else (f + 1)%Z
  end.

(** The exponent of the last binary place of the doubles around [x >= 0]:
    52 places below the leading one, and never below 2^-1074, the place of
    the subnormal numbers. *)
Definition last_place (x : Q) : Z :=
  (Z.max (Z.log2 (Qfloor (x * inject_Z (Z.pow 2 1074))) - 1074) (-1022) - 52)%Z.

(** The nearest number of 53 binary digits, for [x >= 0]. *)
Definition round_magnitude (x : Q) : Q :=
  let t := last_place x in
  Qred (inject_Z (round_half_even (x * pow2 (- t))) * pow2 t).

Definition round_finite (x : Q) : Q :=
  if Qle_bool 0 x then round_magnitude x else - round_magnitude (- x).

(** The double nearest to the real number [x]. *)
Definition round_double (x : Q) : number :=
  let r := round_finite x in
  if Qle_bool (pow2 1024) r then PosInf
  else if Qle_bool r (- pow2 1024) then NegInf
  else Fin r.

(** [q] is the value of a double. *)
Definition is_double (q : Q) : bool :=
  match round_double q with
  | Fin r => Qeq_bool r q
  | _ => false
  end.

(** [a < b] on numbers; every comparison with NaN is false. *)
Definition number_lt (a b : number) : bool :=
  match a, b with
  | NaN, _ | _, NaN => false
  | Fin x, Fin y => Qltb x y
  | _, NegInf => false
  | NegInf, _ => true
  | PosInf, _ => false
  | Fin _, PosInf => true
  end.

Definition number_neg (a : number) : number :=
  match a with
  | Fin x => Fin (- x)
  | PosInf => NegInf
  | NegInf => PosInf
  | NaN => NaN
  end.

Definition number_add (a b : number) : number :=
  match a, b with
  | NaN, _ | _, NaN => NaN
  | Fin x, Fin y => round_double (x + y)
  | PosInf, NegInf | NegInf, PosInf => NaN
  | PosInf, _ | _, PosInf => PosInf
  | NegInf, _ | _, NegInf => NegInf
  end.

Definition number_sub (a b : number) : number := number_add a (number_neg b).

(** An infinity carrying the sign of [x]; NaN when [x] is zero. *)
Definition signed_inf (x : Q) : number :=
  if Qeq_bool x 0 then NaN else if Qltb 0 x then PosInf else NegInf.

Definition number_mul (a b : number) : number :=
  match a, b with
  | NaN, _ | _, NaN => NaN
  | Fin x, Fin y => round_double (x * y)
  | Fin x, PosInf | PosInf, Fin x => signed_inf x
  | Fin x, NegInf | NegInf, Fin x => number_neg (signed_inf x)
  | PosInf, PosInf | NegInf, NegInf => PosInf
  | PosInf, NegInf | NegInf, PosInf => NegInf
  end.

(** Division: [x / 0] is an infinity of the sign of [x], and [0 / 0] is NaN. *)
Definition number_div (a b : number) : number :=
  match a, b with
  | NaN, _ | _, NaN => NaN
  | Fin x, Fin y => if Qeq_bool y 0 then signed_inf x else round_double (x / y)
  | Fin _, (PosInf | NegInf) => Fin 0
  | PosInf, Fin y => if Qltb y 0 then NegInf else PosInf
  | NegInf, Fin y => if Qltb y 0 then PosInf else NegInf
  | (PosInf | NegInf), (PosInf | NegInf) => NaN
  end.

(** The sum of two numbers of provider records, as a number of a record:
    the nearest double.  Beyond the largest double (1.8e308) the code
    computes Infinity, which a record of the model does not hold; there the
    sum is the nearest number of 53 binary digits. *)
Definition double_add (x y : Q) : Q := round_finite (x + y).

(** [Math.round]: the nearest integer, halves rounded towards +infinity; the
    result is computed without rounding error. *)
Definition Math_round (a : number) : number :=
  match a with
  | Fin x => num_of_Z (Qfloor (x + (1 # 2)))
  | other => other
  end.

(** [Math.max(...xs)]: -Infinity for no argument, NaN as soon as one
    argument is NaN. *)
Definition max2 (a b : number) : number :=
  match a, b with
  | NaN, _ | _, NaN => NaN
  | _, _ => if number_lt a b then b else a
  end.

Definition Math_max (xs : list number) : number := fold_left max2 xs NegInf.

(** ** JavaScript values *)

Inductive JsVal :=
| JUndefined
| JNull
| JBool (b : bool)
| JNum (n : number)
| JStr (s : string)
| JArr (items : list JsVal)
| JObj (props : list (string * JsVal)).

Definition JQ (q : Q) : JsVal := JNum (Fin q).

(** What the language defines by long algorithms or by tables is taken from
    the runtime: the rendering of a number, the reading of a string as a
    number, [Date.prototype.toISOString] at a time in milliseconds, and
    [String.prototype.toLowerCase], which follows the case mappings of
    Unicode. *)
Class JsRuntime := {
  Number_toString : number -> string;
  StringToNumber : string -> number;
  Date_toISOString : Z -> string;
  toLowerCase : string -> string
}.

(** Values that are thrown, or that reject a promise. *)
Inductive JsError :=
| TypeError
| Reason (v : JsVal).

Inductive Settled (A : Type) :=
| Fulfilled (a : A)
| Rejected (e : JsError).
Arguments Fulfilled {A} a.
Arguments Rejected {A} e.

Definition truthy (v : JsVal) : bool :=
  match v with
  | JUndefined | JNull => false
  | JBool b => b
  | JNum (Fin q) => negb (Qeq_bool q 0)
  | JNum NaN => false
  | JNum _ => true
  | JStr s => negb (String.eqb s "")
  | JArr _ | JObj _ => true
  end.

(** [a || b] *)
Definition js_or (a b : JsVal) : JsVal := if truthy a then a else b.
Infix "|||" := js_or (at level 50, left associativity).

Definition nullish (v : JsVal) : bool :=
  match v with
  | JUndefined | JNull => true
  | _ => false
  end.

Fixpoint assoc (k : string) (ps : list (string * JsVal)) : option JsVal :=
  match ps with
  | [] => None
  | (k', v) :: rest => if String.eqb k k' then Some v else assoc k rest
  end.

(** [v.k] for a [v] that is neither undefined nor null.  Objects are plain
    data objects; none of the property names this code reads is defined on
    the prototypes of strings, numbers, booleans or arrays, so reading them
    there gives undefined. *)
Definition prop (v : JsVal) (k : string) : JsVal :=
  match v with
  | JObj ps => default JUndefined (assoc k ps)
  | _ => JUndefined
  end.
Notation "v .[ k ]" := (prop v k) (at level 1, left associativity, format "v .[ k ]").

(** [v?.k] *)
Definition oprop (v : JsVal) (k : string) : JsVal := prop v k.
Notation "v ?.[ k ]" := (oprop v k) (at level 1, left associativity, format "v ?.[ k ]").

Definition is_number (v : JsVal) : bool :=
  match v with JNum _ => true | _ => false end.

Definition Array_isArray (v : JsVal) : bool :=
  match v with JArr _ => true | _ => false end.

Section Coercions.
Context `{JsRuntime}.

(** [String(v)], as a template literal applies it. *)
Fixpoint ToString (v : JsVal) : string :=
  match v with
  | JUndefined => "undefined"
  | JNull => "null"
  | JBool true => "true"
  | JBool false => "false"
  | JNum n => Number_toString n
  | JStr s => s
  | JArr items =>
      (fix join (l : list JsVal) : string :=
         match l with
         | [] => ""
         | x :: rest =>
             let here := if nullish x then "" else ToString x in
             match rest with
             | [] => here
             | _ => here +:+ "," +:+ join rest
             end
         end) items
  | JObj _ => "[object Object]"
  end.

(** [ToPrimitive] with hint number: arrays and plain objects have no
    primitive [valueOf], so their [toString] is used. *)
Definition ToPrimitive (v : JsVal) : JsVal :=
  match v with
  | JArr _ | JObj _ => JStr (ToString v)
  | _ => v
  end.

Definition ToNumber (v : JsVal) : number :=
  match ToPrimitive v with
  | JUndefined => NaN
  | JNull => Fin 0
  | JBool true => Fin 1
  | JBool false => Fin 0
  | JNum n => n
  | JStr s => StringToNumber s
  | _ => NaN
  end.

(** [x < y]: two strings compare by code units, anything else as numbers. *)
Definition js_lt (x y : JsVal) : bool :=
  match ToPrimitive x, ToPrimitive y with
  | JStr a, JStr b => String.ltb a b
  | _, _ => number_lt (ToNumber x) (ToNumber y)
  end.

Definition js_gt (x y : JsVal) : bool := js_lt y x.

Definition js_mul (x y : JsVal) : number := number_mul (ToNumber x) (ToNumber y).
Definition js_div (x y : JsVal) : number := number_div (ToNumber x) (ToNumber y).
End Coercions.

(** ** Effects: exceptions, the clock and the random generator

    A computation runs on a state and either returns or throws.  An [async]
    function is such a computation too: awaiting a rejected promise throws
    its reason. *)

Definition M (S A : Type) : Type := S -> Settled A * S.

Definition ret {S A} (a : A) : M S A := fun s => (Fulfilled a, s).

Definition throw {S A} (e : JsError) : M S A := fun s => (Rejected e, s).

Definition bind {S A B} (m : M S A) (k : A -> M S B) : M S B :=
  fun s =>
    match m s with
    | (Fulfilled a, s') => k a s'
    | (Rejected e, s') => (Rejected e, s')
    end.

Notation "x <- m ;; k" := (bind m (fun x => k))
  (at level 100, m at next level, right associativity).
Notation "m ;;; k" := (bind m (fun _ => k))
  (at level 100, right associativity).

(** [await p] for a promise that has settled. *)
Definition await {S A} (p : Settled A) : M S A := fun s => (p, s).

(** [try { m } catch (error) { h }] *)
Definition try_catch {S A} (m : M S A) (h : JsError -> M S A) : M S A :=
  fun s =>
    match m s with
    | (Fulfilled a, s') => (Fulfilled a, s')
    | (Rejected e, s') => h e s'
    end.

(** [xs.map(f)] when [f] has effects: left to right, stopping at the first
    exception. *)
Fixpoint mapM {S A B} (f : A -> M S B) (xs : list A) : M S (list B) :=
  match xs with
  | [] => ret []
  | x :: rest => y <- f x ;; ys <- mapM f rest ;; ret (y :: ys)
  end.

(** The clock and the random generator: the n-th reading of each is fixed by
    the world, and every reading moves to the next one. *)
Record World := {
  clock : nat -> Z;
  clock_reads : nat;
  random36 : nat -> string;
  random_draws : nat
}.

(** [Date.now()], in milliseconds. *)
Definition Date_now : M World Z :=
  fun w =>
    (Fulfilled (clock w (clock_reads w)),
     {| clock := clock w; clock_reads := S (clock_reads w);
        random36 := random36 w; random_draws := random_draws w |}).

(** [Math.random().toString(36)] *)
Definition Math_random_toString36 : M World string :=
  fun w =>
    (Fulfilled (random36 w (random_draws w)),
     {| clock := clock w; clock_reads := clock_reads w;
        random36 := random36 w; random_draws := S (random_draws w) |}).

(** [new Date().toISOString()] *)
Definition new_Date_toISOString `{JsRuntime} : M World string :=
  t <- Date_now ;; ret (Date_toISOString t).

(** ** Strings *)

Definition is_digit (c : ascii) : bool :=
  let n := nat_of_ascii c in (48 <=? n)%nat && (n <=? 57)%nat.

(** [s.includes(sub)] *)
Fixpoint includes (s sub : string) : bool :=
  String.prefix sub s ||
  match s with
  | EmptyString => false
  | String _ rest => includes rest sub
  end.

(** The regular expressions [/(\d+)h/] and [/(\d+)m/]: digits, then one
    letter.  [digits_prefix s] is the longest run of digits at the start of
    [s], with what follows it. *)
Fixpoint digits_prefix (s : string) : string * string :=
  match s with
  | String x rest =>
      if is_digit x then
        let (run, after) := digits_prefix rest in (String x run, after)
      else (EmptyString, s)
  | EmptyString => (EmptyString, EmptyString)
  end.

(** A match that starts at the first character of [s]: the greedy [\d+]
    takes the longest run, and the letter must follow it.  (Giving digits
    back cannot help: the character after a shorter run is a digit.) *)
Definition match_digits_here (c : ascii) (s : string) : option string :=
  match digits_prefix s with
  | (String d run, String x _) => if Ascii.eqb x c then Some (String d run) else None
  | _ => None
  end.

(** [(s.match(re) || [])[1]]: the capture group of the leftmost match, the
    start positions being tried from left to right; [None] is undefined. *)
Fixpoint match_digits_before (c : ascii) (s : string) : option string :=
  match match_digits_here c s with
  | Some run => Some run
  | None =>
      match s with
      | String _ rest => match_digits_before c rest
      | EmptyString => None
      end
  end.

Fixpoint all_digits (s : string) : bool :=
  match s with
  | EmptyString => true
  | String c rest => is_digit c && all_digits rest
  end.

(** [parseInt] of a string of decimal digits. *)
Definition parseInt_digits (ds : string) : Z :=
  fold_left (fun acc c => (10 * acc + (Z.of_nat (nat_of_ascii c) - 48))%Z)
            (list_ascii_of_string ds) 0%Z.

(** A [Map<string, T[]>] filled by
    [if (!m.has(key)) m.set(key, []); m.get(key).push(x)]: the entries keep
    the order in which their keys were first inserted, which is the order in
    which [forEach] visits them. *)
Fixpoint group_push {T} (key : string) (x : T) (grouped : list (string * list T))
  : list (string * list T) :=
  match grouped with
  | [] => [(key, [x])]
  | (k, group) :: rest =>
      if String.eqb k key then (k, group ++ [x]) :: rest
      else (k, group) :: group_push key x rest
  end.

Definition group_by {T} (keyOf : T -> string) (results : list T) : list (string * list T) :=
  fold_left (fun grouped r => group_push (keyOf r) r grouped) results [].

(** [xs.reduce(f)] without an initial value, on a non-empty array. *)
Definition reduce {A} (f : A -> A -> A) (first : A) (rest : list A) : A :=
  fold_left f rest first.

(** [xs.sort((a, b) => key(a) - key(b))] for finite keys: the difference of
    two doubles, as a double, has the sign of their exact difference; the
    sort is stable, so the result is fixed by the keys and the input order. *)
Fixpoint sort_insert {A} (key : A -> Q) (x : A) (sorted : list A) : list A :=
  match sorted with
  | [] => [x]
  | y :: rest =>
      if Qle_bool (key x) (key y) then x :: y :: rest
      else y :: sort_insert key x rest
  end.

Definition sort_by {A} (key : A -> Q) (xs : list A) : list A :=
  fold_right (sort_insert key) [] xs.

(** ** DataNormalizer: the normalized shapes *)

Record Place := { place_code : JsVal; place_name : JsVal; place_city : JsVal }.

Record Moment := { datetime : JsVal; timezone : JsVal }.

Record Segment := {
  seg_from : Place;
  seg_to : Place;
  seg_airline : JsVal;
  seg_flightNumber : JsVal;
  seg_departure : Moment;
  seg_arrival : Moment;
  seg_duration : number;
  seg_aircraft : JsVal
}.

Record Price := {
  amount : JsVal;
  currency : JsVal;
  originalCurrency : JsVal;
  exchangeRate : JsVal
}.

Record HotelPrice := {
  hp_amount : JsVal;
  hp_currency : JsVal;
  hp_perNight : bool;
  hp_originalCurrency : JsVal;
  hp_exchangeRate : JsVal
}.

Record Layover := { layover_airport : string; layover_duration : number }.

Record Baggage := { included : JsVal; allowance : JsVal }.

Record NormalizedFlight := {
  nf_id : string;
  nf_segments : list Segment;
  nf_price : Price;
  nf_totalDuration : number;
  nf_layovers : list Layover;
  nf_source : JsVal;
  nf_bookingUrl : JsVal;
  nf_baggage : Baggage;
  nf_refundable : JsVal;
  nf_lastUpdated : string
}.

Record Location := {
  address : JsVal;
  loc_city : JsVal;
  country : JsVal;
  coordinates : JsVal
}.

Record Rating := {
  rating_value : JsVal;
  rating_max : number;
  rating_reviews : JsVal;
  rating_source : JsVal
}.

Record RoomType := { room_name : JsVal; room_price : JsVal; room_available : bool }.

Inductive OfferType := FirstTime | Discount | Package | Loyalty.

Record SpecialOffer := {
  so_type : OfferType;
  so_description : string;
  so_discount : option JsVal
}.

Record NormalizedHotel := {
  nh_id : string;
  nh_name : JsVal;
  nh_location : Location;
  nh_price : HotelPrice;
  nh_rating : Rating;
  nh_amenities : list JsVal;
  nh_roomTypes : list RoomType;
  nh_cancellationPolicy : JsVal;
  nh_specialOffers : list SpecialOffer;
  nh_source : JsVal;
  nh_bookingUrl : JsVal;
  nh_images : list JsVal;
  nh_lastUpdated : string
}.

Record NormalizedTransport := {
  nt_id : string;
  nt_type : JsVal;
  nt_from : Place;
  nt_to : Place;
  nt_operator : JsVal;
  nt_departure : Moment;
  nt_arrival : Moment;
  nt_duration : number;
  nt_price : Price;
  nt_source : JsVal;
  nt_bookingUrl : JsVal;
  nt_amenities : JsVal;
  nt_lastUpdated : string
}.

(** What [mergeDuplicates] and [generateMergeKey] read of an element: its
    [price.amount], and the properties [from], [to] and [departure] (undefined
    when the element has no such property). *)
Class Offer (T : Type) := {
  offer_amount : T -> JsVal;
  offer_from : T -> JsVal;
  offer_to : T -> JsVal;
  offer_departure : T -> JsVal
}.

Definition Place_object (p : Place) : JsVal :=
  JObj [("code", place_code p); ("name", place_name p); ("city", place_city p)].

Definition Moment_object (m : Moment) : JsVal :=
  JObj [("datetime", datetime m); ("timezone", timezone m)].

(** A [NormalizedFlight] has its route inside [segments]: it has no property
    named [from], [to] or [departure]. *)
#[export] Instance NormalizedFlight_Offer : Offer NormalizedFlight := {
  offer_amount f := amount (nf_price f);
  offer_from _ := JUndefined;
  offer_to _ := JUndefined;
  offer_departure _ := JUndefined
}.

(** Neither has a [NormalizedHotel]. *)
#[export] Instance NormalizedHotel_Offer : Offer NormalizedHotel := {
  offer_amount h := hp_amount (nh_price h);
  offer_from _ := JUndefined;
  offer_to _ := JUndefined;
  offer_departure _ := JUndefined
}.

(** In a [NormalizedTransport] the three properties are objects. *)
#[export] Instance NormalizedTransport_Offer : Offer NormalizedTransport := {
  offer_amount t := amount (nt_price t);
  offer_from t := Place_object (nt_from t);
  offer_to t := Place_object (nt_to t);
  offer_departure t := Moment_object (nt_departure t)
}.

(** ** DataNormalizer: the methods *)

(** Reading a property of undefined or null throws. *)
Definition object_coercible {S} (v : JsVal) : M S unit :=
  if nullish v then throw TypeError else ret tt.

(** [v.map(f)] and [v.forEach(f)] for a [v] of type [any]: only an array has
    these methods. *)
Definition Array_map {S B} (v : JsVal) (f : JsVal -> M S B) : M S (list B) :=
  match v with
  | JArr items => mapM f items
  | _ => throw TypeError
  end.

Section DataNormalizer.
Context `{JsRuntime}.

Definition parseDuration {S} (duration : JsVal) : M S number :=
  match duration with
  | JNum n => ret n
  | JStr s =>
      let hours := match_digits_before "h" s in
      let minutes := match_digits_before "m" s in
      ret (num_of_Z (parseInt_digits (default "0" hours) * 60
                     + parseInt_digits (default "0" minutes)))
  | _ => throw TypeError
  end.

Definition normalizeSegments {S} (segments : JsVal) : M S (list Segment) :=
  Array_map segments (fun seg =>
    object_coercible seg ;;;
    duration <- parseDuration seg.["duration"] ;;
    ret {| seg_from := {| place_code := seg.["fromCode"] ||| seg.["from"]?.["code"] ||| JStr "";
                          place_name := seg.["fromName"] ||| seg.["from"]?.["name"] ||| JStr "";
                          place_city := seg.["fromCity"] ||| seg.["from"]?.["city"] ||| JStr "" |};
           seg_to := {| place_code := seg.["toCode"] ||| seg.["to"]?.["code"] ||| JStr "";
                        place_name := seg.["toName"] ||| seg.["to"]?.["name"] ||| JStr "";
                        place_city := seg.["toCity"] ||| seg.["to"]?.["city"] ||| JStr "" |};
           seg_airline := seg.["airline"] ||| seg.["carrier"] ||| JStr "";
           seg_flightNumber := seg.["flightNumber"] ||| seg.["number"] ||| JStr "";
           seg_departure := {| datetime := seg.["departure"] ||| seg.["departureTime"] ||| JStr "";
                               timezone := seg.["departureTimezone"] ||| JStr "UTC" |};
           seg_arrival := {| datetime := seg.["arrival"] ||| seg.["arrivalTime"] ||| JStr "";
                             timezone := seg.["arrivalTimezone"] ||| JStr "UTC" |};
           seg_duration := duration;
           seg_aircraft := seg.["aircraft"] |}).

Definition normalizePrice (price currency : JsVal) : Price :=
  let amount := if is_number price then price
                else price?.["amount"] ||| price ||| JQ 0 in
  let curr := currency ||| price?.["currency"] ||| JStr "USD" in
  {| amount := amount;
     currency := curr;
     originalCurrency := price?.["originalCurrency"];
     exchangeRate := price?.["exchangeRate"] |}.

Definition normalizeHotelPrice (price currency : JsVal) : HotelPrice :=
  let amount := if is_number price then price
                else price?.["amount"] ||| price ||| JQ 0 in
  let curr := currency ||| price?.["currency"] ||| JStr "USD" in
  {| hp_amount := amount;
     hp_currency := curr;
     hp_perNight := true;
     hp_originalCurrency := price?.["originalCurrency"];
     hp_exchangeRate := price?.["exchangeRate"] |}.

Definition calculateTotalDuration {S} (data : JsVal) : M S number :=
  if truthy data.["totalDuration"] then parseDuration data.["totalDuration"]
  else ret (Fin 0).

Definition extractLayovers (_data : JsVal) : list Layover := [].

Definition extractBaggage (data : JsVal) : Baggage :=
  {| included := data.["baggageIncluded"] ||| JBool false;
     allowance := data.["baggageAllowance"] |}.

Definition normalizeRoomTypes {S} (rooms : JsVal) : M S (list RoomType) :=
  Array_map rooms (fun room =>
    object_coercible room ;;;
    ret {| room_name := room.["name"] ||| room.["type"] ||| JStr "";
           room_price := room.["price"] ||| JQ 0;
           room_available := match room.["available"] with
                             | JBool false => false
                             | _ => true
                             end |}).

(** One step of the [forEach] over [data.specialDeals]: [deal.toLowerCase()]
    exists on strings only. *)
Definition specialDeal_offer {S} (deal : JsVal) : M S (list SpecialOffer) :=
  match deal with
  | JStr d =>
      if includes (toLowerCase d) "first" then
        ret [{| so_type := FirstTime; so_description := d; so_discount := None |}]
      else if includes (toLowerCase d) "discount" || includes d "%" then
        ret [{| so_type := Discount; so_description := d; so_discount := None |}]
      else ret []
  | _ => throw TypeError
  end.

Definition extractSpecialOffers {S} (data : JsVal) : M S (list SpecialOffer) :=
  let firstTime :=
    if truthy data.["firstTimeDeal"] then
      [{| so_type := FirstTime; so_description := "First-time customer deal";
          so_discount := None |}]
    else [] in
  let discount :=
    if truthy data.["discount"] then
      [{| so_type := Discount;
          so_description := ToString data.["discount"] +:+ "% off";
          so_discount := Some data.["discount"] |}]
    else [] in
  special <- (if truthy data.["specialDeals"] then
                offers <- Array_map data.["specialDeals"] specialDeal_offer ;;
                ret (concat offers)
              else ret []) ;;
  ret (firstTime ++ discount ++ special).

(** The id [`${source}-${data.id || Math.random().toString(36)}`]: the
    generator is read only when [data.id] is falsy. *)
Definition make_id (data source : JsVal) : M World string :=
  suffix <- (if truthy data.["id"] then ret (ToString data.["id"])
             else Math_random_toString36) ;;
  ret (ToString source +:+ "-" +:+ suffix).

Definition normalizeFlight (data source : JsVal) : M World NormalizedFlight :=
  object_coercible data ;;;
  id <- make_id data source ;;
  segments <- normalizeSegments (data.["segments"] ||| data.["flights"] ||| JArr []) ;;
  totalDuration <- calculateTotalDuration data ;;
  lastUpdated <- new_Date_toISOString ;;
  ret {| nf_id := id;
         nf_segments := segments;
         nf_price := normalizePrice data.["price"] data.["currency"];
         nf_totalDuration := totalDuration;
         nf_layovers := extractLayovers data;
         nf_source := source;
         nf_bookingUrl := data.["url"] ||| data.["bookingUrl"] ||| JStr "#";
         nf_baggage := extractBaggage data;
         nf_refundable := data.["refundable"] ||| JBool false;
         nf_lastUpdated := lastUpdated |}.

Definition normalizeHotel (data source : JsVal) : M World NormalizedHotel :=
  object_coercible data ;;;
  id <- make_id data source ;;
  roomTypes <- normalizeRoomTypes (data.["rooms"] ||| data.["roomTypes"] ||| JArr []) ;;
  specialOffers <- extractSpecialOffers data ;;
  lastUpdated <- new_Date_toISOString ;;
  ret {| nh_id := id;
         nh_name := data.["name"] ||| data.["hotelName"] ||| JStr "";
         nh_location :=
           {| address := data.["address"] ||| data.["location"]?.["address"] ||| JStr "";
              loc_city := data.["city"] ||| data.["location"]?.["city"] ||| JStr "";
              country := data.["country"] ||| data.["location"]?.["country"] ||| JStr "";
              coordinates := data.["coordinates"] ||| data.["location"]?.["coordinates"] |};
         nh_price := normalizeHotelPrice data.["price"] data.["currency"];
         nh_rating :=
           {| rating_value := data.["rating"] ||| data.["stars"] ||| JQ 0;
              rating_max := Fin 5;
              rating_reviews := data.["reviews"] ||| data.["reviewCount"] ||| JQ 0;
              rating_source := data.["ratingSource"] ||| source |};
         nh_amenities := match data.["amenities"] with JArr items => items | _ => [] end;
         nh_roomTypes := roomTypes;
         nh_cancellationPolicy := data.["cancellationPolicy"] ||| JStr "Check booking site";
         nh_specialOffers := specialOffers;
         nh_source := source;
         nh_bookingUrl := data.["url"] ||| data.["bookingUrl"] ||| JStr "#";
         nh_images := match data.["images"] with JArr items => items | _ => [] end;
         nh_lastUpdated := lastUpdated |}.

Definition normalizeTransport (data source : JsVal) : M World NormalizedTransport :=
  object_coercible data ;;;
  id <- make_id data source ;;
  duration <- parseDuration data.["duration"] ;;
  lastUpdated <- new_Date_toISOString ;;
  ret {| nt_id := id;
         nt_type := data.["type"] ||| JStr "bus";
         nt_from := {| place_code := data.["fromCode"] ||| JStr "";
                       place_name := data.["fromName"] ||| data.["from"] ||| JStr "";
                       place_city := data.["fromCity"] ||| JStr "" |};
         nt_to := {| place_code := data.["toCode"] ||| JStr "";
                     place_name := data.["toName"] ||| data.["to"] ||| JStr "";
                     place_city := data.["toCity"] ||| JStr "" |};
         nt_operator := data.["operator"] ||| data.["company"] ||| JStr "";
         nt_departure := {| datetime := data.["departure"] ||| data.["departureTime"] ||| JStr "";
                            timezone := data.["departureTimezone"] ||| JStr "UTC" |};
         nt_arrival := {| datetime := data.["arrival"] ||| data.["arrivalTime"] ||| JStr "";
                          timezone := data.["arrivalTimezone"] ||| JStr "UTC" |};
         nt_duration := duration;
         nt_price := normalizePrice data.["price"] data.["currency"];
         nt_source := source;
         nt_bookingUrl := data.["url"] ||| data.["bookingUrl"] ||| JStr "#";
         nt_amenities := data.["amenities"] ||| JArr [];
         nt_lastUpdated := lastUpdated |}.

Section Merge.
Context {T : Type} `{Offer T}.

Definition generateMergeKey (_result : T) : string :=
  ToString (offer_from _result ||| JStr "") +:+ "-" +:+
  ToString (offer_to _result ||| JStr "") +:+ "-" +:+
  ToString (offer_departure _result ||| JStr "").

(** The callback of the [reduce]: the current element replaces the best
    one only when it is strictly cheaper. *)
Definition cheaper (best current : T) : T :=
  if js_lt (offer_amount current) (offer_amount best) then current else best.

(** What one group contributes to [merged].  A group of the map is never
    empty, so the first case is not reached. *)
Definition merge_group (group : list T) : list T :=
  match group with
  | [] => []
  | first :: rest =>
      if (length group =? 1)%nat then [first]
      else [reduce cheaper first rest]
  end.

Definition mergeDuplicates (results : list T) : list T :=
  let grouped := group_by generateMergeKey results in
  flat_map (fun entry => merge_group (snd entry)) grouped.
End Merge.
End DataNormalizer.

(** ** RealBookingAggregator: provider records

    The numbers that providers deliver (prices, ratings, counts) are finite
    doubles, held as the rationals they denote ([is_double]). *)

Record RouteSegment := {
  rs_from : string;
  rs_to : string;
  rs_airline : string;
  rs_flightNumber : string;
  rs_departure : string;
  rs_arrival : string;
  rs_duration : string;
  rs_price : Q;
  rs_currency : string
}.

Record FlightRoute := {
  fr_segments : list RouteSegment;
  totalPrice : Q;
  totalDuration : string;
  layovers : Q;
  fr_source : string
}.

Record HotelDeal := {
  hd_name : string;
  hd_location : string;
  hd_price : Q;
  hd_currency : string;
  hd_rating : Q;
  hd_reviews : Q;
  hd_amenities : list string;
  hd_cancellationPolicy : string;
  specialDeals : list string;
  hd_source : string;
  hd_url : string;
  firstTimeDeal : option bool;
  discount : option number
}.

Record Experience := {
  ex_name : string;
  ex_location : string;
  ex_price : Q;
  ex_currency : string;
  ex_duration : string;
  ex_rating : Q;
  ex_reviews : Q;
  ex_category : string;
  ex_source : string;
  ex_url : string
}.

(** The provider calls.  Each is a black box that settles with records or
    with a failure; [searchRoute] is the generic route search used for
    multi-city routes. *)
Definition FlightSearch := string -> string -> string -> number -> Settled (list FlightRoute).
Definition HotelSearch := string -> string -> string -> number -> Settled (list HotelDeal).
Definition ExperienceSearch := string -> option string -> Settled (list Experience).

Record Providers := {
  flightSearches : list FlightSearch;
  searchRoute : FlightSearch;
  hotelSearches : list HotelSearch;
  experienceSearches : list ExperienceSearch
}.

(** The providers as the repository has them: fifteen flight searches,
    fifteen hotel searches, four experience searches, every one a placeholder
    that resolves with no record. *)
Definition placeholder_providers : Providers :=
  {| flightSearches := repeat (fun _ _ _ _ => Fulfilled []) 15;
     searchRoute := fun _ _ _ _ => Fulfilled [];
     hotelSearches := repeat (fun _ _ _ _ => Fulfilled []) 15;
     experienceSearches := repeat (fun _ _ => Fulfilled []) 4 |}.

(** [await Promise.allSettled(ps)] never throws: it gives the outcomes. *)
Definition Promise_allSettled {S A} (ps : list (Settled A)) : M S (list (Settled A)) :=
  ret ps.

(** [results.forEach(r => { if (r.status === 'fulfilled') out.push(...r.value) })] *)
Definition push_fulfilled {A} (results : list (Settled (list A))) : list A :=
  flat_map (fun result => match result with
                          | Fulfilled value => value
                          | Rejected _ => []
                          end) results.

Definition hubs : list string :=
  ["BKK"; "SIN"; "DXB"; "DOH"; "IST"; "FRA"; "AMS"; "LHR"].

Definition addDurations (dur1 _dur2 : string) : string := dur1.

Section RealBookingAggregator.
Context `{JsRuntime} (P : Providers).

Definition findMultiCityRoutes {S} (from to date : string) (passengers : number)
  : M S (list FlightRoute) :=
  found <- mapM (fun hub =>
    try_catch
      (route1 <- await (searchRoute P from hub date passengers) ;;
       route2 <- await (searchRoute P hub to date passengers) ;;
       match route1, route2 with
       | r1 :: _, r2 :: _ =>
           ret [{| fr_segments := fr_segments r1 ++ fr_segments r2;
                   totalPrice := double_add (totalPrice r1) (totalPrice r2);
                   totalDuration := addDurations (totalDuration r1) (totalDuration r2);
                   layovers := double_add (double_add (layovers r1) (layovers r2)) 1;
                   fr_source := "multi-city" |}]
       | _, _ => ret []
       end)
      (fun _error => ret [])) hubs ;;
  ret (concat found).

Definition searchFlights {S} (from to date : string) (passengers : number)
    (flexible : bool) : M S (list FlightRoute) :=
  let searches := map (fun search => search from to date passengers) (flightSearches P) in
  results <- Promise_allSettled searches ;;
  let routes := push_fulfilled results in
  multiCityRoutes <- (if flexible then findMultiCityRoutes from to date passengers
                      else ret []) ;;
  ret (sort_by totalPrice (routes ++ multiCityRoutes)).

Definition mentions_first_time (d : HotelDeal) : bool :=
  existsb (fun sd => includes (toLowerCase sd) "first"
                     || includes (toLowerCase sd) "new user") (specialDeals d).

Definition cheaper_deal (best current : HotelDeal) : HotelDeal :=
  if Qltb (hd_price current) (hd_price best) then current else best.

(** [Math.round(((maxPrice - cheapest.price) / maxPrice) * 100)]: the
    difference, the quotient and the product are each rounded to a double. *)
Definition discount_percent (maxPrice : number) (cheapestPrice : Q) : number :=
  Math_round (number_mul (number_div (number_sub maxPrice (Fin cheapestPrice)) maxPrice)
                         (Fin 100)).

(** What one group of deals for the same hotel name contributes. *)
Definition best_of_hotel (hotelDeals : list HotelDeal) : list HotelDeal :=
  match hotelDeals with
  | [] => []
  | first :: rest =>
      let cheapest := reduce cheaper_deal first rest in
      let flag := existsb mentions_first_time hotelDeals in
      let discount' :=
        if (1 <? length hotelDeals)%nat then
          let prices := map (fun d => Fin (hd_price d)) hotelDeals in
          let maxPrice := Math_max prices in
          Some (discount_percent maxPrice (hd_price cheapest))
        else discount cheapest in
      [{| hd_name := hd_name cheapest;
          hd_location := hd_location cheapest;
          hd_price := hd_price cheapest;
          hd_currency := hd_currency cheapest;
          hd_rating := hd_rating cheapest;
          hd_reviews := hd_reviews cheapest;
          hd_amenities := hd_amenities cheapest;
          hd_cancellationPolicy := hd_cancellationPolicy cheapest;
          specialDeals := specialDeals cheapest;
          hd_source := hd_source cheapest;
          hd_url := hd_url cheapest;
          firstTimeDeal := Some flag;
          discount := discount' |}]
  end.

Definition identifyBestDeals (deals : list HotelDeal) : list HotelDeal :=
  let grouped := group_by (fun deal => toLowerCase (hd_name deal)) deals in
  let bestDeals := flat_map (fun entry => best_of_hotel (snd entry)) grouped in
  sort_by hd_price bestDeals.

Definition searchHotels {S} (location checkIn checkOut : string) (guests : number)
  : M S (list HotelDeal) :=
  let searches := map (fun search => search location checkIn checkOut guests)
                      (hotelSearches P) in
  results <- Promise_allSettled searches ;;
  let deals := push_fulfilled results in
  ret (identifyBestDeals deals).

Definition searchExperiences {S} (location : string) (date : option string)
  : M S (list Experience) :=
  let searches := map (fun search => search location date) (experienceSearches P) in
  results <- Promise_allSettled searches ;;
  let experiences := push_fulfilled results in
  ret (sort_by ex_price experiences).
End RealBookingAggregator.

(** ** BookingAggregator *)

Inductive QueryType := TFlight | THotel | TBus | TTrain | TFerry | TExperience | TAll.

Record Budget := {
  budget_min : option number;
  budget_max : option number;
  budget_currency : string
}.

Record BookingQuery := {
  q_type : QueryType;
  q_from : option string;
  q_to : string;
  q_date : option string;
  q_returnDate : option string;
  q_passengers : option number;
  q_flexible : option bool;
  q_budget : option Budget
}.

(** The elements of the arrays that [searchAllSources] returns with type
    [any]: at run time each is a record of one of the three provider shapes. *)
Inductive Raw :=
| RawFlight (r : FlightRoute)
| RawHotel (d : HotelDeal)
| RawExperience (e : Experience).

Definition Raw_source (x : Raw) : string :=
  match x with
  | RawFlight r => fr_source r
  | RawHotel d => hd_source d
  | RawExperience e => ex_source e
  end.

Definition RouteSegment_object (s : RouteSegment) : JsVal :=
  JObj [("from", JStr (rs_from s)); ("to", JStr (rs_to s));
        ("airline", JStr (rs_airline s)); ("flightNumber", JStr (rs_flightNumber s));
        ("departure", JStr (rs_departure s)); ("arrival", JStr (rs_arrival s));
        ("duration", JStr (rs_duration s)); ("price", JQ (rs_price s));
        ("currency", JStr (rs_currency s))].

Definition optional_prop {A} (k : string) (f : A -> JsVal) (o : option A)
  : list (string * JsVal) :=
  match o with
  | Some a => [(k, f a)]
  | None => []
  end.

(** The same record seen as a value of type [any]. *)
Definition Raw_object (x : Raw) : JsVal :=
  match x with
  | RawFlight r =>
      JObj [("segments", JArr (map RouteSegment_object (fr_segments r)));
            ("totalPrice", JQ (totalPrice r));
            ("totalDuration", JStr (totalDuration r));
            ("layovers", JQ (layovers r));
            ("source", JStr (fr_source r))]
  | RawHotel d =>
      JObj ([("name", JStr (hd_name d)); ("location", JStr (hd_location d));
             ("price", JQ (hd_price d)); ("currency", JStr (hd_currency d));
             ("rating", JQ (hd_rating d)); ("reviews", JQ (hd_reviews d));
             ("amenities", JArr (map JStr (hd_amenities d)));
             ("cancellationPolicy", JStr (hd_cancellationPolicy d));
             ("specialDeals", JArr (map JStr (specialDeals d)));
             ("source", JStr (hd_source d)); ("url", JStr (hd_url d))]
            ++ optional_prop "firstTimeDeal" JBool (firstTimeDeal d)
            ++ optional_prop "discount" JNum (discount d))
  | RawExperience e =>
      JObj [("name", JStr (ex_name e)); ("location", JStr (ex_location e));
            ("price", JQ (ex_price e)); ("currency", JStr (ex_currency e));
            ("duration", JStr (ex_duration e)); ("rating", JQ (ex_rating e));
            ("reviews", JQ (ex_reviews e)); ("category", JStr (ex_category e));
            ("source", JStr (ex_source e)); ("url", JStr (ex_url e))]
  end.

(** The object built by [searchAllSources]. *)
Record SourceResults := {
  sr_flights : list Raw;
  sr_hotels : list Raw;
  sr_transport : list Raw;
  sr_experiences : list Raw
}.

Record Normalized := {
  flights : list NormalizedFlight;
  hotels : list NormalizedHotel;
  transport : list NormalizedTransport;
  experiences : list Raw
}.

Inductive DealItem :=
| FlightItem (f : NormalizedFlight)
| HotelItem (h : NormalizedHotel).

Record Deal := {
  deal_type : string;
  deal_item : DealItem;
  deal_savings : option number;
  deal_reason : string
}.

Record AggregatedResults := {
  ar_flights : list NormalizedFlight;
  ar_hotels : list NormalizedHotel;
  ar_transport : list NormalizedTransport;
  ar_experiences : list Raw;
  bestDeals : list Deal;
  sources : list string;
  ar_lastUpdated : string
}.

Record CacheEntry := { data : AggregatedResults; timestamp : Z }.

(** The mutable state of one [BookingAggregator], with the world it runs in. *)
Record Aggregator := {
  cache : gmap string CacheEntry;
  world : World
}.

Definition cacheTTL : Z := 60 * 60 * 1000.

(** A computation on the world, run inside the aggregator. *)
Definition in_world {A} (m : M World A) : M Aggregator A :=
  fun a =>
    let (r, w) := m (world a) in
    (r, {| cache := cache a; world := w |}).

(** Calling an [async] method gives a promise; once it has run, the promise
    is settled. *)
Definition settle {S A} (m : M S A) : M S (Settled A) :=
  fun s => let (r, s') := m s in (Fulfilled r, s').

Definition Settled_map {A B} (f : A -> B) (p : Settled A) : Settled B :=
  match p with
  | Fulfilled a => Fulfilled (f a)
  | Rejected e => Rejected e
  end.

(** [results[i]?.status === 'fulfilled' ? results[i].value : []] *)
Definition fulfilled_at {A} (results : list (Settled (list A))) (i : nat) : list A :=
  match results !! i with
  | Some (Fulfilled value) => value
  | _ => []
  end.

(** A [Set<string>] filled by [add], read back by [Array.from]. *)
Definition Set_add (x : string) (set : list string) : list string :=
  if existsb (String.eqb x) set then set else set ++ [x].

Definition is_first_time (o : SpecialOffer) : bool :=
  match so_type o with FirstTime => true | _ => false end.

Section BookingAggregator.
Context `{JsRuntime} (P : Providers).
(** [JSON.stringify(query)] *)
Context (JSON_stringify : BookingQuery -> string).

Definition generateCacheKey (query : BookingQuery) : string := JSON_stringify query.

Definition searchAllSources {S} (query : BookingQuery) : M S SourceResults :=
  let type := q_type query in
  flightSearch <-
    (match type with
     | TFlight | TAll =>
         match q_from query with
         | Some from =>
             if negb (String.eqb from "") then
               p <- settle (searchFlights P from (q_to query)
                              (default "" (q_date query))
                              (match q_passengers query with
                               | Some n => if truthy (JNum n) then n else Fin 1
                               | None => Fin 1
                               end)
                              (default false (q_flexible query))) ;;
               ret [Settled_map (map RawFlight) p]
             else ret []
         | None => ret []
         end
     | _ => ret []
     end) ;;
  hotelSearch <-
    (match type with
     | THotel | TAll =>
         p <- settle (searchHotels P (q_to query)
                        (default "" (q_date query))
                        (default "" (q_returnDate query))
                        (match q_passengers query with
                         | Some n => if truthy (JNum n) then n else Fin 2
                         | None => Fin 2
                         end)) ;;
         ret [Settled_map (map RawHotel) p]
     | _ => ret []
     end) ;;
  transportSearch <-
    (match type with
     | TBus | TTrain | TFerry | TAll => ret [Fulfilled []]
     | _ => ret []
     end) ;;
  experienceSearch <-
    (match type with
     | TExperience | TAll =>
         p <- settle (searchExperiences P (q_to query) (q_date query)) ;;
         ret [Settled_map (map RawExperience) p]
     | _ => ret []
     end) ;;
  let searches := flightSearch ++ hotelSearch ++ transportSearch ++ experienceSearch in
  results <- Promise_allSettled searches ;;
  ret {| sr_flights := fulfilled_at results 0;
         sr_hotels := fulfilled_at results 1;
         sr_transport := fulfilled_at results 2;
         sr_experiences := fulfilled_at results 3 |}.

Definition source_or_unknown (x : Raw) : JsVal :=
  (Raw_object x).["source"] ||| JStr "unknown".

Definition normalizeAll (results : SourceResults) : M World Normalized :=
  flights <- mapM (fun f => normalizeFlight (Raw_object f) (source_or_unknown f))
                  (sr_flights results) ;;
  hotels <- mapM (fun h => normalizeHotel (Raw_object h) (source_or_unknown h))
                 (sr_hotels results) ;;
  transport <- mapM (fun t => normalizeTransport (Raw_object t) (source_or_unknown t))
                    (sr_transport results) ;;
  ret {| flights := flights;
         hotels := hotels;
         transport := transport;
         experiences := sr_experiences results |}.

Definition mergeAll (normalized : Normalized) : Normalized :=
  {| flights := mergeDuplicates (flights normalized);
     hotels := mergeDuplicates (hotels normalized);
     transport := mergeDuplicates (transport normalized);
     experiences := experiences normalized |}.

Definition hotel_score (h : NormalizedHotel) : number :=
  number_div (js_mul (rating_value (nh_rating h)) (rating_reviews (nh_rating h)))
             (ToNumber (hp_amount (nh_price h))).

Definition better_hotel (best current : NormalizedHotel) : NormalizedHotel :=
  let bestScore := hotel_score best in
  let currentScore := hotel_score current in
  if number_lt bestScore currentScore then current else best.

Definition findBestDeals (merged : Normalized) : list Deal :=
  let flightDeals :=
    match flights merged with
    | [] => []
    | first :: rest =>
        [{| deal_type := "flight";
            deal_item := FlightItem (reduce cheaper first rest);
            deal_savings := None;
            deal_reason := "Lowest price" |}]
    end in
  let hotelDeals :=
    match hotels merged with
    | [] => []
    | first :: rest =>
        {| deal_type := "hotel";
           deal_item := HotelItem (reduce better_hotel first rest);
           deal_savings := None;
           deal_reason := "Best value (rating/price)" |}
        :: match find (fun h => existsb is_first_time (nh_specialOffers h))
                      (hotels merged) with
           | Some firstTimeDeal =>
               [{| deal_type := "hotel";
                   deal_item := HotelItem firstTimeDeal;
                   deal_savings := None;
                   deal_reason := "First-time customer special" |}]
           | None => []
           end
    end in
  flightDeals ++ hotelDeals.

Definition extractSources (results : SourceResults) : list string :=
  let add_all := fold_left (fun set x => Set_add (Raw_source x) set) in
  add_all (sr_transport results)
    (add_all (sr_hotels results)
       (add_all (sr_flights results) [])).

(** Lines 266-269 of [search]: the entry of the key, if it is younger than
    the TTL.  The clock is read only when there is an entry. *)
Definition cache_lookup (cacheKey : string) : M Aggregator (option AggregatedResults) :=
  fun a =>
    match cache a !! cacheKey with
    | Some cached =>
        (now <- in_world Date_now ;;
         ret (if (now - timestamp cached <? cacheTTL)%Z then Some (data cached)
              else None)) a
    | None => (Fulfilled None, a)
    end.

(** Line 295 of [search]:
    [this.cache.set(cacheKey, { data: aggregated, timestamp: Date.now() })] *)
Definition cache_store (cacheKey : string) (aggregated : AggregatedResults)
  : M Aggregator unit :=
  now <- in_world Date_now ;;
  fun a =>
    (Fulfilled tt,
     {| cache := <[cacheKey := {| data := aggregated; timestamp := now |}]> (cache a);
        world := world a |}).

Definition search (query : BookingQuery) : M Aggregator AggregatedResults :=
  let cacheKey := generateCacheKey query in
  hit <- cache_lookup cacheKey ;;
  match hit with
  | Some cached_data => ret cached_data
  | None =>
      results <- searchAllSources query ;;
      normalized <- in_world (normalizeAll results) ;;
      let merged := mergeAll normalized in
      let bestDeals := findBestDeals merged in
      lastUpdated <- in_world new_Date_toISOString ;;
      let aggregated :=
        {| ar_flights := flights merged;
           ar_hotels := hotels merged;
           ar_transport := transport merged;
           ar_experiences := experiences merged;
           bestDeals := bestDeals;
           sources := extractSources results;
           ar_lastUpdated := lastUpdated |} in
      cache_store cacheKey aggregated ;;;
      ret aggregated
  end.

Definition clearCache : M Aggregator unit :=
  fun a => (Fulfilled tt, {| cache := ∅; world := world a |}).
End BookingAggregator.


(** ** A runtime for the examples

    Integers, and decimals of at most sixteen places, are rendered as
    JavaScript renders them; strings of digits with an optional sign and
    fraction are read as numbers, the empty string as zero, anything else as
    NaN; dates are rendered for the years 0000 to 9999; the strings of a
    serialized query are taken to need no escaping; [toLowerCase] lowers the
    letters A to Z and the capital letters of the Latin-1 supplement (strings
    are in UTF-8), the only capital letters in the strings of the examples. *)

Module Reference.
Definition lower_ascii (c : ascii) : ascii :=
  let n := nat_of_ascii c in
  if (65 <=? n)%nat && (n <=? 90)%nat then ascii_of_nat (n + 32) else c.

(** In UTF-8 the capital letters of the Latin-1 supplement, U+00C0 to U+00DE
    without the sign U+00D7, are the byte 195 and a byte from 128 to 158;
    the small letter is 32 places further. *)
Definition latin_capital (c d : ascii) : bool :=
  let n := nat_of_ascii d in
  (nat_of_ascii c =? 195)%nat && (128 <=? n)%nat && (n <=? 158)%nat
  && negb (n =? 151)%nat.

Fixpoint lower_string (s : string) : string :=
  match s with
  | EmptyString => EmptyString
  | String c rest =>
      match rest with
      | String d rest' =>
          if latin_capital c d
          then String c (String (ascii_of_nat (nat_of_ascii d + 32)) (lower_string rest'))
          else String (lower_ascii c) (lower_string rest)
      | EmptyString => String (lower_ascii c) EmptyString
      end
  end.

Definition pad (width : nat) (z : Z) : string :=
  let digits := pretty z in
  String.concat "" (repeat "0" (width - String.length digits)) +:+ digits.

Definition toISOString (ms : Z) : string :=
  let days := (ms / 86400000)%Z in
  let rem := (ms mod 86400000)%Z in
  let z := (days + 719468)%Z in
  let era := (z / 146097)%Z in
  let doe := (z - era * 146097)%Z in
  let yoe := ((doe - doe / 1460 + doe / 36524 - doe / 146096) / 365)%Z in
  let doy := (doe - (365 * yoe + yoe / 4 - yoe / 100))%Z in
  let mp := ((5 * doy + 2) / 153)%Z in
  let d := (doy - (153 * mp + 2) / 5 + 1)%Z in
  let m := (if mp <? 10 then mp + 3 else mp - 9)%Z in
  let y := (yoe + era * 400 + (if m <=? 2 then 1 else 0))%Z in
  pad 4 y +:+ "-" +:+ pad 2 m +:+ "-" +:+ pad 2 d +:+ "T" +:+
  pad 2 (rem / 3600000) +:+ ":" +:+ pad 2 (rem / 60000 mod 60) +:+ ":" +:+
  pad 2 (rem / 1000 mod 60) +:+ "." +:+ pad 3 (rem mod 1000) +:+ "Z".

Fixpoint fraction_digits (places : nat) (num den : Z) : string :=
  match places with
  | O => ""
  | S places' =>
      if (num =? 0)%Z then ""
      else pretty (10 * num / den)%Z +:+ fraction_digits places' ((10 * num) mod den)%Z den
  end.

Definition render_number (n : number) : string :=
  match n with
  | NaN => "NaN"
  | PosInf => "Infinity"
  | NegInf => "-Infinity"
  | Fin q =>
      let num := Qnum q in
      let den := Zpos (Qden q) in
      let whole := (Z.abs num / den)%Z in
      let rest := (Z.abs num mod den)%Z in
      (if (num <? 0)%Z then "-" else "") +:+ pretty whole +:+
      (if (rest =? 0)%Z then "" else "." +:+ fraction_digits 16 rest den)
  end.

Fixpoint split_at_point (s : string) : string * option string :=
  match s with
  | EmptyString => (EmptyString, None)
  | String c rest =>
      if Ascii.eqb c "." then (EmptyString, Some rest)
      else let (whole, frac) := split_at_point rest in (String c whole, frac)
  end.

Definition read_unsigned (s : string) : number :=
  let (whole, frac) := split_at_point s in
  let frac := default "" frac in
  if negb (all_digits whole && all_digits frac) then NaN
  else if (String.length whole + String.length frac =? 0)%nat then NaN
  else round_double
         (Qmake (parseInt_digits (whole +:+ frac))
                (Pos.pow 10 (Pos.of_nat (String.length frac)))
          * (if (String.length frac =? 0)%nat then 10 else 1)).

Definition read_number (s : string) : number :=
  match s with
  | EmptyString => Fin 0
  | String "-" rest => number_neg (read_unsigned rest)
  | _ => read_unsigned s
  end.

#[export] Instance runtime : JsRuntime := {
  Number_toString := render_number;
  StringToNumber := read_number;
  Date_toISOString := toISOString;
  toLowerCase := lower_string
}.

Definition quote : string := String (ascii_of_nat 34) "".

Definition quoted (s : string) : string := quote +:+ s +:+ quote.

Definition member (k : string) (v : string) : list string := [quoted k +:+ ":" +:+ v].

Definition optional_member {A} (k : string) (f : A -> string) (o : option A) : list string :=
  match o with
  | Some a => member k (f a)
  | None => []
  end.

Definition object (members : list string) : string :=
  "{" +:+ String.concat "," members +:+ "}".

Definition type_name (t : QueryType) : string :=
  match t with
  | TFlight => "flight"
  | THotel => "hotel"
  | TBus => "bus"
  | TTrain => "train"
  | TFerry => "ferry"
  | TExperience => "experience"
  | TAll => "all"
  end.

Definition json_number (n : number) : string :=
  match n with
  | Fin _ => render_number n
  | _ => "null"
  end.

Definition stringify_budget (b : Budget) : string :=
  object (optional_member "min" json_number (budget_min b)
          ++ optional_member "max" json_number (budget_max b)
          ++ member "currency" (quoted (budget_currency b))).

(** [JSON.stringify] of a query whose properties were written in the order
    of the interface; absent properties are left out. *)
Definition stringify (q : BookingQuery) : string :=
  object (member "type" (quoted (type_name (q_type q)))
          ++ optional_member "from" quoted (q_from q)
          ++ member "to" (quoted (q_to q))
          ++ optional_member "date" quoted (q_date q)
          ++ optional_member "returnDate" quoted (q_returnDate q)
          ++ optional_member "passengers" json_number (q_passengers q)
          ++ optional_member "flexible" (fun b : bool => if b then "true" else "false")
                             (q_flexible q)
          ++ optional_member "budget" stringify_budget (q_budget q)).

(** A world whose clock starts at [start] and advances by [step]
    milliseconds at each reading. *)
Definition world_at (start step : Z) : World :=
  {| clock := fun n => (start + step * Z.of_nat n)%Z;
     clock_reads := 0;
     random36 := fun n => "0.r" +:+ pretty n;
     random_draws := 0 |}.

Definition fresh (start step : Z) : Aggregator :=
  {| cache := ∅; world := world_at start step |}.
End Reference.

(** * The vocabulary of the statements *)

(** ** Choosing by [reduce] *)

(** [r] is the first element of [xs] with the least price: what comes before
    it is strictly dearer, what comes after it is not cheaper. *)
Definition first_smallest {A} (price : A -> Q) (xs : list A) (r : A) : Prop :=
  exists pre post,
    xs = pre ++ r :: post /\
    (forall x, In x pre -> (price r < price x)%Q) /\
    (forall x, In x post -> (price r <= price x)%Q).

(** ** Groups *)

Definition has_key {T} (keyOf : T -> string) (k : string) (x : T) : bool :=
  String.eqb (keyOf x) k.

(** [grouped] holds one entry per key that occurs in [xs], and the entry of a
    key holds the elements of [xs] with that key, in their order. *)
Definition groups_of {T} (keyOf : T -> string) (xs : list T)
    (grouped : list (string * list T)) : Prop :=
  List.NoDup (map fst grouped) /\
  (forall x, In x xs -> In (keyOf x) (map fst grouped)) /\
  Forall (fun entry => snd entry <> [] /\
                       snd entry = List.filter (has_key keyOf (fst entry)) xs) grouped.

(** The group of an offer: the offers of the input with the same key. *)
Definition merge_group_of `{JsRuntime} {T : Type} `{Offer T} (results : list T) (x : T)
  : list T :=
  List.filter (has_key generateMergeKey (generateMergeKey x)) results.

(** The deals for the same hotel name as [d], in input order. *)
Definition hotel_group_of `{JsRuntime} (deals : list HotelDeal) (d : HotelDeal)
  : list HotelDeal :=
  List.filter (has_key (fun deal => toLowerCase (hd_name deal)) (toLowerCase (hd_name d)))
              deals.

(** [rep] is [cheapest] after the two assignments of [identifyBestDeals]. *)
Definition marked_copy (rep cheapest : HotelDeal) : Prop :=
  hd_name rep = hd_name cheapest /\
  hd_location rep = hd_location cheapest /\
  hd_price rep = hd_price cheapest /\
  hd_currency rep = hd_currency cheapest /\
  hd_rating rep = hd_rating cheapest /\
  hd_reviews rep = hd_reviews cheapest /\
  hd_amenities rep = hd_amenities cheapest /\
  hd_cancellationPolicy rep = hd_cancellationPolicy cheapest /\
  specialDeals rep = specialDeals cheapest /\
  hd_source rep = hd_source cheapest /\
  hd_url rep = hd_url cheapest.

(** ** Computations *)

(** [m] returns [a] and leaves the state as it is. *)
Definition returns {S A} (m : M S A) (a : A) : Prop :=
  forall s, m s = (Fulfilled a, s).

(** [m] returns some value, from every state. *)
Definition succeeds {S A} (m : M S A) : Prop :=
  forall s, exists a s', m s = (Fulfilled a, s').

(** [m] neither reads nor changes the state. *)
Definition stateless {S A} (m : M S A) : Prop :=
  exists r, forall s, m s = (r, s).

(** ** Queries and providers *)

Definition is_experience (x : Raw) : Prop := exists e, x = RawExperience e.

Definition no_results : SourceResults :=
  {| sr_flights := []; sr_hotels := []; sr_transport := []; sr_experiences := [] |}.

(** A query for flights that names no departure. *)
Definition flight_without_origin (q : BookingQuery) : Prop :=
  q_type q = TFlight /\ (q_from q = None \/ q_from q = Some "").

Definition all_empty (r : AggregatedResults) : Prop :=
  ar_flights r = [] /\ ar_hotels r = [] /\ ar_transport r = [] /\
  ar_experiences r = [] /\ bestDeals r = [] /\ sources r = [].

(** [without_failures P] is [P] where a search that fails resolves with no
    record instead. *)
Definition quiet {A} (p : Settled (list A)) : Settled (list A) :=
  match p with
  | Fulfilled v => Fulfilled v
  | Rejected _ => Fulfilled []
  end.


(** ** The cache *)

(** The next reading of the clock. *)
Definition now_of (a : Aggregator) : Z := clock (world a) (clock_reads (world a)).

(** The state after one reading of the clock. *)
Definition tick (a : Aggregator) : Aggregator :=
  {| cache := cache a;
     world := {| clock := clock (world a);
                 clock_reads := S (clock_reads (world a));
                 random36 := random36 (world a);
                 random_draws := random_draws (world a) |} |}.

(** The state without the entry of [key]. *)
Definition forget (key : string) (a : Aggregator) : Aggregator :=
  {| cache := delete key (cache a); world := world a |}.

(** What [search] does after a miss. *)
Definition recompute `{JsRuntime} (P : Providers) (JSON_stringify : BookingQuery -> string)
    (query : BookingQuery) : M Aggregator AggregatedResults :=
  results <- searchAllSources P query ;;
  normalized <- in_world (normalizeAll results) ;;
  let merged := mergeAll normalized in
  let bestDeals := findBestDeals merged in
  lastUpdated <- in_world new_Date_toISOString ;;
  let aggregated :=
    {| ar_flights := flights merged;
       ar_hotels := hotels merged;
       ar_transport := transport merged;
       ar_experiences := experiences merged;
       bestDeals := bestDeals;
       sources := extractSources results;
       ar_lastUpdated := lastUpdated |} in
  cache_store (generateCacheKey JSON_stringify query) aggregated ;;;
  ret aggregated.

(** ** What normalization takes from the world *)

(** The id that a record gets in world [w]. *)
Definition id_in `{JsRuntime} (data source : JsVal) (w : World) : string :=
  ToString source +:+ "-" +:+
  (if truthy data.["id"] then ToString data.["id"] else random36 w (random_draws w)).

(** The time stamp that a record gets in world [w]. *)
Definition stamp_in `{JsRuntime} (w : World) : string :=
  Date_toISOString (clock w (clock_reads w)).

(** Two outcomes of a normalizer are alike when both throw the same error,
    or both return and the records are equal once [erase] has blanked the
    fields taken from the world. *)
Definition alike {A} (erase : A -> A) (r1 r2 : Settled A) : Prop :=
  match r1, r2 with
  | Fulfilled x1, Fulfilled x2 => erase x1 = erase x2
  | Rejected e1, Rejected e2 => e1 = e2
  | _, _ => False
  end.

(** The id and the time stamp of a returned record are those of the world. *)
Definition stamped `{JsRuntime} {A} (get_id get_stamp : A -> string) (data source : JsVal)
    (w : World) (r : Settled A) : Prop :=
  match r with
  | Fulfilled x => get_id x = id_in data source w /\ get_stamp x = stamp_in w
  | Rejected _ => True
  end.

Definition erase_flight (f : NormalizedFlight) : NormalizedFlight :=
  {| nf_id := ""; nf_segments := nf_segments f; nf_price := nf_price f;
     nf_totalDuration := nf_totalDuration f; nf_layovers := nf_layovers f;
     nf_source := nf_source f; nf_bookingUrl := nf_bookingUrl f;
     nf_baggage := nf_baggage f; nf_refundable := nf_refundable f;
     nf_lastUpdated := "" |}.

Definition erase_hotel (h : NormalizedHotel) : NormalizedHotel :=
  {| nh_id := ""; nh_name := nh_name h; nh_location := nh_location h;
     nh_price := nh_price h; nh_rating := nh_rating h;
     nh_amenities := nh_amenities h; nh_roomTypes := nh_roomTypes h;
     nh_cancellationPolicy := nh_cancellationPolicy h;
     nh_specialOffers := nh_specialOffers h; nh_source := nh_source h;
     nh_bookingUrl := nh_bookingUrl h; nh_images := nh_images h;
     nh_lastUpdated := "" |}.

Definition erase_transport (t : NormalizedTransport) : NormalizedTransport :=
  {| nt_id := ""; nt_type := nt_type t; nt_from := nt_from t; nt_to := nt_to t;
     nt_operator := nt_operator t; nt_departure := nt_departure t;
     nt_arrival := nt_arrival t; nt_duration := nt_duration t;
     nt_price := nt_price t; nt_source := nt_source t;
     nt_bookingUrl := nt_bookingUrl t; nt_amenities := nt_amenities t;
     nt_lastUpdated := "" |}.

(** ** Sample data *)

Definition place (code : string) : Place :=
  {| place_code := JStr code; place_name := JStr ""; place_city := JStr "" |}.

(** A direct flight from Athens to Bangkok. *)
Definition ATH_BKK (source : string) (price : Q) (departure lastUpdated : string)
  : NormalizedFlight :=
  {| nf_id := source +:+ "-" +:+ departure;
     nf_segments :=
       [{| seg_from := place "ATH"; seg_to := place "BKK";
           seg_airline := JStr "TG"; seg_flightNumber := JStr "TG917";
           seg_departure := {| datetime := JStr departure; timezone := JStr "UTC" |};
           seg_arrival := {| datetime := JStr ""; timezone := JStr "UTC" |};
           seg_duration := Fin 620; seg_aircraft := JUndefined |}];
     nf_price := {| amount := JQ price; currency := JStr "EUR";
                    originalCurrency := JUndefined; exchangeRate := JUndefined |};
     nf_totalDuration := Fin 620;
     nf_layovers := [];
     nf_source := JStr source;
     nf_bookingUrl := JStr "#";
     nf_baggage := {| included := JBool false; allowance := JUndefined |};
     nf_refundable := JBool false;
     nf_lastUpdated := lastUpdated |}.

Definition hotel_deal (name source : string) (price : Q) : HotelDeal :=
  {| hd_name := name; hd_location := "Bangkok"; hd_price := price;
     hd_currency := "USD"; hd_rating := 4; hd_reviews := 120;
     hd_amenities := ["wifi"]; hd_cancellationPolicy := "Free cancellation";
     specialDeals := []; hd_source := source; hd_url := "https://example.org";
     firstTimeDeal := None; discount := None |}.

Definition grand_palace : list HotelDeal :=
  [hotel_deal "Grand Palace Hotel" "agoda" 150;
   hotel_deal "Grand Palace Hotel" "booking" 120;
   hotel_deal "Grand Palace Hotel" "trip" 100].

Definition hotel_query : BookingQuery :=
  {| q_type := THotel; q_from := None; q_to := "Bangkok";
     q_date := Some "2025-03-01"; q_returnDate := Some "2025-03-05";
     q_passengers := Some (Fin 2); q_flexible := None; q_budget := None |}.

(** One hotel provider answers with a deal, a second one fails. *)
Definition one_hotel_provider : Providers :=
  {| flightSearches := [];
     searchRoute := fun _ _ _ _ => Fulfilled [];
     hotelSearches := [fun _ _ _ _ => Fulfilled [hotel_deal "Grand Palace Hotel" "agoda" 150];
                       fun _ _ _ _ => Rejected (Reason (JStr "503"))];
     experienceSearches := [] |}.

(** The price of a normalized flight whose amount is a finite number. *)
Definition flight_price (f : NormalizedFlight) : Q :=
  match amount (nf_price f) with
  | JNum (Fin q) => q
  | _ => 0
  end.

(** ** The representative as the specification words it

    Least price; among equal prices, earliest [lastUpdated]; among those,
    least source name. *)

Definition number_eqb (a b : number) : bool :=
  match a, b with
  | Fin x, Fin y => Qeq_bool x y
  | PosInf, PosInf | NegInf, NegInf => true
  | _, _ => false
  end.

Definition spec_precedes `{JsRuntime} (a b : NormalizedFlight) : bool :=
  let pa := ToNumber (amount (nf_price a)) in
  let pb := ToNumber (amount (nf_price b)) in
  number_lt pa pb
  || (number_eqb pa pb
      && (String.ltb (nf_lastUpdated a) (nf_lastUpdated b)
          || (String.eqb (nf_lastUpdated a) (nf_lastUpdated b)
              && String.leb (ToString (nf_source a)) (ToString (nf_source b))))).

Definition spec_representative `{JsRuntime} (group : list NormalizedFlight)
    (rep : NormalizedFlight) : Prop :=
  In rep group /\ forall x, In x group -> spec_precedes rep x = true.

(** Two offers for the same flight at the same price; the second one was
    updated earlier. *)
Definition updated_later : NormalizedFlight :=
  ATH_BKK "skyscanner" 480 "2025-03-01T08:00:00Z" "2025-02-20T10:00:05.000Z".

Definition updated_earlier : NormalizedFlight :=
  ATH_BKK "kiwi" 480 "2025-03-01T08:00:00Z" "2025-02-20T10:00:00.000Z".

Definition march_1_at_500 : NormalizedFlight :=
  ATH_BKK "skyscanner" 500 "2025-03-01T08:00:00Z" "2025-02-20T10:00:00.000Z".

Definition march_1_at_480 : NormalizedFlight :=
  ATH_BKK "kiwi" 480 "2025-03-01T21:30:00Z" "2025-02-20T10:00:00.000Z".

Definition march_2_at_520 : NormalizedFlight :=
  ATH_BKK "momondo" 520 "2025-03-02T08:00:00Z" "2025-02-20T10:00:00.000Z".

Definition no_destination : BookingQuery :=
  {| q_type := THotel; q_from := None; q_to := "";
     q_date := None; q_returnDate := None;
     q_passengers := None; q_flexible := None; q_budget := None |}.

Definition flight_from_nowhere : BookingQuery :=
  {| q_type := TFlight; q_from := None; q_to := "Bangkok";
     q_date := Some "2025-03-01"; q_returnDate := None;
     q_passengers := Some (Fin 1); q_flexible := None; q_budget := None |}.

(** A bus connection without a duration. *)
Definition bus_without_duration : JsVal :=
  JObj [("id", JStr "ATH-PAT-0900"); ("from", JStr "Athens"); ("to", JStr "Patras");
        ("operator", JStr "KTEL"); ("price", JQ 22); ("currency", JStr "EUR")].

Definition flight_without_id : JsVal :=
  JObj [("price", JQ 480); ("currency", JStr "EUR"); ("totalDuration", JStr "10h 20m")].


(** ** Orders *)

(** [xs] is in ascending order of [key]: each element is at most every
    element after it. *)
Definition ascending {A} (key : A -> Q) (xs : list A) : Prop :=
  StronglySorted (fun a b => (key a <= key b)%Q) xs.

(** ** Multi-city routes *)

(** The route that [findMultiCityRoutes] builds from the first route of each
    of the two legs. *)
Definition combined_route (r1 r2 : FlightRoute) : FlightRoute :=
  {| fr_segments := fr_segments r1 ++ fr_segments r2;
     totalPrice := double_add (totalPrice r1) (totalPrice r2);
     totalDuration := totalDuration r1;
     layovers := double_add (double_add (layovers r1) (layovers r2)) 1;
     fr_source := "multi-city" |}.

(** [route] is the combination, over the hub, of the first routes that the
    route search finds for the two legs. *)
Definition via_hub (P : Providers) (from to date : string) (passengers : number)
    (hub : string) (route : FlightRoute) : Prop :=
  exists r1 rest1 r2 rest2,
    searchRoute P from hub date passengers = Fulfilled (r1 :: rest1) /\
    searchRoute P hub to date passengers = Fulfilled (r2 :: rest2) /\
    route = combined_route r1 r2.

(** What one hub contributes: the combined route when both legs have a
    route, nothing when a leg fails or finds no route. *)
Definition hub_outcome (P : Providers) (from to date : string) (passengers : number)
    (hub : string) (found : list FlightRoute) : Prop :=
  (exists route, via_hub P from to date passengers hub route /\ found = [route]) \/
  ((forall route, ~ via_hub P from to date passengers hub route) /\ found = []).

(** ** Hotel names *)

(** The key under which [identifyBestDeals] groups a deal. *)
Definition lower_name `{JsRuntime} (d : HotelDeal) : string := toLowerCase (hd_name d).

(** ** A caller's own offer type

    [mergeDuplicates] accepts any element with an [id], a [price.amount] and a
    [source]; a connection that carries its route and departure as top-level
    strings is such an element. *)
Record Connection := {
  cn_id : string;
  cn_from : string;
  cn_to : string;
  cn_departure : string;
  cn_amount : Q;
  cn_source : string
}.

#[export] Instance Connection_Offer : Offer Connection := {
  offer_amount c := JQ (cn_amount c);
  offer_from c := JStr (cn_from c);
  offer_to c := JStr (cn_to c);
  offer_departure c := JStr (cn_departure c)
}.

Definition athens_patras_morning : Connection :=
  {| cn_id := "ktel-1"; cn_from := "Athens"; cn_to := "Patras";
     cn_departure := "2025-03-01T09:00"; cn_amount := 22; cn_source := "ktel" |}.

Definition athens_patras_evening : Connection :=
  {| cn_id := "ktel-2"; cn_from := "Athens"; cn_to := "Patras";
     cn_departure := "2025-03-01T18:00"; cn_amount := 20; cn_source := "ktel" |}.

Definition athens_volos_morning : Connection :=
  {| cn_id := "ose-7"; cn_from := "Athens"; cn_to := "Volos";
     cn_departure := "2025-03-01T09:00"; cn_amount := 31; cn_source := "ose" |}.

(** ** Durations in text *)

(** Some digit of [s] is directly followed by the character [c]. *)
Fixpoint digit_then (c : ascii) (s : string) : bool :=
  match s with
  | String x rest =>
      match rest with
      | String y _ => (is_digit x && Ascii.eqb y c) || digit_then c rest
      | EmptyString => false
      end
  | EmptyString => false
  end.

Fixpoint no_digit (s : string) : bool :=
  match s with
  | String x rest => negb (is_digit x) && no_digit rest
  | EmptyString => true
  end.

(** ** Segments and special offers *)

(** A segment that [normalizeSegments] can read: not null or undefined, with
    a duration that is a number or a string. *)
Definition segment_readable (seg : JsVal) : bool :=
  negb (nullish seg) &&
  match seg.["duration"] with
  | JNum _ | JStr _ => true
  | _ => false
  end.

(** The number of entries of [data.specialDeals]. *)
Definition specialDeals_count (data : JsVal) : nat :=
  match data.["specialDeals"] with
  | JArr items => length items
  | _ => 0
  end.

Definition hotel_with_offers : JsVal :=
  JObj [("name", JStr "Riverside Inn"); ("firstTimeDeal", JBool true);
        ("discount", JQ 15);
        ("specialDeals", JArr [JStr "Free breakfast"; JStr "10% off in May";
                               JStr "First stay: late checkout"])].

(** ** Provider records after normalization *)

(** The place that has no code, no name and no city. *)
Definition nowhere : Place :=
  {| place_code := JStr ""; place_name := JStr ""; place_city := JStr "" |}.

Definition is_flight (x : Raw) : Prop := exists r, x = RawFlight r.

(** The provider has marked the deal as a first-time deal. *)
Definition flagged_first_time (d : HotelDeal) : bool :=
  match firstTimeDeal d with
  | Some true => true
  | _ => false
  end.

Definition says_first `{JsRuntime} (deal : string) : bool :=
  includes (toLowerCase deal) "first".

(** ** Searches and their results *)

(** The query names an origin: [query.from] is a string that is not empty. *)
Definition origin_given (q : BookingQuery) : bool :=
  match q_from q with
  | Some from => negb (String.eqb from "")
  | None => false
  end.

(** A query for buses, trains or ferries. *)
Definition transport_query (q : BookingQuery) : Prop :=
  q_type q = TBus \/ q_type q = TTrain \/ q_type q = TFerry.

(** No search of [P] ever delivers a record: each one fails or resolves with
    an empty list. *)
Definition silent (P : Providers) : Prop :=
  (forall search, In search (flightSearches P) ->
     forall a b c d, quiet (search a b c d) = Fulfilled []) /\
  (forall a b c d, quiet (searchRoute P a b c d) = Fulfilled []) /\
  (forall search, In search (hotelSearches P) ->
     forall a b c d, quiet (search a b c d) = Fulfilled []) /\
  (forall search, In search (experienceSearches P) ->
     forall a b, quiet (search a b) = Fulfilled []).

(** The item of a deal is one of the flights, or one of the hotels. *)
Definition item_among (fs : list NormalizedFlight) (hs : list NormalizedHotel) (d : Deal)
  : Prop :=
  match deal_item d with
  | FlightItem f => In f fs
  | HotelItem h => In h hs
  end.

Definition has_first_time_offer (h : NormalizedHotel) : bool :=
  existsb is_first_time (nh_specialOffers h).

(** The providers of the examples: one flight search that finds two routes,
    one hotel search that finds one hotel, one experience search that finds
    one tour. *)
Definition leg (from to airline number : string) : RouteSegment :=
  {| rs_from := from; rs_to := to; rs_airline := airline; rs_flightNumber := number;
     rs_departure := "2025-03-01T08:00"; rs_arrival := "2025-03-01T19:00";
     rs_duration := "11h 0m"; rs_price := 0; rs_currency := "EUR" |}.

Definition direct_route : FlightRoute :=
  {| fr_segments := [leg "ATH" "BKK" "Aegean" "A3 900"];
     totalPrice := 640; totalDuration := "11h 0m"; layovers := 0;
     fr_source := "skyscanner" |}.

Definition route_over_doha : FlightRoute :=
  {| fr_segments := [leg "ATH" "DOH" "Qatar" "QR 204"; leg "DOH" "BKK" "Qatar" "QR 832"];
     totalPrice := 510; totalDuration := "14h 25m"; layovers := 1;
     fr_source := "kayak" |}.

Definition river_tour : Experience :=
  {| ex_name := "River tour"; ex_location := "Bangkok"; ex_price := 35;
     ex_currency := "EUR"; ex_duration := "3h"; ex_rating := 4; ex_reviews := 120;
     ex_category := "tour"; ex_source := "viator"; ex_url := "https://example.org/tour" |}.

Definition sample_providers : Providers :=
  {| flightSearches := [fun _ _ _ _ => Fulfilled [direct_route; route_over_doha]];
     searchRoute := fun _ _ _ _ => Fulfilled [];
     hotelSearches :=
       [fun _ _ _ _ => Fulfilled [hotel_deal "Riverside Inn" "agoda" 80]];
     experienceSearches := [fun _ _ => Fulfilled [river_tour]] |}.

Definition query_of (type : QueryType) (from : option string) : BookingQuery :=
  {| q_type := type; q_from := from; q_to := "BKK"; q_date := Some "2025-03-01";
     q_returnDate := None; q_passengers := None; q_flexible := None;
     q_budget := None |}.

(** Two offers for one hotel; the dearer one is for new users. *)
Definition new_user_offer : HotelDeal :=
  {| hd_name := "RIVERSIDE INN"; hd_location := "Bangkok"; hd_price := 95;
     hd_currency := "USD"; hd_rating := 4; hd_reviews := 80;
     hd_amenities := []; hd_cancellationPolicy := "Non-refundable";
     specialDeals := ["New user price"]; hd_source := "trip";
     hd_url := "https://example.org"; firstTimeDeal := None; discount := None |}.

Definition riverside : list HotelDeal :=
  [hotel_deal "Riverside Inn" "agoda" 80; new_user_offer].

Definition found_flights : SourceResults :=
  {| sr_flights := [RawFlight route_over_doha; RawFlight direct_route];
     sr_hotels := []; sr_transport := []; sr_experiences := [] |}.

(** ** The calls of [searchAllSources] *)













(** Two flight providers: the first finds two routes, the second fails. *)
Definition one_flight_provider_fails : Providers :=
  {| flightSearches := [fun _ _ _ _ => Fulfilled [direct_route; route_over_doha];
                        fun _ _ _ _ => Rejected (Reason (JStr "timeout"))];
     searchRoute := fun _ _ _ _ => Rejected (Reason (JStr "timeout"));
     hotelSearches := [];
     experienceSearches := [] |}.

(** * Properties *)

(** ** Comparisons of rationals *)

Lemma Qltb_lt (x y : Q) : Qltb x y = true <-> (x < y)%Q.
Proof.
  unfold Qltb. rewrite negb_true_iff. split.
  - intros Hb. apply Qnot_le_lt. intros Hle.
    apply Qle_bool_iff in Hle. congruence.
  - intros Hlt. destruct (Qle_bool y x) eqn:E; [|reflexivity].
    apply Qle_bool_iff in E. exfalso. exact (Qlt_not_le _ _ Hlt E).
Qed.

Lemma Qltb_ge (x y : Q) : Qltb x y = false <-> (y <= x)%Q.
Proof.
  unfold Qltb. rewrite negb_false_iff. apply Qle_bool_iff.
Qed.

(** ** Choosing by [reduce]

    A callback that keeps the best element unless the current one is strictly
    smaller for [price] returns the first of the smallest elements. *)

Section Reduce.
Context {A : Type} (price : A -> Q) (choose : A -> A -> A).

Lemma reduce_first_smallest (first : A) (rest : list A) :
  (forall best current, In best (first :: rest) -> In current (first :: rest) ->
     choose best current = if Qltb (price current) (price best) then current else best) ->
  first_smallest price (first :: rest) (reduce choose first rest).
Proof.
  unfold reduce. induction rest as [|x rest IH] using rev_ind; intros Hchoose.
  - exists [], []. simpl. split; [reflexivity | split; intros ? []].
  - rewrite fold_left_app. simpl.
    destruct IH as (pre & post & Hsplit & Hpre & Hpost).
    { intros b c Hb Hc. apply Hchoose; rewrite app_comm_cons, in_app_iff; auto. }
    set (r := fold_left choose rest first) in *.
    assert (Hr : In r (first :: rest)).
    { rewrite Hsplit, in_app_iff. right. left. reflexivity. }
    rewrite Hchoose.
    2: { rewrite app_comm_cons, in_app_iff. auto. }
    2: { rewrite app_comm_cons, in_app_iff. right. left. reflexivity. }
    destruct (Qltb (price x) (price r)) eqn:E.
    + apply Qltb_lt in E.
      exists (first :: rest), []. split; [|split].
      * reflexivity.
      * intros y Hy. rewrite Hsplit in Hy.
        apply in_app_iff in Hy. destruct Hy as [Hy | [<- | Hy]].
        -- eapply Qlt_trans; [exact E | apply Hpre, Hy].
        -- exact E.
        -- eapply Qlt_le_trans; [exact E | apply Hpost, Hy].
      * intros ? [].
    + apply Qltb_ge in E.
      exists pre, (post ++ [x]). split; [|split].
      * rewrite app_comm_cons, Hsplit, <- app_assoc. reflexivity.
      * exact Hpre.
      * intros y Hy. apply in_app_iff in Hy. destruct Hy as [Hy | [<- | []]].
        -- apply Hpost, Hy.
        -- exact E.
Qed.

Lemma first_smallest_In xs r : first_smallest price xs r -> In r xs.
Proof.
  intros (pre & post & -> & _). rewrite in_app_iff. right. left. reflexivity.
Qed.

End Reduce.

(** ** Grouping by key

    After [group_by], the map has one entry per key that occurs, and the
    entry of a key holds the elements with that key, in their input order. *)

Section Grouping.
Context {T : Type} (keyOf : T -> string).

Lemma group_push_fresh k (x : T) grouped :
  ~ In k (map fst grouped) -> group_push k x grouped = grouped ++ [(k, [x])].
Proof.
  induction grouped as [|[k' g] grouped IH]; simpl; intros Hk; [reflexivity|].
  destruct (String.eqb k' k) eqn:E.
  - apply String.eqb_eq in E. subst k'. exfalso. apply Hk. left. reflexivity.
  - rewrite IH; [reflexivity|]. intros Hin. apply Hk. right. exact Hin.
Qed.

Lemma group_push_present k (x : T) grouped :
  In k (map fst grouped) -> List.NoDup (map fst grouped) ->
  exists before g after,
    grouped = before ++ (k, g) :: after /\
    group_push k x grouped = before ++ (k, g ++ [x]) :: after /\
    ~ In k (map fst before) /\ ~ In k (map fst after).
Proof.
  induction grouped as [|[k' g] grouped IH]; simpl; intros Hin Hnd; [contradiction|].
  apply List.NoDup_cons_iff in Hnd. destruct Hnd as [Hfresh Hnd].
  destruct (String.eqb k' k) eqn:E.
  - apply String.eqb_eq in E. subst k'.
    exists [], g, grouped. simpl. auto.
  - apply String.eqb_neq in E.
    destruct Hin as [Hin | Hin]; [congruence|].
    destruct (IH Hin Hnd) as (before & g0 & after & Hg & Hpush & Hb & Ha).
    exists ((k', g) :: before), g0, after. simpl.
    rewrite Hpush, Hg. repeat split; auto.
    intros [Heq | Hin']; [congruence | exact (Hb Hin')].
Qed.

Lemma filter_snoc (p : T -> bool) xs x :
  List.filter p (xs ++ [x]) = List.filter p xs ++ (if p x then [x] else []).
Proof. rewrite List.filter_app. reflexivity. Qed.

Lemma groups_of_push xs grouped x :
  groups_of keyOf xs grouped ->
  groups_of keyOf (xs ++ [x]) (group_push (keyOf x) x grouped).
Proof.
  intros (Hnd & Hcover & Hall).
  destruct (in_dec string_dec (keyOf x) (map fst grouped)) as [Hin | Hfresh].
  - destruct (group_push_present (keyOf x) x grouped Hin Hnd)
      as (before & g & after & Hg & Hpush & Hb & Ha).
    rewrite Hpush. subst grouped. split; [|split].
    + rewrite map_app in *. exact Hnd.
    + intros y Hy. rewrite map_app. simpl.
      apply in_app_iff in Hy. destruct Hy as [Hy | [<- | []]].
      * specialize (Hcover y Hy). rewrite map_app in Hcover. exact Hcover.
      * apply in_app_iff. right. left. reflexivity.
    + apply List.Forall_app in Hall. destruct Hall as [Hbefore Hrest].
      apply List.Forall_cons_iff in Hrest. destruct Hrest as [[_ Hg] Hafter].
      simpl in Hg.
      assert (Hother : forall part, ~ In (keyOf x) (map fst part) ->
                Forall (fun entry => snd entry <> [] /\
                          snd entry = List.filter (has_key keyOf (fst entry)) xs) part ->
                Forall (fun entry => snd entry <> [] /\
                          snd entry = List.filter (has_key keyOf (fst entry)) (xs ++ [x])) part).
      { intros part Hpart Hforall. apply List.Forall_forall.
        intros [k' g'] Hentry. rewrite List.Forall_forall in Hforall.
        destruct (Hforall _ Hentry) as [Hne Hfilter]. simpl in *.
        split; [exact Hne|]. rewrite filter_snoc. unfold has_key at 2.
        destruct (String.eqb (keyOf x) k') eqn:E.
        - apply String.eqb_eq in E. exfalso. apply Hpart.
          rewrite E. apply (in_map fst _ _ Hentry).
        - rewrite app_nil_r. exact Hfilter. }
      apply List.Forall_app. split; [apply Hother; assumption|].
      apply List.Forall_cons_iff. split; [|apply Hother; assumption].
      simpl. split.
      * intros Hnil. apply app_eq_nil in Hnil. destruct Hnil as [_ Hnil]. discriminate.
      * rewrite filter_snoc. unfold has_key at 2.
        rewrite String.eqb_refl. rewrite <- Hg. reflexivity.
  - rewrite (group_push_fresh _ _ _ Hfresh). split; [|split].
    + rewrite map_app. simpl. apply List.NoDup_app.
      * exact Hnd.
      * apply List.NoDup_cons; [intros [] | apply List.NoDup_nil].
      * intros k Hk [<- | []]. exact (Hfresh Hk).
    + intros y Hy. rewrite map_app, in_app_iff. simpl.
      apply in_app_iff in Hy. destruct Hy as [Hy | [<- | []]]; auto.
    + apply List.Forall_app. split.
      * apply List.Forall_forall. intros [k' g'] Hentry.
        rewrite List.Forall_forall in Hall.
        destruct (Hall _ Hentry) as [Hne Hfilter]. simpl in *.
        split; [exact Hne|]. rewrite filter_snoc. unfold has_key at 2.
        destruct (String.eqb (keyOf x) k') eqn:E.
        -- apply String.eqb_eq in E. exfalso. apply Hfresh.
           rewrite E. apply (in_map fst _ _ Hentry).
        -- rewrite app_nil_r. exact Hfilter.
      * apply List.Forall_cons; [|apply List.Forall_nil]. simpl.
        split; [discriminate|]. rewrite filter_snoc. unfold has_key at 2.
        rewrite String.eqb_refl.
        assert (Hnone : List.filter (has_key keyOf (keyOf x)) xs = []).
        { destruct (List.filter (has_key keyOf (keyOf x)) xs) as [|y ys] eqn:E; [reflexivity|].
          assert (Hy : In y (List.filter (has_key keyOf (keyOf x)) xs)) by (rewrite E; left; reflexivity).
          apply filter_In in Hy. destruct Hy as [Hy Hkey].
          unfold has_key in Hkey. apply String.eqb_eq in Hkey.
          exfalso. apply Hfresh. rewrite <- Hkey. apply Hcover, Hy. }
        rewrite Hnone. reflexivity.
Qed.

Lemma group_by_snoc xs x :
  group_by keyOf (xs ++ [x]) = group_push (keyOf x) x (group_by keyOf xs).
Proof. unfold group_by. rewrite fold_left_app. reflexivity. Qed.

Lemma group_by_groups_of xs : groups_of keyOf xs (group_by keyOf xs).
Proof.
  induction xs as [|x xs IH] using rev_ind.
  - split; [apply List.NoDup_nil|]. split; [intros ? []|apply List.Forall_nil].
  - rewrite group_by_snoc. apply groups_of_push, IH.
Qed.

(** A list without two elements of the same key is grouped into
    singletons, in its own order. *)
Lemma group_by_distinct xs :
  List.NoDup (map keyOf xs) ->
  group_by keyOf xs = map (fun x => (keyOf x, [x])) xs.
Proof.
  induction xs as [|x xs IH] using rev_ind; intros Hnd; [reflexivity|].
  rewrite map_app in Hnd. simpl in Hnd. apply List.NoDup_remove in Hnd.
  rewrite app_nil_r in Hnd. destruct Hnd as [Hxs Hfresh].
  rewrite group_by_snoc, IH by exact Hxs.
  rewrite group_push_fresh.
  - rewrite map_app. reflexivity.
  - rewrite map_map. simpl. exact Hfresh.
Qed.
End Grouping.

(** ** mergeDuplicates *)

Lemma reduce_In {A} (choose : A -> A -> A) (first : A) (rest : list A) :
  (forall a b, choose a b = a \/ choose a b = b) ->
  In (reduce choose first rest) (first :: rest).
Proof.
  intros Hchoose. unfold reduce.
  induction rest as [|x rest IH] using rev_ind; [left; reflexivity|].
  rewrite fold_left_app. cbn [fold_left].
  destruct (Hchoose (fold_left choose rest first) x) as [-> | ->].
  - rewrite app_comm_cons. apply in_app_iff. left. exact IH.
  - rewrite app_comm_cons. apply in_app_iff. right. left. reflexivity.
Qed.

Section MergeProperties.
Context `{JsRuntime} {T : Type} `{Offer T}.

Lemma js_lt_finite (a b : Q) : js_lt (JQ a) (JQ b) = Qltb a b.
Proof. reflexivity. Qed.

Lemma cheaper_either (best current : T) :
  cheaper best current = best \/ cheaper best current = current.
Proof. unfold cheaper. destruct (js_lt _ _); auto. Qed.

Lemma merge_group_reduce (first : T) (rest : list T) :
  merge_group (first :: rest) = [reduce cheaper first rest].
Proof. destruct rest; reflexivity. Qed.

Lemma merge_group_member (group : list T) :
  group <> [] -> exists rep, merge_group group = [rep] /\ In rep group.
Proof.
  destruct group as [|first rest]; [congruence|]. intros _.
  exists (reduce cheaper first rest). split; [apply merge_group_reduce|].
  apply reduce_In. intros a b. destruct (cheaper_either a b); auto.
Qed.

Lemma filter_has_key (k : string) (xs : list T) (x : T) :
  In x (List.filter (has_key generateMergeKey k) xs) -> generateMergeKey x = k.
Proof.
  intros Hx. apply filter_In in Hx. destruct Hx as [_ Hk].
  apply String.eqb_eq. exact Hk.
Qed.

(** The keys of the merged offers are the keys of the map, in order. *)
Lemma mergeDuplicates_keys (results : list T) :
  map generateMergeKey (mergeDuplicates results)
  = map fst (group_by generateMergeKey results).
Proof.
  unfold mergeDuplicates.
  destruct (group_by_groups_of generateMergeKey results) as (_ & _ & Hall).
  induction Hall as [|[k g] grouped [Hne Hfilter] _ IH]; [reflexivity|].
  simpl in *. destruct (merge_group_member g Hne) as (rep & -> & Hrep).
  simpl. rewrite IH. f_equal.
  rewrite Hfilter in Hrep. exact (filter_has_key _ _ _ Hrep).
Qed.

Lemma mergeDuplicates_distinct (results : list T) :
  List.NoDup (map generateMergeKey results) -> mergeDuplicates results = results.
Proof.
  intros Hnd. unfold mergeDuplicates. rewrite (group_by_distinct _ _ Hnd).
  clear Hnd. induction results as [|x xs IH]; [reflexivity|].
  simpl. f_equal. exact IH.
Qed.

(** C7: merging is idempotent: merging the output of a merge gives that
    output again, element for element and in the same order. *)
Theorem mergeDuplicates_idempotent (results : list T) :
  mergeDuplicates (mergeDuplicates results) = mergeDuplicates results.
Proof.
  apply mergeDuplicates_distinct.
  rewrite mergeDuplicates_keys.
  apply (group_by_groups_of generateMergeKey results).
Qed.

(** C4 (amended): when the amounts are finite numbers, every offer of the
    input has its group represented in the output by a member of the group
    with the least price, and among the members with that price by the
    first one in input order. *)
Theorem mergeDuplicates_representative (price : T -> Q) (results : list T) (x : T) :
  (forall y, In y results -> offer_amount y = JQ (price y)) ->
  In x results ->
  exists rep,
    In rep (mergeDuplicates results) /\
    generateMergeKey rep = generateMergeKey x /\
    first_smallest price (merge_group_of results x) rep.
Proof.
  intros Hprice Hx.
  destruct (group_by_groups_of generateMergeKey results) as (_ & Hcover & Hall).
  specialize (Hcover x Hx). apply in_map_iff in Hcover.
  destruct Hcover as ([k g] & Hk & Hentry). simpl in Hk. subst k.
  rewrite List.Forall_forall in Hall.
  destruct (Hall _ Hentry) as [Hne Hfilter]. simpl in Hne, Hfilter.
  destruct g as [|first rest]; [congruence|].
  assert (Hsmallest : first_smallest price (first :: rest) (reduce cheaper first rest)).
  { apply reduce_first_smallest. intros best current Hb Hc.
    unfold cheaper. rewrite Hfilter in Hb, Hc.
    apply filter_In in Hb, Hc.
    rewrite (Hprice best), (Hprice current) by tauto.
    apply f_equal with (f := fun b : bool => if b then current else best).
    apply js_lt_finite. }
  exists (reduce cheaper first rest). split; [|split].
  - unfold mergeDuplicates. apply in_flat_map.
    exists (generateMergeKey x, first :: rest). split; [exact Hentry|].
    simpl snd. rewrite merge_group_reduce. left. reflexivity.
  - apply (filter_has_key _ results). rewrite <- Hfilter.
    exact (first_smallest_In _ _ _ Hsmallest).
  - unfold merge_group_of. rewrite <- Hfilter. exact Hsmallest.
Qed.
End MergeProperties.

(** ** identifyBestDeals *)

Lemma sort_insert_In {A} (key : A -> Q) (x y : A) (sorted : list A) :
  In y (sort_insert key x sorted) <-> y = x \/ In y sorted.
Proof.
  induction sorted as [|z sorted IH]; simpl.
  - split; intros [-> | []]; auto.
  - destruct (Qle_bool (key x) (key z)); simpl; [intuition congruence|].
    rewrite IH. intuition congruence.
Qed.

Lemma sort_by_In {A} (key : A -> Q) (y : A) (xs : list A) :
  In y (sort_by key xs) <-> In y xs.
Proof.
  induction xs as [|x xs IH]; simpl; [tauto|].
  rewrite sort_insert_In, IH. intuition congruence.
Qed.

Lemma max2_finite (a q : Q) :
  exists m, max2 (Fin a) (Fin q) = Fin m /\ (m = a \/ m = q) /\ (a <= m)%Q /\ (q <= m)%Q.
Proof.
  unfold max2, number_lt. destruct (Qltb a q) eqn:E.
  - apply Qltb_lt in E. exists q. repeat split; auto using Qle_refl, Qlt_le_weak.
  - apply Qltb_ge in E. exists a. repeat split; auto using Qle_refl.
Qed.

Lemma fold_max2_finite (qs : list Q) (a : Q) :
  exists m, fold_left max2 (map Fin qs) (Fin a) = Fin m /\
            In m (a :: qs) /\ forall q, In q (a :: qs) -> (q <= m)%Q.
Proof.
  revert a. induction qs as [|q qs IH]; intros a; cbn [map fold_left].
  - exists a. split; [reflexivity|]. split; [left; reflexivity|].
    intros q [<- | []]. apply Qle_refl.
  - destruct (max2_finite a q) as (a' & -> & Ha' & Hle1 & Hle2).
    destruct (IH a') as (m & -> & Hin & Hmax).
    exists m. split; [reflexivity|]. split.
    + destruct Hin as [<- | Hin]; [|right; right; exact Hin].
      destruct Ha' as [-> | ->]; [left | right; left]; reflexivity.
    + assert (Ha'm : (a' <= m)%Q) by (apply Hmax; left; reflexivity).
      intros x [<- | [<- | Hx]].
      * eapply Qle_trans; eassumption.
      * eapply Qle_trans; eassumption.
      * apply Hmax. right. exact Hx.
Qed.

Lemma Math_max_finite (q : Q) (qs : list Q) :
  exists m, Math_max (map Fin (q :: qs)) = Fin m /\
            In m (q :: qs) /\ forall x, In x (q :: qs) -> (x <= m)%Q.
Proof. unfold Math_max. cbn [map fold_left]. apply fold_max2_finite. Qed.

(** ** Rounding to a double *)

Lemma round_half_even_floor (y : Q) :
  (Qfloor y <= round_half_even y <= Qfloor y + 1)%Z.
Proof.
  unfold round_half_even. destruct (Qcompare _ _); [destruct (Z.even _)| |]; lia.
Qed.

Lemma round_half_even_le (y : Q) (K : Z) :
  (y <= inject_Z K)%Q -> (round_half_even y <= K)%Z.
Proof.
  intros Hy. pose proof (Qfloor_resp_le _ _ Hy) as Hfloor. rewrite Qfloor_Z in Hfloor.
  destruct (Z.eq_dec (Qfloor y) K) as [Heq | Hne].
  - unfold round_half_even. rewrite Heq.
    assert (Hlt : (y - inject_Z K < 1 # 2)%Q).
    { apply Qle_lt_trans with (y := 0%Q); [|reflexivity].
      apply (Qplus_le_l _ _ (inject_Z K)). ring_simplify. exact Hy. }
    assert (Hcompare : Qcompare (y - inject_Z K) (1 # 2) = Lt)
      by (apply Qlt_alt; exact Hlt).
    rewrite Hcompare. lia.
  - pose proof (round_half_even_floor y). lia.
Qed.

Lemma round_half_even_nonneg (y : Q) : (0 <= y)%Q -> (0 <= round_half_even y)%Z.
Proof.
  intros Hy. pose proof (Qfloor_resp_le _ _ Hy) as Hfloor.
  change (Qfloor 0) with 0%Z in Hfloor.
  pose proof (round_half_even_floor y). lia.
Qed.

Lemma last_place_mono (x b : Q) : (x <= b)%Q -> (last_place x <= last_place b)%Z.
Proof.
  intros Hxb. unfold last_place.
  assert (Hfloor : (Qfloor (x * inject_Z (Z.pow 2 1074))
                    <= Qfloor (b * inject_Z (Z.pow 2 1074)))%Z).
  { apply Qfloor_resp_le. apply Qmult_le_compat_r; [exact Hxb|].
    change 0%Q with (inject_Z 0). rewrite <- Zle_Qle. apply Z.pow_nonneg. lia. }
  pose proof (Z.log2_le_mono _ _ Hfloor). lia.
Qed.

Lemma pow2_pos (e : Z) : (0 < pow2 e)%Q.
Proof. apply Qpower_0_lt. reflexivity. Qed.

Lemma pow2_add (a b : Z) : (pow2 (a + b) == pow2 a * pow2 b)%Q.
Proof. apply Qpower_plus. discriminate. Qed.

Lemma pow2_inverse (t : Z) : (pow2 (- t) * pow2 t == 1)%Q.
Proof. rewrite <- pow2_add. replace (- t + t)%Z with 0%Z by lia. reflexivity. Qed.

Lemma pow2_Z (k : Z) : (0 <= k)%Z -> (pow2 k == inject_Z (Z.pow 2 k))%Q.
Proof. intros Hk. unfold pow2. rewrite (Zpower_Qpower 2 k Hk). reflexivity. Qed.

Lemma round_magnitude_nonneg (x : Q) : (0 <= x)%Q -> (0 <= round_magnitude x)%Q.
Proof.
  intros Hx. unfold round_magnitude. rewrite Qred_correct.
  apply Qmult_le_0_compat; [|apply Qlt_le_weak, pow2_pos].
  change 0%Q with (inject_Z 0). rewrite <- Zle_Qle.
  apply round_half_even_nonneg. apply Qmult_le_0_compat; [exact Hx|].
  apply Qlt_le_weak, pow2_pos.
Qed.

(** A number that rounding leaves alone bounds the rounding of everything
    below it. *)
Lemma round_magnitude_le (x b : Q) :
  (x <= b)%Q -> (round_magnitude b == b)%Q -> (round_magnitude x <= b)%Q.
Proof.
  intros Hxb Hb. pose proof (last_place_mono x b Hxb) as Hplace.
  unfold round_magnitude in *. rewrite Qred_correct in *.
  set (t := last_place x) in *. set (t' := last_place b) in *.
  set (m' := round_half_even (b * pow2 (- t'))) in *.
  assert (Hscaled : (b * pow2 (- t) == inject_Z (m' * Z.pow 2 (t' - t)))%Q).
  { rewrite <- Hb at 1. rewrite inject_Z_mult, <- pow2_Z by lia.
    replace (t' - t)%Z with (t' + - t)%Z by lia. rewrite pow2_add. ring. }
  assert (Hround : (round_half_even (x * pow2 (- t)) <= m' * Z.pow 2 (t' - t))%Z).
  { apply round_half_even_le. rewrite <- Hscaled.
    apply Qmult_le_compat_r; [exact Hxb | apply Qlt_le_weak, pow2_pos]. }
  apply Qle_trans with (y := (inject_Z (m' * Z.pow 2 (t' - t)) * pow2 t)%Q).
  - apply Qmult_le_compat_r; [|apply Qlt_le_weak, pow2_pos].
    rewrite <- Zle_Qle. exact Hround.
  - rewrite <- Hscaled, <- Qmult_assoc, pow2_inverse, Qmult_1_r. apply Qle_refl.
Qed.

Lemma is_double_spec (b : Q) :
  (0 <= b)%Q -> is_double b = true ->
  (round_magnitude b == b)%Q /\ (b < pow2 1024)%Q.
Proof.
  intros Hb. unfold is_double, round_double, round_finite.
  apply Qle_bool_iff in Hb. rewrite Hb.
  destruct (Qle_bool (pow2 1024) (round_magnitude b)) eqn:Hover; [discriminate|].
  destruct (Qle_bool (round_magnitude b) (- pow2 1024)); [discriminate|].
  intros Heq. apply Qeq_bool_iff in Heq. split; [exact Heq|].
  apply Qnot_le_lt. intros Hle. rewrite <- Heq in Hle.
  apply Qle_bool_iff in Hle. congruence.
Qed.

(** Rounding keeps a number between 0 and a double above it. *)
Lemma round_double_between (x b : Q) :
  (0 <= x)%Q -> (x <= b)%Q -> is_double b = true ->
  exists y, round_double x = Fin y /\ (0 <= y)%Q /\ (y <= b)%Q.
Proof.
  intros Hx Hxb Hb.
  destruct (is_double_spec b (Qle_trans _ _ _ Hx Hxb) Hb) as [Hfixed Hfinite].
  pose proof (round_magnitude_nonneg x Hx) as Hnonneg.
  pose proof (round_magnitude_le x b Hxb Hfixed) as Hle.
  exists (round_magnitude x). split; [|split; assumption].
  unfold round_double, round_finite. apply Qle_bool_iff in Hx. rewrite Hx.
  destruct (Qle_bool (pow2 1024) (round_magnitude x)) eqn:Hover.
  { apply Qle_bool_iff in Hover. exfalso.
    apply (Qlt_not_le _ _ Hfinite). eapply Qle_trans; eassumption. }
  destruct (Qle_bool (round_magnitude x) (- pow2 1024)) eqn:Hunder; [|reflexivity].
  apply Qle_bool_iff in Hunder. exfalso.
  assert (Hneg : (- pow2 1024 < 0)%Q).
  { change 0%Q with (- 0)%Q. apply Qopp_lt_compat, pow2_pos. }
  apply (Qlt_not_le _ _ Hneg). eapply Qle_trans; eassumption.
Qed.

Lemma Math_round_between (x : Q) (lo hi : Z) :
  (inject_Z lo <= x)%Q -> (x <= inject_Z hi)%Q ->
  exists z, Math_round (Fin x) = num_of_Z z /\ (lo <= z <= hi)%Z.
Proof.
  intros Hlo Hhi. eexists. split; [reflexivity|]. split.
  - rewrite <- (Qfloor_Z lo). apply Qfloor_resp_le.
    apply Qle_trans with (y := x); [exact Hlo|].
    rewrite <- (Qplus_0_r x) at 1. apply Qplus_le_compat; [apply Qle_refl | discriminate].
  - apply Z.lt_succ_r. rewrite Zlt_Qlt.
    apply Qle_lt_trans with (y := (x + (1 # 2))%Q); [apply Qfloor_le|].
    apply Qle_lt_trans with (y := (inject_Z hi + (1 # 2))%Q).
    + apply Qplus_le_compat; [exact Hhi | apply Qle_refl].
    + unfold Z.succ. rewrite inject_Z_plus.
      apply Qplus_lt_r. reflexivity.
Qed.

(** The percentage, for a positive maximum that is a double and a cheapest
    price between zero and that maximum. *)
Lemma discount_percent_bounds (maxPrice cheapestPrice : Q) :
  (0 < maxPrice)%Q -> (0 <= cheapestPrice)%Q -> (cheapestPrice <= maxPrice)%Q ->
  is_double maxPrice = true ->
  exists percent : Z,
    discount_percent (Fin maxPrice) cheapestPrice = num_of_Z percent /\
    (0 <= percent <= 100)%Z.
Proof.
  intros Hpos Hnonneg Hle Hdouble.
  unfold discount_percent, number_sub, number_neg, number_add.
  destruct (round_double_between (maxPrice + - cheapestPrice) maxPrice)
    as (difference & -> & Hd0 & Hd1); [| |exact Hdouble|].
  { rewrite <- Qle_minus_iff. exact Hle. }
  { rewrite <- (Qplus_0_r maxPrice) at 2.
    apply Qplus_le_compat; [apply Qle_refl|].
    change 0%Q with (- 0)%Q. apply Qopp_le_compat. exact Hnonneg. }
  unfold number_div.
  destruct (Qeq_bool maxPrice 0) eqn:E.
  { apply Qeq_bool_iff in E. rewrite E in Hpos. exfalso. exact (Qlt_irrefl _ Hpos). }
  destruct (round_double_between (difference / maxPrice) 1)
    as (ratio & -> & Hr0 & Hr1); [| |reflexivity|].
  { apply Qle_shift_div_l; [exact Hpos|]. rewrite Qmult_0_l. exact Hd0. }
  { apply Qle_shift_div_r; [exact Hpos|]. rewrite Qmult_1_l. exact Hd1. }
  unfold number_mul.
  destruct (round_double_between (ratio * 100) 100)
    as (scaled & -> & Hs0 & Hs1); [| |reflexivity|].
  { apply Qmult_le_0_compat; [exact Hr0 | discriminate]. }
  { rewrite <- (Qmult_1_l 100) at 2. apply Qmult_le_compat_r; [exact Hr1 | discriminate]. }
  apply (Math_round_between scaled 0 100); assumption.
Qed.

Lemma cheaper_deal_first_smallest (first : HotelDeal) (rest : list HotelDeal) :
  first_smallest hd_price (first :: rest) (reduce cheaper_deal first rest).
Proof. apply reduce_first_smallest. reflexivity. Qed.

Lemma identifyBestDeals_group `{JsRuntime} (deals : list HotelDeal) (d : HotelDeal) :
  In d deals ->
  exists first rest rep,
    hotel_group_of deals d = first :: rest /\
    best_of_hotel (first :: rest) = [rep] /\
    In rep (identifyBestDeals deals).
Proof.
  intros Hd. unfold hotel_group_of.
  set (keyOf := fun deal => toLowerCase (hd_name deal)).
  destruct (group_by_groups_of keyOf deals) as (_ & Hcover & Hall).
  specialize (Hcover d Hd). apply in_map_iff in Hcover.
  destruct Hcover as ([k g] & Hk & Hentry). simpl in Hk. subst k.
  rewrite List.Forall_forall in Hall.
  destruct (Hall _ Hentry) as [Hne Hfilter]. simpl in Hne, Hfilter.
  change (toLowerCase (hd_name d)) with (keyOf d). rewrite <- Hfilter.
  destruct g as [|first rest]; [congruence|].
  exists first, rest. eexists. split; [reflexivity|]. split; [reflexivity|].
  unfold identifyBestDeals. apply sort_by_In. apply in_flat_map.
  exists (keyOf d, first :: rest). split; [exact Hentry|].
  left. reflexivity.
Qed.

(** C6 (amended): in a group of more than one deal, with prices that are
    doubles, not negative and not all zero, the discount of the
    representative is Math.round(((maxPrice - minPrice) / maxPrice) * 100)
    as computed in doubles, a whole number between 0 and 100; in a group of
    one deal no discount is computed. *)
Theorem identifyBestDeals_discount `{JsRuntime} (deals : list HotelDeal) (d : HotelDeal) :
  In d deals ->
  let group := hotel_group_of deals d in
  exists rep cheapest,
    In rep (identifyBestDeals deals) /\
    marked_copy rep cheapest /\
    first_smallest hd_price group cheapest /\
    (length group = 1%nat -> discount rep = discount cheapest) /\
    ((1 < length group)%nat ->
     (forall x, In x group -> is_double (hd_price x) = true /\ (0 <= hd_price x)%Q) ->
     (exists x, In x group /\ (0 < hd_price x)%Q) ->
     exists maxPrice percent,
       In maxPrice (map hd_price group) /\
       (forall x, In x group -> (hd_price x <= maxPrice)%Q) /\
       discount rep = Some (discount_percent (Fin maxPrice) (hd_price rep)) /\
       discount rep = Some (num_of_Z percent) /\ (0 <= percent <= 100)%Z).
Proof.
  intros Hd group.
  destruct (identifyBestDeals_group deals d Hd) as (first & rest & rep & Hgroup & Hbest & Hrep).
  fold group in Hgroup. rewrite Hgroup. clear Hgroup group.
  pose proof (cheaper_deal_first_smallest first rest) as Hsmallest.
  exists rep, (reduce cheaper_deal first rest).
  unfold best_of_hotel in Hbest. injection Hbest as <-.
  split; [exact Hrep|]. split; [repeat split|]. split; [exact Hsmallest|].
  cbn [discount]. split.
  - intros Hlen. cbn [length] in Hlen. rewrite Hlen. reflexivity.
  - intros Hlen Hprices (x & Hx & Hxpos).
    cbn [length] in Hlen. apply Nat.ltb_lt in Hlen. rewrite Hlen. cbn [hd_price].
    change (Fin (hd_price first) :: map (fun d0 => Fin (hd_price d0)) rest)
      with (map (fun d0 => Fin (hd_price d0)) (first :: rest)).
    rewrite <- (map_map hd_price Fin).
    destruct (Math_max_finite (hd_price first) (map hd_price rest))
      as (maxPrice & Hmax & Hin & Hle).
    change (hd_price first :: map hd_price rest) with (map hd_price (first :: rest)) in *.
    rewrite Hmax.
    assert (Hle' : forall y, In y (first :: rest) -> (hd_price y <= maxPrice)%Q).
    { intros y Hy. apply Hle. apply in_map. exact Hy. }
    pose proof (first_smallest_In _ _ _ Hsmallest) as Hmember.
    destruct (discount_percent_bounds maxPrice (hd_price (reduce cheaper_deal first rest)))
      as (percent & Heq & Hbounds).
    + eapply Qlt_le_trans; [exact Hxpos | apply Hle', Hx].
    + apply Hprices, Hmember.
    + apply Hle', Hmember.
    + apply in_map_iff in Hin. destruct Hin as (y & <- & Hy). apply Hprices, Hy.
    + exists maxPrice, percent. split; [exact Hin|]. split; [exact Hle'|].
      split; [reflexivity|]. rewrite Heq. split; [reflexivity | exact Hbounds].
Qed.

(** ** Durations *)

Lemma digits_prefix_run (ds : string) (x : ascii) (rest : string) :
  all_digits ds = true -> is_digit x = false ->
  digits_prefix (ds +:+ String x rest) = (ds, String x rest).
Proof.
  intros Hds Hx. induction ds as [|d ds IH]; simpl.
  - rewrite Hx. reflexivity.
  - simpl in Hds. apply andb_true_iff in Hds. destruct Hds as [Hd Hds].
    rewrite Hd, (IH Hds). reflexivity.
Qed.

Lemma match_digits_here_run (c : ascii) (ds : string) (x : ascii) (rest : string) :
  all_digits ds = true -> is_digit x = false ->
  match_digits_here c (ds +:+ String x rest)
  = match ds with
    | EmptyString => None
    | _ => if Ascii.eqb x c then Some ds else None
    end.
Proof.
  intros Hds Hx. unfold match_digits_here.
  rewrite (digits_prefix_run ds x rest Hds Hx). destruct ds; reflexivity.
Qed.

(** A run of digits that the letter follows is the match. *)
Lemma match_digits_before_hit (c : ascii) (d : ascii) (ds rest : string) :
  all_digits (String d ds) = true -> is_digit c = false ->
  match_digits_before c (String d ds +:+ String c rest) = Some (String d ds).
Proof.
  intros Hds Hc.
  change (String d ds +:+ String c rest) with (String d (ds +:+ String c rest)).
  cbn [match_digits_before].
  change (String d (ds +:+ String c rest)) with (String d ds +:+ String c rest).
  rewrite (match_digits_here_run c _ c rest Hds Hc), Ascii.eqb_refl. reflexivity.
Qed.

(** A run of digits that another character follows is passed over. *)
Lemma match_digits_before_skip (c : ascii) (ds : string) (x : ascii) (rest : string) :
  all_digits ds = true -> is_digit x = false -> Ascii.eqb x c = false ->
  match_digits_before c (ds +:+ String x rest) = match_digits_before c rest.
Proof.
  intros Hds Hx Hxc. induction ds as [|d ds IH].
  - change ("" +:+ String x rest) with (String x rest).
    cbn [match_digits_before]. unfold match_digits_here.
    cbn [digits_prefix]. rewrite Hx. reflexivity.
  - pose proof Hds as Hds'. simpl in Hds'. apply andb_true_iff in Hds'.
    change (String d ds +:+ String x rest) with (String d (ds +:+ String x rest)).
    cbn [match_digits_before].
    change (String d (ds +:+ String x rest)) with (String d ds +:+ String x rest).
    rewrite (match_digits_here_run c _ x rest Hds Hx), Hxc.
    apply IH. tauto.
Qed.

(** A duration written as hours and minutes, ["2h 30m"]: sixty times the
    hours plus the minutes. *)
Lemma parseDuration_hours_minutes `{JsRuntime} {S} (h0 m0 : ascii) (hs ms : string) (s : S) :
  all_digits (String h0 hs) = true -> all_digits (String m0 ms) = true ->
  parseDuration (JStr (String h0 hs +:+ "h " +:+ String m0 ms +:+ "m")) s
  = (Fulfilled (num_of_Z (parseInt_digits (String h0 hs) * 60
                          + parseInt_digits (String m0 ms))), s).
Proof.
  intros Hh Hm. unfold parseDuration, ret.
  change (String h0 hs +:+ "h " +:+ String m0 ms +:+ "m")
    with (String h0 hs +:+ String "h" (String " " (String m0 ms +:+ String "m" ""))).
  rewrite (match_digits_before_hit "h" h0 hs _ Hh eq_refl).
  rewrite (match_digits_before_skip "m" (String h0 hs) "h" _ Hh eq_refl eq_refl).
  assert (Hspace : forall rest,
             match_digits_before "m" (String " " rest) = match_digits_before "m" rest)
    by reflexivity.
  rewrite Hspace.
  rewrite (match_digits_before_hit "m" m0 ms "" Hm eq_refl).
  reflexivity.
Qed.

(** ** Computations that do not throw *)

Lemma returns_ret {S A} (a : A) : returns (S := S) (ret a) a.
Proof. intros s. reflexivity. Qed.

Lemma returns_bind {S A B} (m : M S A) (k : A -> M S B) a b :
  returns m a -> returns (k a) b -> returns (bind m k) b.
Proof. intros Hm Hk s. unfold bind. rewrite Hm. apply Hk. Qed.

Lemma returns_succeeds {S A} (m : M S A) a : returns m a -> succeeds m.
Proof. intros Hm s. exists a, s. apply Hm. Qed.

Lemma succeeds_ret {S A} (a : A) : succeeds (S := S) (ret a).
Proof. intros s. exists a, s. reflexivity. Qed.

Lemma succeeds_bind {S A B} (m : M S A) (k : A -> M S B) :
  succeeds m -> (forall a, succeeds (k a)) -> succeeds (bind m k).
Proof.
  intros Hm Hk s. unfold bind.
  destruct (Hm s) as (a & s' & ->). apply Hk.
Qed.

Lemma succeeds_after {S A B} (m : M S A) (k : A -> M S B) a :
  returns m a -> succeeds (k a) -> succeeds (bind m k).
Proof. intros Hm Hk s. unfold bind. rewrite Hm. apply Hk. Qed.

Lemma returns_mapM {S A B} (f : A -> M S B) (xs : list A) :
  (forall x, In x xs -> exists y, returns (f x) y) ->
  exists ys, returns (mapM f xs) ys.
Proof.
  induction xs as [|x xs IH]; intros Hf.
  - exists []. apply returns_ret.
  - destruct (Hf x) as [y Hy]; [left; reflexivity|].
    destruct IH as [ys Hys]; [intros z Hz; apply Hf; right; exact Hz|].
    exists (y :: ys). simpl.
    eapply returns_bind; [exact Hy|].
    eapply returns_bind; [exact Hys|]. apply returns_ret.
Qed.

Lemma succeeds_mapM {S A B} (f : A -> M S B) (xs : list A) :
  (forall x, In x xs -> succeeds (f x)) -> succeeds (mapM f xs).
Proof.
  induction xs as [|x xs IH]; intros Hf; simpl.
  - apply succeeds_ret.
  - apply succeeds_bind; [apply Hf; left; reflexivity|]. intros y.
    apply succeeds_bind; [apply IH; intros z Hz; apply Hf; right; exact Hz|].
    intros ys. apply succeeds_ret.
Qed.

Lemma succeeds_in_world {A} (m : M World A) : succeeds m -> succeeds (in_world m).
Proof.
  intros Hm a. unfold in_world.
  destruct (Hm (world a)) as (r & w & ->). eauto.
Qed.

(** *** The provider searches never throw *)

Section SearchesReturn.
Context `{JsRuntime} (P : Providers) {S : Type}.

Lemma multi_city_hub_returns from to date passengers hub :
  exists found : list FlightRoute,
    returns (S := S)
      (try_catch
         (route1 <- await (searchRoute P from hub date passengers) ;;
          route2 <- await (searchRoute P hub to date passengers) ;;
          match route1, route2 with
          | r1 :: _, r2 :: _ =>
              ret [{| fr_segments := fr_segments r1 ++ fr_segments r2;
                      totalPrice := double_add (totalPrice r1) (totalPrice r2);
                      totalDuration := addDurations (totalDuration r1) (totalDuration r2);
                      layovers := double_add (double_add (layovers r1) (layovers r2)) 1;
                      fr_source := "multi-city" |}]
          | _, _ => ret []
          end)
         (fun _error => ret [])) found.
Proof.
  unfold returns, try_catch, bind, await, ret.
  destruct (searchRoute P from hub date passengers) as [[|r1 ?]|?];
    destruct (searchRoute P hub to date passengers) as [[|r2 ?]|?]; eauto.
Qed.

Lemma findMultiCityRoutes_returns from to date passengers :
  exists routes, returns (S := S) (findMultiCityRoutes P from to date passengers) routes.
Proof.
  unfold findMultiCityRoutes.
  match goal with
  | |- context [mapM ?f ?xs] =>
      destruct (returns_mapM (S := S) f xs) as [found Hfound];
        [intros hub _; apply (multi_city_hub_returns from to date passengers hub)|]
  end.
  exists (concat found).
  eapply returns_bind; [exact Hfound|]. apply returns_ret.
Qed.

Lemma searchFlights_returns from to date passengers flexible :
  exists routes,
    returns (S := S) (searchFlights P from to date passengers flexible) routes.
Proof.
  unfold searchFlights, Promise_allSettled.
  destruct flexible.
  - destruct (findMultiCityRoutes_returns from to date passengers) as [multi Hmulti].
    eexists. eapply returns_bind; [apply returns_ret|].
    eapply returns_bind; [exact Hmulti|]. apply returns_ret.
  - eexists. eapply returns_bind; [apply returns_ret|].
    eapply returns_bind; apply returns_ret.
Qed.

Lemma searchHotels_returns location checkIn checkOut guests :
  exists deals, returns (S := S) (searchHotels P location checkIn checkOut guests) deals.
Proof.
  eexists. unfold searchHotels, Promise_allSettled.
  eapply returns_bind; apply returns_ret.
Qed.

Lemma searchExperiences_returns location date :
  exists experiences,
    returns (S := S) (searchExperiences P location date) experiences.
Proof.
  eexists. unfold searchExperiences, Promise_allSettled.
  eapply returns_bind; apply returns_ret.
Qed.
End SearchesReturn.

(** *** searchAllSources *)

Ltac name_searches S :=
  repeat match goal with
    | |- context [searchFlights ?P ?a ?b ?c ?d ?e] =>
        let v := fresh "routes" in
        let Hv := fresh "Hroutes" in
        destruct (searchFlights_returns P (S := S) a b c d e) as [v Hv];
        generalize dependent (searchFlights (S := S) P a b c d e); intros
    | |- context [searchHotels ?P ?a ?b ?c ?d] =>
        let v := fresh "deals" in
        let Hv := fresh "Hdeals" in
        destruct (searchHotels_returns P (S := S) a b c d) as [v Hv];
        generalize dependent (searchHotels (S := S) P a b c d); intros
    | |- context [searchExperiences ?P ?a ?b] =>
        let v := fresh "exps" in
        let Hv := fresh "Hexps" in
        destruct (searchExperiences_returns P (S := S) a b) as [v Hv];
        generalize dependent (searchExperiences (S := S) P a b); intros
    end.

Ltac run_settled :=
  intros ?s; cbv [bind settle ret Promise_allSettled];
  repeat match goal with
    | H : returns ?m _ |- context [?m ?s] => rewrite (H s)
    end;
  reflexivity.

Lemma searchAllSources_returns `{JsRuntime} (P : Providers) {S : Type} (q : BookingQuery) :
  exists r,
    returns (S := S) (searchAllSources P q) r /\
    Forall is_experience (sr_transport r) /\
    (q_type q = THotel -> sr_hotels r = []) /\
    (flight_without_origin q -> r = no_results).
Proof.
  unfold searchAllSources, flight_without_origin.
  destruct q as [type from to date returnDate passengers flexible budget].
  cbn [q_type q_from q_to q_date q_returnDate q_passengers q_flexible].
  destruct type; try destruct from as [from|]; try destruct (String.eqb from "") eqn:E;
    cbn [negb]; name_searches S;
    (eexists; split; [run_settled|]);
    cbv [fulfilled_at Settled_map sr_transport sr_hotels]; simpl;
    (split; [|split]).
  all: try solve [apply List.Forall_nil].
  all: try solve [apply List.Forall_forall; intros x Hx; apply in_map_iff in Hx;
                  destruct Hx as (e & <- & _); exists e; reflexivity].
  all: try solve [intros Htype; first [discriminate Htype | reflexivity]].
  all: intros [Htype Hfrom]; try discriminate Htype.
  all: try reflexivity.
  all: destruct Hfrom as [Hfrom | Hfrom]; try discriminate Hfrom.
  all: injection Hfrom as ->; discriminate E.
Qed.

(** *** The normalizers on provider records *)

Section NormalizeRaw.
Context `{JsRuntime}.

Lemma succeeds_Date_now : succeeds Date_now.
Proof. intros w. eexists _, _. reflexivity. Qed.

Lemma succeeds_random : succeeds Math_random_toString36.
Proof. intros w. eexists _, _. reflexivity. Qed.

Lemma succeeds_new_Date : succeeds new_Date_toISOString.
Proof.
  apply succeeds_bind; [apply succeeds_Date_now|]. intros t. apply succeeds_ret.
Qed.

Lemma succeeds_make_id data source : succeeds (make_id data source).
Proof.
  unfold make_id. apply succeeds_bind; [|intros; apply succeeds_ret].
  destruct (truthy _); [apply succeeds_ret | apply succeeds_random].
Qed.

Lemma parseDuration_string {S} (s : string) :
  exists minutes, returns (S := S) (parseDuration (JStr s)) (num_of_Z minutes).
Proof. eexists. intros st. reflexivity. Qed.

Lemma normalizeSegments_routes {S} (segments : list RouteSegment) :
  exists normalized,
    returns (S := S) (normalizeSegments (JArr (map RouteSegment_object segments)))
            normalized.
Proof.
  unfold normalizeSegments, Array_map. apply returns_mapM.
  intros seg Hseg. apply in_map_iff in Hseg. destruct Hseg as (rs & <- & _).
  eexists. intros st. reflexivity.
Qed.

Lemma specialDeals_offers {S} (deals : list string) :
  exists offers,
    returns (S := S) (Array_map (JArr (map JStr deals)) specialDeal_offer) offers.
Proof.
  unfold Array_map. apply returns_mapM.
  intros deal Hdeal. apply in_map_iff in Hdeal. destruct Hdeal as (d & <- & _).
  unfold specialDeal_offer.
  destruct (includes (toLowerCase d) "first"); [eexists; apply returns_ret|].
  destruct (_ || _); eexists; apply returns_ret.
Qed.

Ltac destruct_raw x :=
  destruct x as [r | d | e];
  [ | destruct d as [? ? ? ? ? ? ? ? ? ? ? [?|] [?|]] | ].

Lemma normalizeFlight_raw (x : Raw) (source : JsVal) :
  succeeds (normalizeFlight (Raw_object x) source).
Proof.
  unfold normalizeFlight.
  apply succeeds_bind; [destruct x; apply succeeds_ret|]. intros _.
  apply succeeds_bind; [apply succeeds_make_id|]. intros id.
  apply succeeds_bind.
  { destruct_raw x.
    - destruct (normalizeSegments_routes (S := World) (fr_segments r)) as [v Hv].
      exact (returns_succeeds _ _ Hv).
    - apply succeeds_ret.
    - apply succeeds_ret.
    - apply succeeds_ret.
    - apply succeeds_ret.
    - apply succeeds_ret. }
  intros segments. apply succeeds_bind.
  { unfold calculateTotalDuration. destruct_raw x; try apply succeeds_ret.
    cbn [Raw_object prop assoc String.eqb Ascii.eqb Bool.eqb default
         option_rect fr_segments totalDuration].
    destruct (truthy _); [|apply succeeds_ret].
    destruct (parseDuration_string (S := World) (totalDuration r)) as [m Hm].
    exact (returns_succeeds _ _ Hm). }
  intros total. apply succeeds_bind; [apply succeeds_new_Date|].
  intros lastUpdated. apply succeeds_ret.
Qed.

Lemma RawHotel_specialDeals (d : HotelDeal) :
  (Raw_object (RawHotel d)).["specialDeals"] = JArr (map JStr (specialDeals d)).
Proof. reflexivity. Qed.

Lemma extractSpecialOffers_raw {S} (x : Raw) :
  succeeds (S := S) (extractSpecialOffers (Raw_object x)).
Proof.
  unfold extractSpecialOffers.
  apply succeeds_bind; [|intros; apply succeeds_ret].
  destruct x as [r | d | e]; try apply succeeds_ret.
  rewrite RawHotel_specialDeals. cbn [truthy].
  destruct (specialDeals_offers (S := S) (specialDeals d)) as [offers Hoffers].
  eapply returns_succeeds, returns_bind; [exact Hoffers | apply returns_ret].
Qed.

Lemma normalizeHotel_raw (x : Raw) (source : JsVal) :
  succeeds (normalizeHotel (Raw_object x) source).
Proof.
  unfold normalizeHotel.
  apply succeeds_bind; [destruct x; apply succeeds_ret|]. intros _.
  apply succeeds_bind; [apply succeeds_make_id|]. intros id.
  apply succeeds_bind; [destruct_raw x; apply succeeds_ret|]. intros roomTypes.
  apply succeeds_bind; [apply extractSpecialOffers_raw|]. intros specialOffers.
  apply succeeds_bind; [apply succeeds_new_Date|].
  intros lastUpdated. apply succeeds_ret.
Qed.

Lemma normalizeTransport_experience (e : Experience) (source : JsVal) :
  succeeds (normalizeTransport (Raw_object (RawExperience e)) source).
Proof.
  unfold normalizeTransport.
  apply succeeds_bind; [apply succeeds_ret|]. intros _.
  apply succeeds_bind; [apply succeeds_make_id|]. intros id.
  apply succeeds_bind.
  { destruct (parseDuration_string (S := World) (ex_duration e)) as [m Hm].
    exact (returns_succeeds _ _ Hm). }
  intros duration. apply succeeds_bind; [apply succeeds_new_Date|].
  intros lastUpdated. apply succeeds_ret.
Qed.

Lemma normalizeAll_succeeds (results : SourceResults) :
  Forall is_experience (sr_transport results) ->
  succeeds (normalizeAll results).
Proof.
  intros Htransport. unfold normalizeAll.
  apply succeeds_bind; [apply succeeds_mapM; intros; apply normalizeFlight_raw|].
  intros flights.
  apply succeeds_bind; [apply succeeds_mapM; intros; apply normalizeHotel_raw|].
  intros hotels.
  apply succeeds_bind; [|intros; apply succeeds_ret].
  apply succeeds_mapM. intros t Ht.
  rewrite List.Forall_forall in Htransport.
  destruct (Htransport t Ht) as [e ->]. apply normalizeTransport_experience.
Qed.
End NormalizeRaw.

(** *** search never throws *)

Section SearchSucceeds.
Context `{JsRuntime} (P : Providers) (JSON_stringify : BookingQuery -> string).

Lemma succeeds_cache_lookup key : succeeds (cache_lookup key).
Proof.
  intros a. unfold cache_lookup.
  destruct (cache a !! key) as [cached|]; [|eauto].
  eapply (succeeds_bind (in_world Date_now)).
  - apply succeeds_in_world, succeeds_Date_now.
  - intros now. apply succeeds_ret.
Qed.

Lemma succeeds_cache_store key aggregated : succeeds (cache_store key aggregated).
Proof.
  unfold cache_store.
  apply succeeds_bind; [apply succeeds_in_world, succeeds_Date_now|].
  intros now a. eauto.
Qed.

Lemma search_succeeds (query : BookingQuery) :
  succeeds (search P JSON_stringify query).
Proof.
  unfold search.
  apply succeeds_bind; [apply succeeds_cache_lookup|].
  intros [cached|]; [apply succeeds_ret|].
  destruct (searchAllSources_returns P (S := Aggregator) query)
    as (results & Hresults & Htransport & _).
  apply (succeeds_after _ _ results Hresults).
  apply succeeds_bind;
    [apply succeeds_in_world, normalizeAll_succeeds, Htransport|].
  intros normalized.
  apply succeeds_bind; [apply succeeds_in_world, succeeds_new_Date|].
  intros lastUpdated.
  apply succeeds_bind; [apply succeeds_cache_store|].
  intros _. apply succeeds_ret.
Qed.
End SearchSucceeds.


(** ** Failing providers

    [without_failures P] is [P] where a search that fails resolves with no
    record instead. *)




Section WithoutFailures.
Context `{JsRuntime} (P : Providers) {S : Type}.





End WithoutFailures.

Section PartialFailure.
Context `{JsRuntime} (P : Providers) (JSON_stringify : BookingQuery -> string).


End PartialFailure.

(** ** The cache *)

Section Cache.
Context `{JsRuntime} (P : Providers) (JSON_stringify : BookingQuery -> string).

Lemma search_unfold (query : BookingQuery) (a : Aggregator) :
  search P JSON_stringify query a
  = match cache_lookup (generateCacheKey JSON_stringify query) a with
    | (Fulfilled (Some cached_data), a') => (Fulfilled cached_data, a')
    | (Fulfilled None, a') => recompute P JSON_stringify query a'
    | (Rejected e, a') => (Rejected e, a')
    end.
Proof.
  unfold search, bind at 1.
  destruct (cache_lookup _ a) as [[[cached|]|e] a']; reflexivity.
Qed.

Lemma cache_store_run key results (a : Aggregator) :
  cache_store key results a
  = (Fulfilled tt,
     {| cache := <[key := {| data := results; timestamp := now_of a |}]> (cache a);
        world := world (tick a) |}).
Proof. reflexivity. Qed.

Lemma cache_lookup_entry key entry (a : Aggregator) :
  cache a !! key = Some entry ->
  cache_lookup key a
  = (Fulfilled (if (now_of a - timestamp entry <? cacheTTL)%Z then Some (data entry)
                else None),
     tick a).
Proof. intros Hentry. unfold cache_lookup. rewrite Hentry. reflexivity. Qed.

Lemma cache_lookup_absent key (a : Aggregator) :
  cache a !! key = None -> cache_lookup key a = (Fulfilled None, a).
Proof. intros Hentry. unfold cache_lookup. rewrite Hentry. reflexivity. Qed.

(** A recomputation does not read the cache: it returns the same results
    whatever the cache holds, and stores them under the key. *)
Lemma recompute_run (query : BookingQuery) (w : World) :
  exists results stamp w',
    forall c,
      recompute P JSON_stringify query {| cache := c; world := w |}
      = (Fulfilled results,
         {| cache := <[generateCacheKey JSON_stringify query :=
                         {| data := results; timestamp := stamp |}]> c;
            world := w' |}).
Proof.
  destruct (searchAllSources_returns P (S := Aggregator) query)
    as (raw & Hraw & Htransport & _).
  destruct (normalizeAll_succeeds raw Htransport w) as (normalized & w1 & Hnormalized).
  eexists _, _, _. intros c.
  unfold recompute, bind at 1. rewrite Hraw.
  unfold bind at 1, in_world at 1. cbn [world]. rewrite Hnormalized.
  cbv beta iota zeta delta
    [bind in_world cache_store ret new_Date_toISOString Date_now world cache].
  reflexivity.
Qed.

(** C3: a lookup right after a store returns the stored results as long
    as less than the TTL of one hour has elapsed; once the TTL has elapsed
    the lookup is a miss, and [search] computes the results again as if
    there were no entry; a store replaces the entry of the key. *)
Theorem cache_ttl (query : BookingQuery) (results : AggregatedResults) (a : Aggregator) :
  let key := generateCacheKey JSON_stringify query in
  let a1 := snd (cache_store key results a) in
  let elapsed := (now_of a1 - now_of a)%Z in
  cacheTTL = 3600000%Z /\
  cache_lookup key a1
  = (Fulfilled (if (elapsed <? cacheTTL)%Z then Some results else None), tick a1) /\
  search P JSON_stringify query a1
  = (if (elapsed <? cacheTTL)%Z then (Fulfilled results, tick a1)
     else search P JSON_stringify query (forget key (tick a1))) /\
  (forall results',
      cache (snd (cache_store key results' a1)) !! key
      = Some {| data := results'; timestamp := now_of a1 |}).
Proof.
  intros key a1 elapsed.
  assert (Hentry : cache a1 !! key = Some {| data := results; timestamp := now_of a |}).
  { subst a1. rewrite cache_store_run. cbn [snd cache]. apply lookup_insert_eq. }
  pose proof (cache_lookup_entry key _ a1 Hentry) as Hlookup.
  cbn [timestamp data] in Hlookup. fold elapsed in Hlookup.
  split; [reflexivity|]. split; [exact Hlookup|]. split.
  - rewrite search_unfold. fold key. rewrite Hlookup.
    destruct (elapsed <? cacheTTL)%Z; [reflexivity|].
    rewrite search_unfold. fold key.
    rewrite (cache_lookup_absent key (forget key (tick a1)))
      by (cbn [forget cache]; apply lookup_delete_eq).
    destruct (recompute_run query (world (tick a1))) as (r & stamp & w' & Hrun).
    change (tick a1) with {| cache := cache a1; world := world (tick a1) |} at 1.
    unfold forget. cbn [cache world]. rewrite !Hrun.
    fold key. rewrite insert_delete_eq. reflexivity.
  - intros results'. rewrite cache_store_run. cbn [snd cache].
    apply lookup_insert_eq.
Qed.
End Cache.

(** ** What normalization takes from the world *)

Lemma stateless_ret {S A} (a : A) : stateless (S := S) (ret a).
Proof. exists (Fulfilled a). reflexivity. Qed.

Lemma stateless_throw {S A} (e : JsError) : stateless (S := S) (A := A) (throw e).
Proof. exists (Rejected e). reflexivity. Qed.

Lemma stateless_bind {S A B} (m : M S A) (k : A -> M S B) :
  stateless m -> (forall a, stateless (k a)) -> stateless (bind m k).
Proof.
  intros [[a|e] Hm] Hk.
  - destruct (Hk a) as [r Hr]. exists r. intros s. unfold bind. rewrite Hm. apply Hr.
  - exists (Rejected e). intros s. unfold bind. rewrite Hm. reflexivity.
Qed.

Lemma stateless_mapM {S A B} (f : A -> M S B) (xs : list A) :
  (forall x, stateless (f x)) -> stateless (mapM f xs).
Proof.
  intros Hf. induction xs as [|x xs IH]; simpl; [apply stateless_ret|].
  apply stateless_bind; [apply Hf|]. intros y.
  apply stateless_bind; [exact IH|]. intros ys. apply stateless_ret.
Qed.

Lemma stateless_object_coercible {S} (v : JsVal) : stateless (S := S) (object_coercible v).
Proof. unfold object_coercible. destruct (nullish v); [apply stateless_throw | apply stateless_ret]. Qed.

Lemma stateless_Array_map {S B} (v : JsVal) (f : JsVal -> M S B) :
  (forall x, stateless (f x)) -> stateless (Array_map v f).
Proof.
  intros Hf. destruct v; try apply stateless_throw. apply stateless_mapM, Hf.
Qed.

Section WorldDependence.
Context `{JsRuntime}.

Lemma stateless_parseDuration {S} (v : JsVal) : stateless (S := S) (parseDuration v).
Proof. destruct v; try apply stateless_throw; apply stateless_ret. Qed.

Lemma stateless_normalizeSegments {S} (v : JsVal) :
  stateless (S := S) (normalizeSegments v).
Proof.
  apply stateless_Array_map. intros seg.
  apply stateless_bind; [apply stateless_object_coercible|]. intros _.
  apply stateless_bind; [apply stateless_parseDuration|]. intros d.
  apply stateless_ret.
Qed.

Lemma stateless_calculateTotalDuration {S} (data : JsVal) :
  stateless (S := S) (calculateTotalDuration data).
Proof.
  unfold calculateTotalDuration.
  destruct (truthy _); [apply stateless_parseDuration | apply stateless_ret].
Qed.

Lemma stateless_normalizeRoomTypes {S} (v : JsVal) :
  stateless (S := S) (normalizeRoomTypes v).
Proof.
  apply stateless_Array_map. intros room.
  apply stateless_bind; [apply stateless_object_coercible|]. intros _.
  apply stateless_ret.
Qed.

Lemma stateless_extractSpecialOffers {S} (data : JsVal) :
  stateless (S := S) (extractSpecialOffers data).
Proof.
  unfold extractSpecialOffers.
  apply stateless_bind; [|intros; apply stateless_ret].
  destruct (truthy _); [|apply stateless_ret].
  apply stateless_bind; [|intros; apply stateless_ret].
  apply stateless_Array_map. intros deal. unfold specialDeal_offer.
  destruct deal; try apply stateless_throw.
  destruct (includes _ _); [apply stateless_ret|].
  destruct (_ || _); apply stateless_ret.
Qed.

(** The outcome of [normalizeFlight] in a world: a record whose id and time
    stamp are those of the world and whose other fields are fixed by the
    arguments, or an error fixed by the arguments. *)
Lemma normalizeFlight_outcome (data source : JsVal) :
  exists pure : Settled NormalizedFlight,
    forall w,
      match pure, fst (normalizeFlight data source w) with
      | Fulfilled f0, Fulfilled f =>
          erase_flight f = erase_flight f0 /\
          nf_id f = id_in data source w /\ nf_lastUpdated f = stamp_in w
      | Rejected e0, Rejected e => e = e0
      | _, _ => False
      end.
Proof.
  unfold normalizeFlight, object_coercible.
  destruct (nullish data); [exists (Rejected TypeError); reflexivity|].
  destruct (stateless_normalizeSegments (S := World)
              (data.["segments"] ||| data.["flights"] ||| JArr [])) as [[segments|e] Hs].
  2: { exists (Rejected e). intros w.
       unfold bind, ret, make_id, id_in.
       destruct (truthy data.["id"]); cbn; rewrite Hs; reflexivity. }
  destruct (stateless_calculateTotalDuration (S := World) data) as [[total|e] Ht].
  2: { exists (Rejected e). intros w.
       unfold bind, ret, make_id, id_in.
       destruct (truthy data.["id"]); cbn; rewrite Hs, Ht; reflexivity. }
  exists (Fulfilled
            {| nf_id := "";
               nf_segments := segments;
               nf_price := normalizePrice data.["price"] data.["currency"];
               nf_totalDuration := total;
               nf_layovers := extractLayovers data;
               nf_source := source;
               nf_bookingUrl := data.["url"] ||| data.["bookingUrl"] ||| JStr "#";
               nf_baggage := extractBaggage data;
               nf_refundable := data.["refundable"] ||| JBool false;
               nf_lastUpdated := "" |}).
  intros w. unfold bind, ret, make_id, id_in, stamp_in.
  destruct (truthy data.["id"]); cbn; rewrite Hs, Ht; cbn;
    (split; [reflexivity | split; reflexivity]).
Qed.

Lemma normalizeHotel_outcome (data source : JsVal) :
  exists pure : Settled NormalizedHotel,
    forall w,
      match pure, fst (normalizeHotel data source w) with
      | Fulfilled h0, Fulfilled h =>
          erase_hotel h = erase_hotel h0 /\
          nh_id h = id_in data source w /\ nh_lastUpdated h = stamp_in w
      | Rejected e0, Rejected e => e = e0
      | _, _ => False
      end.
Proof.
  unfold normalizeHotel, object_coercible.
  destruct (nullish data); [exists (Rejected TypeError); reflexivity|].
  destruct (stateless_normalizeRoomTypes (S := World)
              (data.["rooms"] ||| data.["roomTypes"] ||| JArr [])) as [[rooms|e] Hr].
  2: { exists (Rejected e). intros w.
       unfold bind, ret, make_id, id_in.
       destruct (truthy data.["id"]); cbn; rewrite Hr; reflexivity. }
  destruct (stateless_extractSpecialOffers (S := World) data) as [[offers|e] Ho].
  2: { exists (Rejected e). intros w.
       unfold bind, ret, make_id, id_in.
       destruct (truthy data.["id"]); cbn; rewrite Hr, Ho; reflexivity. }
  exists (Fulfilled
            {| nh_id := "";
               nh_name := data.["name"] ||| data.["hotelName"] ||| JStr "";
               nh_location :=
                 {| address := data.["address"] ||| data.["location"]?.["address"] ||| JStr "";
                    loc_city := data.["city"] ||| data.["location"]?.["city"] ||| JStr "";
                    country := data.["country"] ||| data.["location"]?.["country"] ||| JStr "";
                    coordinates := data.["coordinates"] ||| data.["location"]?.["coordinates"] |};
               nh_price := normalizeHotelPrice data.["price"] data.["currency"];
               nh_rating :=
                 {| rating_value := data.["rating"] ||| data.["stars"] ||| JQ 0;
                    rating_max := Fin 5;
                    rating_reviews := data.["reviews"] ||| data.["reviewCount"] ||| JQ 0;
                    rating_source := data.["ratingSource"] ||| source |};
               nh_amenities := match data.["amenities"] with JArr items => items | _ => [] end;
               nh_roomTypes := rooms;
               nh_cancellationPolicy :=
                 data.["cancellationPolicy"] ||| JStr "Check booking site";
               nh_specialOffers := offers;
               nh_source := source;
               nh_bookingUrl := data.["url"] ||| data.["bookingUrl"] ||| JStr "#";
               nh_images := match data.["images"] with JArr items => items | _ => [] end;
               nh_lastUpdated := "" |}).
  intros w. unfold bind, ret, make_id, id_in, stamp_in.
  destruct (truthy data.["id"]); cbn; rewrite Hr, Ho; cbn;
    (split; [reflexivity | split; reflexivity]).
Qed.

Lemma normalizeTransport_outcome (data source : JsVal) :
  exists pure : Settled NormalizedTransport,
    forall w,
      match pure, fst (normalizeTransport data source w) with
      | Fulfilled t0, Fulfilled t =>
          erase_transport t = erase_transport t0 /\
          nt_id t = id_in data source w /\ nt_lastUpdated t = stamp_in w
      | Rejected e0, Rejected e => e = e0
      | _, _ => False
      end.
Proof.
  unfold normalizeTransport, object_coercible.
  destruct (nullish data); [exists (Rejected TypeError); reflexivity|].
  destruct (stateless_parseDuration (S := World) data.["duration"]) as [[duration|e] Hd].
  2: { exists (Rejected e). intros w.
       unfold bind, ret, make_id, id_in.
       destruct (truthy data.["id"]); cbn; rewrite Hd; reflexivity. }
  exists (Fulfilled
            {| nt_id := "";
               nt_type := data.["type"] ||| JStr "bus";
               nt_from := {| place_code := data.["fromCode"] ||| JStr "";
                             place_name := data.["fromName"] ||| data.["from"] ||| JStr "";
                             place_city := data.["fromCity"] ||| JStr "" |};
               nt_to := {| place_code := data.["toCode"] ||| JStr "";
                           place_name := data.["toName"] ||| data.["to"] ||| JStr "";
                           place_city := data.["toCity"] ||| JStr "" |};
               nt_operator := data.["operator"] ||| data.["company"] ||| JStr "";
               nt_departure :=
                 {| datetime := data.["departure"] ||| data.["departureTime"] ||| JStr "";
                    timezone := data.["departureTimezone"] ||| JStr "UTC" |};
               nt_arrival :=
                 {| datetime := data.["arrival"] ||| data.["arrivalTime"] ||| JStr "";
                    timezone := data.["arrivalTimezone"] ||| JStr "UTC" |};
               nt_duration := duration;
               nt_price := normalizePrice data.["price"] data.["currency"];
               nt_source := source;
               nt_bookingUrl := data.["url"] ||| data.["bookingUrl"] ||| JStr "#";
               nt_amenities := data.["amenities"] ||| JArr [];
               nt_lastUpdated := "" |}).
  intros w. unfold bind, ret, make_id, id_in, stamp_in.
  destruct (truthy data.["id"]); cbn; rewrite Hd; cbn;
    (split; [reflexivity | split; reflexivity]).
Qed.

Lemma outcome_alike {A} (erase : A -> A) (get_id get_stamp : A -> string)
    (data source : JsVal) (run : World -> Settled A) :
  (exists pure : Settled A,
      forall w,
        match pure, run w with
        | Fulfilled x0, Fulfilled x =>
            erase x = erase x0 /\
            get_id x = id_in data source w /\ get_stamp x = stamp_in w
        | Rejected e0, Rejected e => e = e0
        | _, _ => False
        end) ->
  forall w1 w2,
    alike erase (run w1) (run w2) /\
    stamped get_id get_stamp data source w1 (run w1).
Proof.
  intros [pure Hpure] w1 w2.
  pose proof (Hpure w1) as H1. pose proof (Hpure w2) as H2.
  unfold alike, stamped.
  destruct pure, (run w1), (run w2); intuition congruence.
Qed.

(** C10 (amended): normalization takes two things from the world, the
    random suffix of the id when the record has no id, and the time stamp
    [lastUpdated]; whether it throws, and every other field of its result,
    depend on the raw record and the source only.  (Merging and ranking are
    functions of their arguments: they do not run in the world at all.) *)
Theorem normalization_world_dependence (data source : JsVal) (w1 w2 : World) :
  (alike erase_flight (fst (normalizeFlight data source w1))
                      (fst (normalizeFlight data source w2)) /\
   stamped nf_id nf_lastUpdated data source w1 (fst (normalizeFlight data source w1))) /\
  (alike erase_hotel (fst (normalizeHotel data source w1))
                     (fst (normalizeHotel data source w2)) /\
   stamped nh_id nh_lastUpdated data source w1 (fst (normalizeHotel data source w1))) /\
  (alike erase_transport (fst (normalizeTransport data source w1))
                         (fst (normalizeTransport data source w2)) /\
   stamped nt_id nt_lastUpdated data source w1 (fst (normalizeTransport data source w1))).
Proof.
  split; [|split].
  - apply (outcome_alike erase_flight nf_id nf_lastUpdated data source
             (fun w => fst (normalizeFlight data source w))).
    apply normalizeFlight_outcome.
  - apply (outcome_alike erase_hotel nh_id nh_lastUpdated data source
             (fun w => fst (normalizeHotel data source w))).
    apply normalizeHotel_outcome.
  - apply (outcome_alike erase_transport nt_id nt_lastUpdated data source
             (fun w => fst (normalizeTransport data source w))).
    apply normalizeTransport_outcome.
Qed.
End WorldDependence.

(** ** The field in which results arrive *)

Section Assembly.
Context `{JsRuntime} (P : Providers) (JSON_stringify : BookingQuery -> string).

Lemma normalizeAll_no_hotels (raw : SourceResults) (w w' : World) (n : Normalized) :
  sr_hotels raw = [] ->
  normalizeAll raw w = (Fulfilled n, w') ->
  hotels n = [].
Proof.
  intros Hnone. unfold normalizeAll, bind. rewrite Hnone.
  destruct (mapM _ (sr_flights raw) w) as [[fs|e] w1]; [|discriminate].
  cbn [mapM ret].
  destruct (mapM _ (sr_transport raw) w1) as [[ts|e] w2]; [|discriminate].
  intros Hrun. injection Hrun as <- _. reflexivity.
Qed.

(** Whatever the hotel providers return for a query of type hotel, the
    hotels list of the results is empty (unless an earlier result is served
    from the cache). *)
Lemma hotel_query_hotels_empty (query : BookingQuery) (a a' : Aggregator)
    (results : AggregatedResults) :
  q_type query = THotel ->
  cache a !! generateCacheKey JSON_stringify query = None ->
  search P JSON_stringify query a = (Fulfilled results, a') ->
  ar_hotels results = [].
Proof.
  intros Htype Hmiss Hrun.
  rewrite search_unfold, (cache_lookup_absent _ _ Hmiss) in Hrun.
  destruct (searchAllSources_returns P (S := Aggregator) query)
    as (raw & Hraw & _ & Hhotels & _).
  specialize (Hhotels Htype).
  unfold recompute, bind at 1 in Hrun. rewrite Hraw in Hrun.
  unfold bind at 1, in_world at 1 in Hrun.
  destruct (normalizeAll raw (world a)) as [[n|e] w1] eqn:Hn; [|discriminate].
  cbv beta iota zeta delta
    [bind in_world cache_store ret new_Date_toISOString Date_now world cache] in Hrun.
  injection Hrun as <- _. cbn [ar_hotels mergeAll hotels].
  rewrite (normalizeAll_no_hotels raw _ _ n Hhotels Hn). reflexivity.
Qed.

(** With every group asked for, each group arrives in its own field. *)
Lemma all_with_origin_fields (from : string) (query : BookingQuery) {S : Type} :
  q_type query = TAll -> q_from query = Some from -> from <> "" ->
  exists routes deals exps,
    returns (S := S) (searchAllSources P query)
      {| sr_flights := map RawFlight routes;
         sr_hotels := map RawHotel deals;
         sr_transport := [];
         sr_experiences := map RawExperience exps |}.
Proof.
  intros Htype Hfrom Hne. unfold searchAllSources. rewrite Htype, Hfrom.
  apply String.eqb_neq in Hne. rewrite Hne. cbn [negb].
  name_searches S. exists routes, deals, exps. run_settled.
Qed.
End Assembly.

(** ** Queries that name no destination or no origin *)

Section Malformed.
Context `{JsRuntime} (P : Providers) (JSON_stringify : BookingQuery -> string).

Lemma recompute_flight_without_origin (query : BookingQuery) (a : Aggregator) r a' :
flight_without_origin query ->
recompute P JSON_stringify query a = (Fulfilled r, a') ->
all_empty r.
Proof.
intros Hbad Hrun.
destruct (searchAllSources_returns P (S := Aggregator) query)
  as (raw & Hraw & _ & _ & Hnone).
specialize (Hnone Hbad). subst raw.
unfold recompute, bind at 1 in Hrun. rewrite Hraw in Hrun.
cbv beta iota zeta delta
  [bind in_world cache_store ret new_Date_toISOString Date_now world cache
   normalizeAll no_results mapM sr_flights sr_hotels sr_transport sr_experiences]
  in Hrun.
injection Hrun as <- _. repeat split.
Qed.

(** C8 (amended): [search] validates nothing.  It throws for no query, be
  the destination empty or the origin of a flight missing; for a flight
  query without origin, when the cache has no entry for it, no provider is
  asked and every list of the results is empty. *)
Theorem search_accepts_malformed (query : BookingQuery) (a : Aggregator) :
exists results a',
  search P JSON_stringify query a = (Fulfilled results, a') /\
  (flight_without_origin query ->
   cache a !! generateCacheKey JSON_stringify query = None ->
   all_empty results).
Proof.
destruct (search_succeeds P JSON_stringify query a) as (results & a' & Hrun).
exists results, a'. split; [exact Hrun|].
intros Hbad Hmiss.
rewrite search_unfold, (cache_lookup_absent _ _ Hmiss) in Hrun.
exact (recompute_flight_without_origin query a results a' Hbad Hrun).
Qed.
End Malformed.

(** * Examples *)

Import Reference.

(** ** C1 *)

(** A provider that fails next to one that answers: the answer is returned. *)
Example search_with_failing_provider :
  exists results,
    fst (search one_hotel_provider stringify
           {| q_type := TAll; q_from := Some "ATH"; q_to := "Bangkok";
              q_date := Some "2025-03-01"; q_returnDate := None;
              q_passengers := None; q_flexible := None; q_budget := None |}
           (fresh 1740787200000 1))
    = Fulfilled results /\
    map nh_name (ar_hotels results) = [JStr "Grand Palace Hotel"] /\
    sources results = ["agoda"].
Proof. eexists. vm_compute. repeat split. Qed.

(** ** C2 *)

(** C2 (the code departs from the claim): for a query of type hotel, the
    deals that the hotel providers return are stored as flights, and the
    hotels list is empty. *)
Theorem hotel_query_fills_flights :
  match fst (search one_hotel_provider stringify hotel_query (fresh 1740787200000 1)) with
  | Fulfilled results =>
      ar_hotels results = [] /\
      map nf_source (ar_flights results) = [JStr "agoda"] /\
      map (fun f => amount (nf_price f)) (ar_flights results) = [JQ 150]
  | Rejected _ => False
  end.
Proof. vm_compute. repeat split. Qed.

(** ** C3 *)

Example cache_hit_then_expiry :
  let a1 := snd (search one_hotel_provider stringify hotel_query (fresh 0 1)) in
  let late := {| cache := cache a1; world := world_at 3600010 1 |} in
  (* within the hour no provider is asked: the placeholders would find nothing *)
  fst (search placeholder_providers stringify hotel_query a1)
  = fst (search one_hotel_provider stringify hotel_query (fresh 0 1)) /\
  (* after the hour the results are computed again *)
  match fst (search placeholder_providers stringify hotel_query late) with
  | Fulfilled results => ar_flights results = []
  | Rejected _ => False
  end.
Proof. vm_compute. split; reflexivity. Qed.

(** ** C4 *)

(** The merge keeps the first of the two; the tie-break of the specification
    would pick the one updated earlier. *)
Lemma representative_ignores_lastUpdated :
  exists rep,
    mergeDuplicates [updated_later; updated_earlier] = [rep] /\
    ~ spec_representative [updated_later; updated_earlier] rep.
Proof.
  exists updated_later. split; [reflexivity|].
  intros [_ Hleast].
  specialize (Hleast updated_earlier (or_intror (or_introl eq_refl))).
  vm_compute in Hleast. discriminate.
Qed.

Lemma mergeDuplicates_representative_witness :
  exists rep,
    In rep (mergeDuplicates [updated_later; updated_earlier]) /\
    generateMergeKey rep = generateMergeKey updated_later /\
    first_smallest flight_price
      (merge_group_of [updated_later; updated_earlier] updated_later) rep.
Proof.
  apply (mergeDuplicates_representative flight_price).
  - intros y [<- | [<- | []]]; reflexivity.
  - left. reflexivity.
Defined.

(** ** C5 *)

(** Every normalized flight, and every normalized hotel, has the same key. *)
Lemma flight_key_constant `{JsRuntime} (f : NormalizedFlight) : generateMergeKey f = "--".
Proof. reflexivity. Qed.

Lemma hotel_key_constant `{JsRuntime} (h : NormalizedHotel) : generateMergeKey h = "--".
Proof. reflexivity. Qed.

(** So has every normalized transport: its three properties are objects. *)
Lemma transport_key_constant `{JsRuntime} (t : NormalizedTransport) :
  generateMergeKey t = "[object Object]-[object Object]-[object Object]".
Proof. reflexivity. Qed.

Lemma constant_keys_at_most_one (keys : list string) (k : string) :
  List.NoDup keys -> (forall x, In x keys -> x = k) -> (length keys <= 1)%nat.
Proof.
  intros Hnd Hall. destruct keys as [|a [|b rest]]; simpl; try lia.
  apply List.NoDup_cons_iff in Hnd. destruct Hnd as [Hnotin _].
  exfalso. apply Hnotin. left.
  rewrite (Hall a), (Hall b); [reflexivity | right; left | left]; reflexivity.
Qed.

(** So the merge of any list of flights keeps one flight at most. *)
Lemma merged_flights_at_most_one `{JsRuntime} (results : list NormalizedFlight) :
  (length (mergeDuplicates results) <= 1)%nat.
Proof.
  rewrite <- (length_map generateMergeKey).
  apply (constant_keys_at_most_one _ "--").
  - rewrite mergeDuplicates_keys. apply (group_by_groups_of generateMergeKey results).
  - intros k Hk. apply in_map_iff in Hk. destruct Hk as (f & <- & _). reflexivity.
Qed.

(** C5 (the code departs from the claim): two flights of March 1 and one of
    March 2 fall into a single group; the flight of the other date is not
    kept as a group of its own. *)
Theorem flights_of_two_dates_merge :
  map generateMergeKey [march_1_at_500; march_1_at_480; march_2_at_520]
  = ["--"; "--"; "--"] /\
  mergeDuplicates [march_1_at_500; march_1_at_480; march_2_at_520] = [march_1_at_480].
Proof. split; reflexivity. Qed.

(** The hotel grouping of [identifyBestDeals] does use the lower-case name. *)
Example hotels_grouped_by_name :
  map hd_name
      (identifyBestDeals [hotel_deal "Grand Palace Hotel" "agoda" 150;
                          hotel_deal "Riverside Inn" "agoda" 80;
                          hotel_deal "GRAND PALACE HOTEL" "trip" 100])
  = ["Riverside Inn"; "GRAND PALACE HOTEL"].
Proof. reflexivity. Qed.

(** So it does for letters outside ASCII. *)
Example accented_names_grouped :
  map (fun d => (hd_name d, hd_price d))
      (identifyBestDeals [hotel_deal "CAFÉ ROYAL" "agoda" 90;
                          hotel_deal "café royal" "trip" 80])
  = [("café royal", 80%Q)].
Proof. reflexivity. Qed.

(** ** C6 *)

(** The scenario of the specification: prices 150, 120 and 100. *)
Example grand_palace_discount :
  map (fun d => (hd_price d, hd_source d, discount d)) (identifyBestDeals grand_palace)
  = [(100%Q, "trip", Some (Fin 33))].
Proof. reflexivity. Qed.

(** The operations are those of doubles: (40 - 17) / 40 * 100 is a little
    less than 57.5, and is rounded to 57. *)
Example discount_in_doubles :
  map discount (identifyBestDeals [hotel_deal "Hostel" "agoda" 40;
                                   hotel_deal "Hostel" "trip" 17])
  = [Some (Fin 57)].
Proof. reflexivity. Qed.

(** A maximum price that is not finite gives NaN too: [Infinity / Infinity]. *)
Example discount_percent_of_Infinity : discount_percent PosInf 100 = NaN.
Proof. reflexivity. Qed.

(** Two providers list the same hotel at price zero: the discount is NaN. *)
Lemma discount_of_free_hotel_is_NaN :
  map discount (identifyBestDeals [hotel_deal "Hostel" "agoda" 0;
                                   hotel_deal "Hostel" "trip" 0])
  = [Some NaN].
Proof. reflexivity. Qed.

Lemma identifyBestDeals_discount_witness :
  exists rep percent,
    In rep (identifyBestDeals grand_palace) /\
    discount rep = Some (num_of_Z percent) /\ (0 <= percent <= 100)%Z.
Proof.
  destruct (identifyBestDeals_discount grand_palace (hotel_deal "Grand Palace Hotel" "agoda" 150))
    as (rep & cheapest & Hrep & _ & _ & _ & Hmany).
  - left. reflexivity.
  - destruct Hmany as (maxPrice & percent & _ & _ & _ & Hdiscount & Hbounds).
    + vm_compute. lia.
    + intros x [<- | [<- | [<- | []]]]; (split; [reflexivity | discriminate]).
    + exists (hotel_deal "Grand Palace Hotel" "agoda" 150).
      split; [left; reflexivity | reflexivity].
    + exists rep, percent. split; [exact Hrep|]. split; [exact Hdiscount | exact Hbounds].
Defined.

(** ** C8 *)

(** Neither query makes [search] throw. *)
Lemma malformed_queries_are_answered :
  (exists results,
      fst (search one_hotel_provider stringify no_destination (fresh 0 1))
      = Fulfilled results) /\
  (exists results,
      fst (search one_hotel_provider stringify flight_from_nowhere (fresh 0 1))
      = Fulfilled results).
Proof. split; eexists; vm_compute; reflexivity. Qed.

Lemma search_accepts_malformed_witness :
  exists results a',
    search one_hotel_provider stringify flight_from_nowhere (fresh 0 1)
    = (Fulfilled results, a') /\
    all_empty results.
Proof.
  destruct (search_accepts_malformed one_hotel_provider stringify flight_from_nowhere
              (fresh 0 1)) as (results & a' & Hrun & Hempty).
  exists results, a'. split; [exact Hrun|].
  apply Hempty.
  - split; [reflexivity | left; reflexivity].
  - reflexivity.
Defined.

(** ** C9 *)

(** C9 (the code departs from the claim): a record without [duration] makes
    [normalizeTransport] throw a TypeError; the same record with a duration
    is normalized. *)
Theorem missing_duration_throws :
  fst (normalizeTransport bus_without_duration (JStr "ktel") (world_at 0 1))
  = Rejected TypeError /\
  (exists t,
      fst (normalizeTransport
             (JObj [("id", JStr "ATH-PAT-0900"); ("from", JStr "Athens");
                    ("to", JStr "Patras"); ("operator", JStr "KTEL");
                    ("price", JQ 22); ("currency", JStr "EUR");
                    ("duration", JStr "2h 30m")])
             (JStr "ktel") (world_at 0 1))
      = Fulfilled t /\ nt_duration t = Fin 150).
Proof. split; [reflexivity|]. eexists. split; reflexivity. Qed.

(** Every record whose [duration] is neither a number nor a string makes
    [normalizeTransport] throw. *)
Lemma normalizeTransport_needs_duration `{JsRuntime} (data source : JsVal) (w : World) :
  match data.["duration"] with JNum _ | JStr _ => False | _ => True end ->
  fst (normalizeTransport data source w) = Rejected TypeError.
Proof.
  intros Hduration. unfold normalizeTransport, object_coercible.
  destruct (nullish data); [reflexivity|].
  unfold bind, ret, make_id.
  destruct (truthy data.["id"]); cbn;
    destruct (data.["duration"]); try contradiction; reflexivity.
Qed.

(** The parts of the claim that hold: plain minutes, hours and minutes, and
    strings in which no digits are followed by [h] or [m]. *)
Example parseDuration_formats :
  fst (parseDuration (JNum (Fin 150)) tt) = Fulfilled (Fin 150) /\
  fst (parseDuration (JStr "2h 30m") tt) = Fulfilled (Fin 150) /\
  fst (parseDuration (JStr "PT2H30M") tt) = Fulfilled (Fin 0) /\
  fst (parseDuration (JStr "soon") tt) = Fulfilled (Fin 0) /\
  fst (parseDuration JUndefined tt) = Rejected TypeError.
Proof. repeat split. Qed.

(** ** C10 *)

(** The same record normalized twice in a row: the two results differ. *)
Lemma normalizing_twice_differs :
  let first := normalizeFlight flight_without_id (JStr "kiwi") (world_at 1740787200000 1) in
  let second := normalizeFlight flight_without_id (JStr "kiwi") (snd first) in
  fst first <> fst second.
Proof. vm_compute. discriminate. Qed.

(** * Further properties *)

(** ** Sorting by price *)

Lemma sort_insert_Permutation {A} (key : A -> Q) (x : A) (sorted : list A) :
  Permutation (sort_insert key x sorted) (x :: sorted).
Proof.
  induction sorted as [|y sorted IH]; simpl; [apply Permutation_refl|].
  destruct (Qle_bool (key x) (key y)); [apply Permutation_refl|].
  eapply Permutation_trans; [apply perm_skip, IH | apply perm_swap].
Qed.

Lemma sort_by_Permutation {A} (key : A -> Q) (xs : list A) :
  Permutation (sort_by key xs) xs.
Proof.
  induction xs as [|x xs IH]; simpl; [apply Permutation_refl|].
  eapply Permutation_trans; [apply sort_insert_Permutation | apply perm_skip, IH].
Qed.

Lemma sort_insert_sorted {A} (key : A -> Q) (x : A) (sorted : list A) :
  ascending key sorted -> ascending key (sort_insert key x sorted).
Proof.
  unfold ascending. induction 1 as [|y sorted Hsorted IH Hall]; simpl.
  - apply SSorted_cons; [apply SSorted_nil | apply List.Forall_nil].
  - destruct (Qle_bool (key x) (key y)) eqn:E.
    + apply Qle_bool_iff in E. apply SSorted_cons.
      * apply SSorted_cons; assumption.
      * apply List.Forall_cons; [exact E|].
        eapply List.Forall_impl; [|exact Hall].
        intros z Hz. eapply Qle_trans; eassumption.
    + assert (Hyx : (key y <= key x)%Q).
      { apply Qlt_le_weak, Qltb_lt. unfold Qltb. rewrite E. reflexivity. }
      apply SSorted_cons; [exact IH|].
      apply List.Forall_forall. intros z Hz.
      apply sort_insert_In in Hz. destruct Hz as [-> | Hz]; [exact Hyx|].
      rewrite List.Forall_forall in Hall. apply Hall, Hz.
Qed.

Lemma sort_by_sorted {A} (key : A -> Q) (xs : list A) : ascending key (sort_by key xs).
Proof.
  induction xs as [|x xs IH]; simpl; [apply SSorted_nil|].
  apply sort_insert_sorted, IH.
Qed.

(** ** The provider searches *)

Lemma returns_mapM_related {S A B} (f : A -> M S B) (R : A -> B -> Prop) (xs : list A) :
  (forall x, In x xs -> exists y, returns (f x) y /\ R x y) ->
  exists ys, returns (mapM f xs) ys /\ Forall2 R xs ys.
Proof.
  induction xs as [|x xs IH]; intros Hf.
  - exists []. split; [apply returns_ret | constructor].
  - destruct (Hf x) as (y & Hy & Hxy); [left; reflexivity|].
    destruct IH as (ys & Hys & Hall); [intros z Hz; apply Hf; right; exact Hz|].
    exists (y :: ys). split; [|constructor; assumption].
    simpl. eapply returns_bind; [exact Hy|].
    eapply returns_bind; [exact Hys|]. apply returns_ret.
Qed.

Lemma concat_at_most_one {A B} (R : A -> list B -> Prop) (xs : list A) (ys : list (list B)) :
  Forall2 R xs ys -> (forall x y, R x y -> (length y <= 1)%nat) ->
  (length (concat ys) <= length xs)%nat.
Proof.
  intros Hall Hone. induction Hall as [|x y xs ys Hxy _ IH]; simpl; [lia|].
  rewrite length_app. specialize (Hone x y Hxy). lia.
Qed.

Lemma concat_related {A B} (R : A -> list B -> Prop) (xs : list A) (ys : list (list B)) b :
  Forall2 R xs ys -> In b (concat ys) -> exists x y, In x xs /\ R x y /\ In b y.
Proof.
  intros Hall. induction Hall as [|x y xs ys Hxy _ IH]; simpl; [intros []|].
  intros Hb. apply in_app_iff in Hb. destruct Hb as [Hb | Hb].
  - exists x, y. auto.
  - destruct (IH Hb) as (x' & y' & Hx' & Hr & Hb'). exists x', y'. auto.
Qed.

Section ProviderSearches.
Context `{JsRuntime} (P : Providers) {S : Type}.

(** X1 (multi-city routes): the search over the hubs never throws; its
    result is made of one part per hub, in the order of the hubs: the part of
    a hub is a single route when both legs over the hub have a route, and
    empty when a leg fails or finds nothing; so there is at most one route
    per hub, at most eight in all.  The route of a hub combines the first
    routes of the two legs: prices and layovers are added as doubles (plus
    one layover at the hub), the source is "multi-city", and the total
    duration is that of the first leg alone. *)
Theorem findMultiCityRoutes_routes (from to date : string) (passengers : number) :
  exists found : list (list FlightRoute),
    returns (S := S) (findMultiCityRoutes P from to date passengers) (concat found) /\
    Forall2 (hub_outcome P from to date passengers) hubs found /\
    (length (concat found) <= 8)%nat.
Proof.
  unfold findMultiCityRoutes.
  match goal with
  | |- context [mapM ?f ?xs] =>
      destruct (returns_mapM_related (S := S) f
                  (hub_outcome P from to date passengers) xs)
        as (found & Hfound & Hall)
  end.
  { intros hub _. unfold returns, try_catch, bind, await, ret, hub_outcome, via_hub.
    destruct (searchRoute P from hub date passengers) as [[|r1 rest1]|e1] eqn:E1;
      destruct (searchRoute P hub to date passengers) as [[|r2 rest2]|e2] eqn:E2;
      eexists; (split; [intros s; reflexivity|]);
      try (right; split; [|reflexivity];
           intros route (? & ? & ? & ? & H1 & H2 & _); discriminate).
    left. eexists. split; [|reflexivity].
    exists r1, rest1, r2, rest2. repeat split. }
  exists found. split; [|split].
  - eapply returns_bind; [exact Hfound|]. apply returns_ret.
  - exact Hall.
  - change 8%nat with (length hubs).
    apply (concat_at_most_one _ _ _ Hall).
    intros hub y [(route & _ & ->) | [_ ->]]; simpl; lia.
Qed.

(** X2 (flight search): the routes returned are exactly the routes of the
    providers that answered, together with the multi-city routes when the
    search is flexible, in ascending order of total price. *)
Theorem searchFlights_sorted (from to date : string) (passengers : number) (flexible : bool) :
  exists routes multi,
    returns (S := S) (searchFlights P from to date passengers flexible) routes /\
    (if flexible
     then returns (S := S) (findMultiCityRoutes P from to date passengers) multi
     else multi = []) /\
    Permutation routes
      (push_fulfilled (map (fun search : FlightSearch => search from to date passengers)
                           (flightSearches P)) ++ multi) /\
    ascending totalPrice routes.
Proof.
  unfold searchFlights, Promise_allSettled. destruct flexible.
  - destruct (findMultiCityRoutes_returns P (S := S) from to date passengers)
      as [multi Hmulti].
    eexists _, multi. split; [|split; [exact Hmulti|split]].
    + eapply returns_bind; [apply returns_ret|].
      eapply returns_bind; [exact Hmulti|]. apply returns_ret.
    + apply sort_by_Permutation.
    + apply sort_by_sorted.
  - eexists _, []. split; [|split; [reflexivity|split]].
    + eapply returns_bind; [apply returns_ret|].
      eapply returns_bind; apply returns_ret.
    + apply sort_by_Permutation.
    + apply sort_by_sorted.
Qed.

(** X3 (experience search): the experiences returned are exactly those of the
    providers that answered, none merged or dropped, in ascending order of
    price. *)
Theorem searchExperiences_sorted (location : string) (date : option string) :
  exists experiences,
    returns (S := S) (searchExperiences P location date) experiences /\
    Permutation experiences
      (push_fulfilled (map (fun search : ExperienceSearch => search location date)
                           (experienceSearches P))) /\
    ascending ex_price experiences.
Proof.
  unfold searchExperiences, Promise_allSettled.
  eexists. split; [|split].
  - eapply returns_bind; apply returns_ret.
  - apply sort_by_Permutation.
  - apply sort_by_sorted.
Qed.
End ProviderSearches.

(** ** identifyBestDeals: one deal per hotel name *)

Section OneDealPerHotel.
Context `{JsRuntime}.

Lemma best_of_hotel_member (group : list HotelDeal) :
  group <> [] ->
  exists rep cheapest,
    best_of_hotel group = [rep] /\ In cheapest group /\ marked_copy rep cheapest /\
    firstTimeDeal rep = Some (existsb mentions_first_time group).
Proof.
  destruct group as [|first rest]; [congruence|]. intros _.
  eexists _, (reduce cheaper_deal first rest).
  split; [reflexivity|]. split.
  - exact (first_smallest_In _ _ _ (cheaper_deal_first_smallest first rest)).
  - split; [repeat split | reflexivity].
Qed.

Lemma unsorted_best_names (deals : list HotelDeal) :
  map lower_name
      (flat_map (fun entry => best_of_hotel (snd entry)) (group_by lower_name deals))
  = map fst (group_by lower_name deals).
Proof.
  destruct (group_by_groups_of lower_name deals) as (_ & _ & Hall).
  induction Hall as [|[k g] grouped [Hne Hfilter] _ IH]; [reflexivity|].
  simpl in Hne, Hfilter. cbn [flat_map snd].
  destruct (best_of_hotel_member g Hne) as (rep & cheapest & -> & Hin & Hcopy & _).
  cbn [app map fst]. rewrite IH. f_equal.
  rewrite Hfilter in Hin. apply filter_In in Hin. destruct Hin as [_ Hkey].
  unfold has_key in Hkey. apply String.eqb_eq in Hkey.
  unfold lower_name in *. destruct Hcopy as [-> _]. exact Hkey.
Qed.

Lemma group_keys_are_input_keys {T} (keyOf : T -> string) (xs : list T) (k : string) :
  In k (map fst (group_by keyOf xs)) <-> In k (map keyOf xs).
Proof.
  destruct (group_by_groups_of keyOf xs) as (_ & Hcover & Hall). split.
  - intros Hk. apply in_map_iff in Hk. destruct Hk as ([k' g] & <- & Hentry).
    rewrite List.Forall_forall in Hall. destruct (Hall _ Hentry) as [Hne Hfilter].
    simpl in *. destruct g as [|x g]; [congruence|].
    assert (Hx : In x (List.filter (has_key keyOf k') xs)) by (rewrite <- Hfilter; left; reflexivity).
    apply filter_In in Hx. destruct Hx as [Hx Hkey].
    apply String.eqb_eq in Hkey. rewrite <- Hkey. apply in_map, Hx.
  - intros Hk. apply in_map_iff in Hk. destruct Hk as (x & <- & Hx). apply Hcover, Hx.
Qed.

(** X4 (one deal per hotel): the result of [identifyBestDeals] is in ascending
    order of price, holds no two deals whose names are equal after
    [toLowerCase], and names the same hotels as the input. *)
Theorem identifyBestDeals_one_per_name (deals : list HotelDeal) :
  ascending hd_price (identifyBestDeals deals) /\
  List.NoDup (map lower_name (identifyBestDeals deals)) /\
  (forall name, In name (map lower_name (identifyBestDeals deals))
                <-> In name (map lower_name deals)) /\
  (length (identifyBestDeals deals) <= length deals)%nat.
Proof.
  assert (Hperm : Permutation (map lower_name (identifyBestDeals deals))
                              (map fst (group_by lower_name deals))).
  { rewrite <- unsorted_best_names. apply Permutation_map.
    unfold identifyBestDeals. apply sort_by_Permutation. }
  destruct (group_by_groups_of lower_name deals) as (Hnd & _ & _).
  split; [apply sort_by_sorted|]. split; [|split].
  - eapply Permutation_NoDup; [apply Permutation_sym, Hperm | exact Hnd].
  - intros name. rewrite <- (group_keys_are_input_keys lower_name deals name).
    split; intros Hin.
    + eapply Permutation_in; [exact Hperm | exact Hin].
    + eapply Permutation_in; [apply Permutation_sym, Hperm | exact Hin].
  - rewrite <- (length_map lower_name (identifyBestDeals deals)).
    rewrite (Permutation_length Hperm), <- (length_map lower_name deals).
    apply NoDup_incl_length; [exact Hnd|].
    intros k Hk. apply (group_keys_are_input_keys lower_name deals k), Hk.
Qed.

(** X5 (first-time flag): the deal kept for a hotel is flagged as a first-time
    deal exactly when some deal of that hotel (a deal whose name is the same
    after [toLowerCase]), of whatever provider and at whatever price,
    mentions "first" or "new user" in its special deals. *)
Theorem identifyBestDeals_first_time (deals : list HotelDeal) (d : HotelDeal) :
  In d deals ->
  exists rep,
    In rep (identifyBestDeals deals) /\
    lower_name rep = lower_name d /\
    firstTimeDeal rep = Some (existsb mentions_first_time (hotel_group_of deals d)).
Proof.
  intros Hd.
  destruct (identifyBestDeals_group deals d Hd) as (first & rest & rep & Hgroup & Hbest & Hrep).
  exists rep. split; [exact Hrep|].
  destruct (best_of_hotel_member (first :: rest)) as (rep' & cheapest & Hbest' & Hin & Hcopy & Hflag);
    [discriminate|].
  rewrite Hbest in Hbest'. injection Hbest' as <-.
  rewrite Hgroup. split; [|exact Hflag].
  rewrite <- Hgroup in Hin. apply filter_In in Hin. destruct Hin as [_ Hkey].
  unfold has_key in Hkey. apply String.eqb_eq in Hkey.
  unfold lower_name. destruct Hcopy as [-> _]. exact Hkey.
Qed.

End OneDealPerHotel.

Lemma identifyBestDeals_first_time_witness :
  exists rep,
    In rep (identifyBestDeals riverside) /\
    lower_name rep = "riverside inn" /\
    firstTimeDeal rep = Some true.
Proof.
  exact (identifyBestDeals_first_time (H := runtime) riverside
           (hotel_deal "Riverside Inn" "agoda" 80) (or_introl eq_refl)).
Defined.

(** ** mergeDuplicates: what is kept *)

Section MergeSelection.
Context `{JsRuntime} {T : Type} `{Offer T}.

Lemma mergeDuplicates_In (results : list T) (x : T) :
  In x (mergeDuplicates results) -> In x results.
Proof.
  unfold mergeDuplicates. intros Hx. apply in_flat_map in Hx.
  destruct Hx as ([k g] & Hentry & Hx). simpl in Hx.
  destruct (group_by_groups_of generateMergeKey results) as (_ & _ & Hall).
  rewrite List.Forall_forall in Hall. destruct (Hall _ Hentry) as [Hne Hfilter].
  simpl in Hne, Hfilter.
  destruct (merge_group_member g Hne) as (rep & Hrep & Hin).
  rewrite Hrep in Hx. destruct Hx as [<- | []].
  rewrite Hfilter in Hin. apply filter_In in Hin. tauto.
Qed.

(** X6 (the merge selects): every offer of the output is an offer of the
    input; no two offers of the output have the same key; every key of the
    input is the key of an offer of the output; so the output is not longer
    than the input. *)
Theorem mergeDuplicates_selects (results : list T) :
  (forall x, In x (mergeDuplicates results) -> In x results) /\
  List.NoDup (map generateMergeKey (mergeDuplicates results)) /\
  (forall k, In k (map generateMergeKey (mergeDuplicates results))
             <-> In k (map generateMergeKey results)) /\
  (length (mergeDuplicates results) <= length results)%nat.
Proof.
  destruct (group_by_groups_of generateMergeKey results) as (Hnd & _ & _).
  split; [apply mergeDuplicates_In|]. split; [|split].
  - rewrite mergeDuplicates_keys. exact Hnd.
  - intros k. rewrite mergeDuplicates_keys. apply group_keys_are_input_keys.
  - rewrite <- (length_map generateMergeKey (mergeDuplicates results)).
    rewrite mergeDuplicates_keys, <- (length_map generateMergeKey results).
    apply NoDup_incl_length; [exact Hnd|].
    intros k Hk. apply (group_keys_are_input_keys generateMergeKey results k), Hk.
Qed.

(** X7 (distinct offers pass): a list of offers with pairwise different keys
    is returned as it is, in the same order. *)
Theorem mergeDuplicates_keeps_distinct (results : list T) :
  List.NoDup (map generateMergeKey results) -> mergeDuplicates results = results.
Proof. apply mergeDuplicates_distinct. Qed.
End MergeSelection.

Lemma mergeDuplicates_keeps_distinct_witness :
  mergeDuplicates [athens_patras_morning; athens_patras_evening; athens_volos_morning]
  = [athens_patras_morning; athens_patras_evening; athens_volos_morning].
Proof.
  apply (mergeDuplicates_keeps_distinct (H := Reference.runtime)).
  repeat (apply List.NoDup_cons; [simpl; intuition discriminate|]).
  apply List.NoDup_nil.
Defined.

(** ** Durations in text *)

Lemma digits_prefix_digits (s : string) : all_digits (fst (digits_prefix s)) = true.
Proof.
  induction s as [|x rest IH]; [reflexivity|]. simpl.
  destruct (is_digit x) eqn:Hx; [|reflexivity].
  destruct (digits_prefix rest) as [run after]. simpl in *. rewrite Hx, IH. reflexivity.
Qed.

Lemma match_digits_here_digits (c : ascii) (s run : string) :
  match_digits_here c s = Some run -> all_digits run = true.
Proof.
  unfold match_digits_here. pose proof (digits_prefix_digits s) as Hrun.
  destruct (digits_prefix s) as [[|d ds] [|x after]]; try discriminate.
  destruct (Ascii.eqb x c); [|discriminate]. intros [= <-]. exact Hrun.
Qed.

Lemma match_digits_before_digits (c : ascii) (s run : string) :
  match_digits_before c s = Some run -> all_digits run = true.
Proof.
  induction s as [|x rest IH]; cbn [match_digits_before].
  - destruct (match_digits_here c "") eqn:Hhere; [|discriminate].
    intros [= <-]. exact (match_digits_here_digits _ _ _ Hhere).
  - destruct (match_digits_here c (String x rest)) eqn:Hhere; [|exact IH].
    intros [= <-]. exact (match_digits_here_digits _ _ _ Hhere).
Qed.

Lemma parseInt_fold_nonneg (ds : string) (acc : Z) :
  (0 <= acc)%Z -> all_digits ds = true ->
  (0 <= fold_left (fun acc c => (10 * acc + (Z.of_nat (nat_of_ascii c) - 48))%Z)
                  (list_ascii_of_string ds) acc)%Z.
Proof.
  revert acc. induction ds as [|c ds IH]; intros acc Hacc Hds; [exact Hacc|].
  simpl in Hds. apply andb_true_iff in Hds. destruct Hds as [Hc Hds].
  cbn [list_ascii_of_string fold_left]. apply IH; [|exact Hds].
  unfold is_digit in Hc. apply andb_true_iff in Hc. destruct Hc as [Hc _].
  apply Nat.leb_le in Hc. lia.
Qed.

Lemma parseInt_digits_nonneg (ds : string) :
  all_digits ds = true -> (0 <= parseInt_digits ds)%Z.
Proof. apply parseInt_fold_nonneg. lia. Qed.

Lemma capture_nonneg (c : ascii) (s : string) :
  (0 <= parseInt_digits (default "0" (match_digits_before c s)))%Z.
Proof.
  destruct (match_digits_before c s) as [run|] eqn:Hrun;
    [|apply parseInt_digits_nonneg; reflexivity].
  apply parseInt_digits_nonneg, (match_digits_before_digits c s), Hrun.
Qed.

Section Durations.
Context {S : Type}.

(** X8 (a duration in text): on a string [parseDuration] never throws, leaves
    the state alone, and returns a whole number of minutes that is not
    negative. *)
Theorem parseDuration_text (s : string) (st : S) :
  exists minutes : Z,
    (0 <= minutes)%Z /\
    parseDuration (JStr s) st = (Fulfilled (num_of_Z minutes), st).
Proof.
  eexists. split; [|reflexivity].
  pose proof (capture_nonneg "h" s). pose proof (capture_nonneg "m" s). lia.
Qed.

Lemma no_digit_here (c : ascii) (x : ascii) (rest : string) :
  is_digit x = false -> match_digits_here c (String x rest) = None.
Proof. intros Hx. unfold match_digits_here. cbn [digits_prefix]. rewrite Hx. reflexivity. Qed.

(** Text without digits is passed over. *)
Lemma match_digits_before_text (c : ascii) (text rest : string) :
  no_digit text = true ->
  match_digits_before c (text +:+ rest) = match_digits_before c rest.
Proof.
  intros Htext. induction text as [|x text IH]; [reflexivity|].
  simpl in Htext. apply andb_true_iff in Htext. destruct Htext as [Hx Htext].
  apply negb_true_iff in Hx.
  change (String x text +:+ rest) with (String x (text +:+ rest)).
  cbn [match_digits_before]. rewrite (no_digit_here c x _ Hx). exact (IH Htext).
Qed.

(** X9 (hours, then minutes): in a text of the form
    [<text><digits>h<text><digits>m<anything>], where the texts hold no
    digit, the result is sixty times the first number plus the second. *)
Theorem parseDuration_hours_then_minutes (before hours between minutes rest : string)
    (st : S) :
  no_digit before = true -> no_digit between = true ->
  all_digits hours = true -> hours <> "" ->
  all_digits minutes = true -> minutes <> "" ->
  parseDuration
    (JStr (before +:+ hours +:+ "h" +:+ between +:+ minutes +:+ "m" +:+ rest)) st
  = (Fulfilled (num_of_Z (parseInt_digits hours * 60 + parseInt_digits minutes)), st).
Proof.
  intros Hbefore Hbetween Hh Hh0 Hm Hm0.
  destruct hours as [|h0 hs]; [contradiction|].
  destruct minutes as [|m0 ms]; [contradiction|].
  unfold parseDuration, ret.
  rewrite !(match_digits_before_text _ before) by exact Hbefore.
  change ("h" +:+ between +:+ String m0 ms +:+ "m" +:+ rest)
    with (String "h" (between +:+ String m0 ms +:+ "m" +:+ rest)).
  rewrite (match_digits_before_hit "h" h0 hs _ Hh eq_refl).
  rewrite (match_digits_before_skip "m" (String h0 hs) "h" _ Hh eq_refl eq_refl).
  rewrite (match_digits_before_text _ between) by exact Hbetween.
  change ("m" +:+ rest) with (String "m" rest).
  rewrite (match_digits_before_hit "m" m0 ms rest Hm eq_refl).
  reflexivity.
Qed.

Lemma digit_then_rest (c x : ascii) (rest : string) :
  digit_then c (String x rest) = false -> digit_then c rest = false.
Proof.
  cbn [digit_then]. destruct rest as [|y rest]; [reflexivity|].
  intros Hno. apply orb_false_iff in Hno. tauto.
Qed.

Lemma match_digits_here_needs_digit_then (c : ascii) (s : string) :
  is_digit c = false -> digit_then c s = false -> match_digits_here c s = None.
Proof.
  intros Hc. unfold match_digits_here.
  induction s as [|x rest IH]; intros Hno; [reflexivity|].
  cbn [digits_prefix]. destruct (is_digit x) eqn:Hx; [|reflexivity].
  specialize (IH (digit_then_rest _ _ _ Hno)).
  destruct rest as [|y rest']; [reflexivity|].
  cbn [digit_then] in Hno. rewrite Hx in Hno. apply orb_false_iff in Hno.
  destruct Hno as [Hy _]. cbn [andb] in Hy.
  remember (String y rest') as rest eqn:Hrest.
  destruct (digits_prefix rest) as [run after] eqn:Hprefix.
  destruct after as [|z after]; [reflexivity|].
  destruct run as [|d run].
  - subst rest. cbn [digits_prefix] in Hprefix.
    destruct (is_digit y) eqn:Hdy.
    + destruct (digits_prefix rest'); discriminate.
    + injection Hprefix as <- <-. rewrite Hy. reflexivity.
  - destruct (Ascii.eqb z c); [discriminate IH | reflexivity].
Qed.

Lemma match_digits_before_needs_digit_then (c : ascii) (s : string) :
  is_digit c = false -> digit_then c s = false -> match_digits_before c s = None.
Proof.
  intros Hc. induction s as [|x rest IH]; intros Hno.
  - reflexivity.
  - cbn [match_digits_before].
    rewrite (match_digits_here_needs_digit_then c _ Hc Hno).
    exact (IH (digit_then_rest _ _ _ Hno)).
Qed.

(** X10 (no unit, no minutes): a text in which no digit is directly followed
    by [h] or by [m] gives 0, whatever numbers it holds; so does
    ["150 minutes"], where a space separates the number from the word. *)
Theorem parseDuration_needs_unit (s : string) (st : S) :
  digit_then "h" s = false -> digit_then "m" s = false ->
  parseDuration (JStr s) st = (Fulfilled (Fin 0), st).
Proof.
  intros Hh Hm. unfold parseDuration.
  rewrite (match_digits_before_needs_digit_then "h" s eq_refl Hh).
  rewrite (match_digits_before_needs_digit_then "m" s eq_refl Hm).
  reflexivity.
Qed.
End Durations.

Lemma parseDuration_hours_then_minutes_witness :
  parseDuration (JStr "about 2h 30min") tt = (Fulfilled (Fin 150), tt).
Proof.
  apply (parseDuration_hours_then_minutes "about " "2" " " "30" "in" tt);
    try reflexivity; discriminate.
Defined.

Lemma parseDuration_needs_unit_witness :
  parseDuration (JStr "150 minutes") tt = (Fulfilled (Fin 0), tt).
Proof.
  apply (parseDuration_needs_unit "150 minutes" tt); reflexivity.
Defined.

(** ** Segments and special offers *)

Lemma mapM_outcome {S A B} (f : A -> M S B) (ok : A -> bool) (R : A -> B -> Prop)
    (xs : list A) (st : S) :
  (forall x, ok x = true -> exists y, f x st = (Fulfilled y, st) /\ R x y) ->
  (forall x, ok x = false -> f x st = (Rejected TypeError, st)) ->
  if forallb ok xs
  then exists ys, mapM f xs st = (Fulfilled ys, st) /\ Forall2 R xs ys
  else mapM f xs st = (Rejected TypeError, st).
Proof.
  intros Hok Hbad. induction xs as [|x xs IH].
  - exists []. split; [reflexivity | constructor].
  - cbn [forallb]. destruct (ok x) eqn:Hx; cbn [andb].
    + destruct (Hok x Hx) as (y & Hy & Hxy). destruct (forallb ok xs).
      * destruct IH as (ys & Hys & Hall). exists (y :: ys).
        split; [|constructor; assumption].
        cbn [mapM]. unfold bind. rewrite Hy. cbn beta iota. rewrite Hys. reflexivity.
      * cbn [mapM]. unfold bind. rewrite Hy. cbn beta iota. rewrite IH. reflexivity.
    + cbn [mapM]. unfold bind. rewrite (Hbad x Hx). reflexivity.
Qed.

Lemma mapM_fulfilled {S A B} (f : A -> M S B) (xs : list A) (st st' : S) (ys : list B) :
  mapM f xs st = (Fulfilled ys, st') ->
  Forall2 (fun x y => exists s1 s2, f x s1 = (Fulfilled y, s2)) xs ys.
Proof.
  revert st st' ys. induction xs as [|x xs IH]; intros st st' ys.
  - intros [= <- _]. constructor.
  - cbn [mapM]. unfold bind at 1. destruct (f x st) as [[y|e] s1] eqn:Hy; [|discriminate].
    unfold bind at 1. destruct (mapM f xs s1) as [[ys'|e] s2] eqn:Hys; [|discriminate].
    intros [= <- _]. constructor; [eauto | exact (IH _ _ _ Hys)].
Qed.

Section SegmentsAndOffers.
Context `{JsRuntime} {S : Type}.

(** X11 (segments are all or nothing): [normalizeSegments] returns one segment
    per entry, each with the parsed duration of its entry, when the value is
    an array whose entries are all readable; for any other value, and as soon
    as one entry is null, undefined or without a duration that is a number or
    a string, it throws a TypeError and no segment is returned. *)
Theorem normalizeSegments_outcome (segments : JsVal) (st : S) :
  match segments with
  | JArr entries =>
      if forallb segment_readable entries then
        exists normalized,
          normalizeSegments segments st = (Fulfilled normalized, st) /\
          Forall2 (fun entry segment =>
                     parseDuration entry.["duration"] st
                     = (Fulfilled (seg_duration segment), st))
                  entries normalized
      else normalizeSegments segments st = (Rejected TypeError, st)
  | _ => normalizeSegments segments st = (Rejected TypeError, st)
  end.
Proof.
  destruct segments as [| | | | | entries |]; try reflexivity.
  unfold normalizeSegments, Array_map. apply mapM_outcome.
  - intros seg Hseg. unfold segment_readable in Hseg.
    apply andb_true_iff in Hseg. destruct Hseg as [Hobject Hduration].
    apply negb_true_iff in Hobject.
    unfold bind at 1, object_coercible. rewrite Hobject. unfold ret at 1.
    unfold bind at 1.
    destruct (seg.["duration"]) as [| | |n|s| |]; try discriminate;
      (eexists; split; reflexivity).
  - intros seg Hseg. unfold segment_readable in Hseg.
    unfold bind at 1, object_coercible.
    destruct (nullish seg); [reflexivity|]. unfold ret at 1.
    unfold bind at 1.
    destruct (seg.["duration"]) as [| | |n|s| |]; try discriminate; reflexivity.
Qed.

Lemma specialDeal_offer_kinds (deal : JsVal) (s1 s2 : S) (offers : list SpecialOffer) :
  specialDeal_offer deal s1 = (Fulfilled offers, s2) ->
  (length offers <= 1)%nat /\
  Forall (fun o => so_type o = FirstTime \/ so_type o = Discount) offers.
Proof.
  unfold specialDeal_offer. destruct deal as [| | | |d| |]; try discriminate.
  destruct (includes (toLowerCase d) "first").
  { intros [= <- _]. split; [simpl; lia|]. constructor; [left; reflexivity | constructor]. }
  destruct (_ || _); intros [= <- _].
  - split; [simpl; lia|]. constructor; [right; reflexivity | constructor].
  - split; [simpl; lia | constructor].
Qed.

(** X12 (kinds of special offers): when [extractSpecialOffers] returns, every
    offer is of type first-time or discount, never package or loyalty, and
    there are at most two offers more than [data.specialDeals] has entries. *)
Theorem extractSpecialOffers_kinds (data : JsVal) (st st' : S) (offers : list SpecialOffer) :
  extractSpecialOffers data st = (Fulfilled offers, st') ->
  Forall (fun o => so_type o = FirstTime \/ so_type o = Discount) offers /\
  (length offers <= 2 + specialDeals_count data)%nat.
Proof.
  unfold extractSpecialOffers, specialDeals_count.
  set (firstTime := if truthy data.["firstTimeDeal"] then _ else _).
  set (discount := if truthy data.["discount"] then _ else _).
  assert (HfirstTime : (length firstTime <= 1)%nat /\
            Forall (fun o => so_type o = FirstTime \/ so_type o = Discount) firstTime).
  { subst firstTime. destruct (truthy data.["firstTimeDeal"]); split; simpl; try lia.
    - constructor; [left; reflexivity | constructor].
    - constructor. }
  assert (Hdiscount : (length discount <= 1)%nat /\
            Forall (fun o => so_type o = FirstTime \/ so_type o = Discount) discount).
  { subst discount. destruct (truthy data.["discount"]); split; simpl; try lia.
    - constructor; [right; reflexivity | constructor].
    - constructor. }
  clearbody firstTime discount.
  assert (Hspecial : forall special : list SpecialOffer,
            (length special <= match data.["specialDeals"] with
                               | JArr items => length items
                               | _ => 0
                               end)%nat ->
            Forall (fun o => so_type o = FirstTime \/ so_type o = Discount) special ->
            Forall (fun o => so_type o = FirstTime \/ so_type o = Discount)
                   (firstTime ++ discount ++ special) /\
            (length (firstTime ++ discount ++ special)
             <= 2 + match data.["specialDeals"] with
                    | JArr items => length items
                    | _ => 0
                    end)%nat).
  { intros special Hlen Hkinds. split.
    - apply Forall_app. split; [tauto|]. apply Forall_app. tauto.
    - rewrite !length_app. lia. }
  unfold bind at 1. destruct (truthy data.["specialDeals"]).
  - unfold Array_map. destruct (data.["specialDeals"]) as [| | | | |items|]; try discriminate.
    unfold bind at 1.
    destruct (mapM specialDeal_offer items st) as [[found|e] s1] eqn:Hfound; [|discriminate].
    intros [= <- _]. apply Hspecial.
    + apply mapM_fulfilled in Hfound.
      apply (concat_at_most_one _ _ _ Hfound).
      intros x y (s2 & s3 & Hxy). apply (specialDeal_offer_kinds _ _ _ _ Hxy).
    + apply mapM_fulfilled in Hfound. apply List.Forall_forall. intros o Ho.
      destruct (concat_related _ _ _ _ Hfound Ho) as (x & y & _ & (s2 & s3 & Hxy) & Hoy).
      destruct (specialDeal_offer_kinds _ _ _ _ Hxy) as [_ Hkinds].
      rewrite List.Forall_forall in Hkinds. exact (Hkinds o Hoy).
  - intros [= <- _]. apply Hspecial; [apply Nat.le_0_l | constructor].
Qed.
End SegmentsAndOffers.

Lemma extractSpecialOffers_kinds_witness :
  exists offers,
    extractSpecialOffers hotel_with_offers tt = (Fulfilled offers, tt) /\
    map so_type offers = [FirstTime; Discount; Discount; FirstTime] /\
    Forall (fun o => so_type o = FirstTime \/ so_type o = Discount) offers /\
    (length offers <= 2 + specialDeals_count hotel_with_offers)%nat.
Proof.
  eexists. split; [reflexivity|]. split; [reflexivity|].
  apply (extractSpecialOffers_kinds hotel_with_offers tt tt). reflexivity.
Defined.

(** ** Provider records after normalization *)

Section ProviderRecords.
Context `{JsRuntime}.

Lemma js_or_text (s : string) : JStr s ||| JStr "" = JStr s.
Proof. destruct s; reflexivity. Qed.

Lemma normalizeSegments_of_route {S} (segments : list RouteSegment) :
  exists normalized,
    returns (S := S) (normalizeSegments (JArr (map RouteSegment_object segments)))
            normalized /\
    Forall2 (fun s n => seg_from n = nowhere /\ seg_to n = nowhere /\
                        seg_airline n = JStr (rs_airline s) /\
                        seg_flightNumber n = JStr (rs_flightNumber s))
            segments normalized.
Proof.
  unfold normalizeSegments, Array_map.
  induction segments as [|s segments IH].
  - exists []. split; [apply returns_ret | constructor].
  - destruct IH as (normalized & Hnormalized & Hall).
    eexists (_ :: normalized). split.
    + cbn [map mapM]. eapply returns_bind.
      * intros st. reflexivity.
      * eapply returns_bind; [exact Hnormalized | apply returns_ret].
    + constructor; [|exact Hall]. cbn.
      split; [reflexivity|]. split; [reflexivity|].
      split; [destruct (rs_airline s) | destruct (rs_flightNumber s)]; reflexivity.
Qed.

Lemma calculateTotalDuration_of_route {S} (r : FlightRoute) :
  exists total, returns (S := S) (calculateTotalDuration (Raw_object (RawFlight r))) total.
Proof.
  unfold calculateTotalDuration.
  cbn [Raw_object prop assoc String.eqb Ascii.eqb Bool.eqb default
       option_rect fr_segments totalDuration].
  destruct (truthy _); [|eexists; apply returns_ret].
  destruct (parseDuration_string (S := S) (totalDuration r)) as [m Hm]. eauto.
Qed.

Lemma normalizeFlight_route_run (r : FlightRoute) (source : JsVal) (w : World) :
  exists f w',
    normalizeFlight (Raw_object (RawFlight r)) source w = (Fulfilled f, w') /\
    amount (nf_price f) = JQ 0 /\
    currency (nf_price f) = JStr "USD" /\
    nf_bookingUrl f = JStr "#" /\
    nf_source f = source /\
    Forall2 (fun s n => seg_from n = nowhere /\ seg_to n = nowhere /\
                        seg_airline n = JStr (rs_airline s) /\
                        seg_flightNumber n = JStr (rs_flightNumber s))
            (fr_segments r) (nf_segments f).
Proof.
  destruct (normalizeSegments_of_route (S := World) (fr_segments r))
    as (segments & Hsegments & Hall).
  destruct (calculateTotalDuration_of_route (S := World) r) as (total & Htotal).
  set (data := Raw_object (RawFlight r)) in *.
  assert (Hid : data.["id"] = JUndefined) by reflexivity.
  assert (Hsegs : data.["segments"] ||| data.["flights"] ||| JArr []
                  = JArr (map RouteSegment_object (fr_segments r))) by reflexivity.
  assert (Hobject : nullish data = false) by reflexivity.
  assert (Hprice : normalizePrice data.["price"] data.["currency"]
                   = {| amount := JQ 0; currency := JStr "USD";
                        originalCurrency := JUndefined; exchangeRate := JUndefined |})
    by reflexivity.
  assert (Hurl : data.["url"] ||| data.["bookingUrl"] ||| JStr "#" = JStr "#")
    by reflexivity.
  clearbody data.
  eexists _, _. split.
  - unfold normalizeFlight, object_coercible, make_id, bind.
    rewrite Hid, Hsegs, Hobject. cbn [truthy].
    unfold ret at 1. unfold Math_random_toString36. cbv beta iota.
    unfold ret at 1. cbv beta iota.
    rewrite Hsegments, Htotal.
    unfold new_Date_toISOString, bind, Date_now, ret. cbv beta iota. reflexivity.
  - cbn [nf_price nf_bookingUrl nf_source nf_segments]. rewrite Hprice, Hurl.
    split; [reflexivity|]. split; [reflexivity|]. split; [reflexivity|].
    split; [reflexivity | exact Hall].
Qed.

(** X13 (a provider's route, normalized): [normalizeFlight] never throws on a
    [FlightRoute]; the price of the result is 0 USD whatever [totalPrice] is,
    the booking link is ["#"], and every segment keeps its airline and flight
    number but has an empty departure and arrival place. *)
Theorem normalizeFlight_of_route (r : FlightRoute) (source : JsVal) (w : World) :
  exists f w',
    normalizeFlight (Raw_object (RawFlight r)) source w = (Fulfilled f, w') /\
    amount (nf_price f) = JQ 0 /\
    currency (nf_price f) = JStr "USD" /\
    nf_bookingUrl f = JStr "#" /\
    nf_source f = source /\
    Forall2 (fun s n => seg_from n = nowhere /\ seg_to n = nowhere /\
                        seg_airline n = JStr (rs_airline s) /\
                        seg_flightNumber n = JStr (rs_flightNumber s))
            (fr_segments r) (nf_segments f).
Proof. exact (normalizeFlight_route_run r source w). Qed.

Lemma specialDeals_first {S} (deals : list string) :
  exists found,
    returns (S := S) (mapM specialDeal_offer (map JStr deals)) found /\
    existsb is_first_time (concat found) = existsb says_first deals.
Proof.
  induction deals as [|deal deals IH].
  - exists []. split; [apply returns_ret | reflexivity].
  - destruct IH as (found & Hfound & Hfirst).
    assert (Hdeal : exists offers,
              returns (S := S) (specialDeal_offer (JStr deal)) offers /\
              existsb is_first_time offers = says_first deal).
    { unfold specialDeal_offer, says_first.
      destruct (includes (toLowerCase deal) "first").
      - eexists. split; [apply returns_ret | reflexivity].
      - destruct (_ || _); eexists; (split; [apply returns_ret | reflexivity]). }
    destruct Hdeal as (offers & Hoffers & Hoffers_first).
    exists (offers :: found). split.
    + cbn [map mapM]. eapply returns_bind; [exact Hoffers|].
      eapply returns_bind; [exact Hfound | apply returns_ret].
    + cbn [concat existsb]. rewrite existsb_app, Hoffers_first, Hfirst. reflexivity.
Qed.

Lemma extractSpecialOffers_of_deal {S} (d : HotelDeal) :
  exists offers,
    returns (S := S) (extractSpecialOffers (Raw_object (RawHotel d))) offers /\
    existsb is_first_time offers
    = flagged_first_time d || existsb says_first (specialDeals d).
Proof.
  destruct (specialDeals_first (S := S) (specialDeals d)) as (found & Hfound & Hfirst).
  unfold extractSpecialOffers. rewrite RawHotel_specialDeals. cbn [truthy Array_map].
  eexists. split.
  - eapply returns_bind; [|apply returns_ret].
    eapply returns_bind; [exact Hfound | apply returns_ret].
  - rewrite !existsb_app, Hfirst. unfold flagged_first_time.
    destruct d as [? ? ? ? ? ? ? ? ? ? ? [[|]|] [n|]]; cbn -[truthy says_first];
      try destruct (truthy (JNum n)); reflexivity.
Qed.

(** X14 (a provider's hotel, normalized): [normalizeHotel] never throws on a
    [HotelDeal]; the result keeps the name and the price, has an empty
    address, city and country whatever [location] is, has no room types, and
    has a first-time offer exactly when the provider marked the deal as a
    first-time deal or one of its special deals says [first]. *)
Theorem normalizeHotel_of_deal (d : HotelDeal) (source : JsVal) (w : World) :
  exists h w',
    normalizeHotel (Raw_object (RawHotel d)) source w = (Fulfilled h, w') /\
    nh_name h = JStr (hd_name d) /\
    hp_amount (nh_price h) = JQ (hd_price d) /\
    address (nh_location h) = JStr "" /\
    loc_city (nh_location h) = JStr "" /\
    country (nh_location h) = JStr "" /\
    nh_roomTypes h = [] /\
    existsb is_first_time (nh_specialOffers h)
    = flagged_first_time d || existsb says_first (specialDeals d).
Proof.
  destruct (extractSpecialOffers_of_deal (S := World) d) as (offers & Hoffers & Hfirst).
  set (data := Raw_object (RawHotel d)) in *.
  assert (Hid : data.["id"] = JUndefined)
    by (destruct d as [? ? ? ? ? ? ? ? ? ? ? [?|] [?|]]; reflexivity).
  assert (Hrooms : data.["rooms"] ||| data.["roomTypes"] ||| JArr [] = JArr [])
    by (destruct d as [? ? ? ? ? ? ? ? ? ? ? [?|] [?|]]; reflexivity).
  assert (Hobject : nullish data = false) by reflexivity.
  assert (Hname : data.["name"] ||| data.["hotelName"] ||| JStr "" = JStr (hd_name d))
    by (destruct d as [[|? ?] ? ? ? ? ? ? ? ? ? ? [?|] [?|]]; reflexivity).
  assert (Hprice : hp_amount (normalizeHotelPrice data.["price"] data.["currency"])
                   = JQ (hd_price d))
    by (destruct d as [? ? ? ? ? ? ? ? ? ? ? [?|] [?|]]; reflexivity).
  assert (Haddress : data.["address"] ||| data.["location"]?.["address"] ||| JStr ""
                     = JStr "")
    by (destruct d as [? ? ? ? ? ? ? ? ? ? ? [?|] [?|]]; reflexivity).
  assert (Hcity : data.["city"] ||| data.["location"]?.["city"] ||| JStr "" = JStr "")
    by (destruct d as [? ? ? ? ? ? ? ? ? ? ? [?|] [?|]]; reflexivity).
  assert (Hcountry : data.["country"] ||| data.["location"]?.["country"] ||| JStr ""
                     = JStr "")
    by (destruct d as [? ? ? ? ? ? ? ? ? ? ? [?|] [?|]]; reflexivity).
  clearbody data.
  eexists _, _. split.
  - unfold normalizeHotel, object_coercible, make_id, bind.
    rewrite Hid, Hrooms, Hobject. cbn [truthy].
    unfold ret at 1. unfold Math_random_toString36. cbv beta iota.
    unfold ret at 1. cbv beta iota.
    unfold normalizeRoomTypes, Array_map. cbn [mapM]. unfold ret at 1. cbv beta iota.
    rewrite Hoffers.
    unfold new_Date_toISOString, bind, Date_now, ret. cbv beta iota. reflexivity.
  - cbn [nh_name nh_price nh_location address loc_city country nh_roomTypes
         nh_specialOffers].
    rewrite Hname, Hprice, Haddress, Hcity, Hcountry.
    repeat (split; [reflexivity|]). exact Hfirst.
Qed.
End ProviderRecords.

(** ** Searches and their results *)

Lemma returns_run {S A} (m : M S A) (a b : A) (s s' : S) :
  returns m a -> m s = (Fulfilled b, s') -> b = a /\ s' = s.
Proof. intros Ha Hb. rewrite (Ha s) in Hb. injection Hb as <- <-. auto. Qed.

Lemma push_fulfilled_silent {A B} (call : A -> Settled (list B)) (searches : list A) :
  (forall search, In search searches -> quiet (call search) = Fulfilled []) ->
  push_fulfilled (map call searches) = [].
Proof.
  intros Hsilent. unfold push_fulfilled.
  induction searches as [|search searches IH]; [reflexivity|].
  cbn [map flat_map]. rewrite IH by (intros; apply Hsilent; right; assumption).
  specialize (Hsilent search (or_introl eq_refl)).
  destruct (call search) as [value|e]; [|reflexivity].
  injection Hsilent as ->. reflexivity.
Qed.

Lemma concat_all_empty {A B} (xs : list A) (ys : list (list B)) :
  Forall2 (fun _ y => y = []) xs ys -> concat ys = [].
Proof.
  intros Hall. induction Hall as [|x y xs ys Hy _ IH]; [reflexivity|].
  subst y. exact IH.
Qed.

Section SilentProviders.
Context `{JsRuntime} (P : Providers) {S : Type} (Hsilent : silent P).

Lemma findMultiCityRoutes_silent from to date passengers :
  returns (S := S) (findMultiCityRoutes P from to date passengers) [].
Proof.
  destruct Hsilent as (_ & Hroute & _).
  assert (Hhub : forall hub,
            returns (S := S)
              (try_catch
                 (route1 <- await (searchRoute P from hub date passengers) ;;
                  route2 <- await (searchRoute P hub to date passengers) ;;
                  match route1, route2 with
                  | r1 :: _, r2 :: _ =>
                      ret [{| fr_segments := fr_segments r1 ++ fr_segments r2;
                              totalPrice := double_add (totalPrice r1) (totalPrice r2);
                              totalDuration :=
                                addDurations (totalDuration r1) (totalDuration r2);
                              layovers := double_add (double_add (layovers r1) (layovers r2)) 1;
                              fr_source := "multi-city" |}]
                  | _, _ => ret []
                  end)
                 (fun _error => ret [])) []).
  { intros hub s. unfold try_catch, bind, await, ret.
    pose proof (Hroute from hub date passengers) as H1.
    destruct (searchRoute P from hub date passengers) as [[|r1 ?]|?];
      try discriminate H1; [|reflexivity].
    destruct (searchRoute P hub to date passengers); reflexivity. }
  unfold findMultiCityRoutes.
  match goal with
  | |- context [mapM ?f ?xs] =>
      destruct (returns_mapM_related (S := S) f (fun _ found => found = []) xs)
        as (found & Hfound & Hnone);
        [intros hub _; exists []; split; [apply Hhub | reflexivity]|]
  end.
  pose proof (concat_all_empty _ _ Hnone) as Hconcat.
  intros s. unfold bind at 1. rewrite (Hfound s). unfold ret. rewrite Hconcat. reflexivity.
Qed.

Lemma searchFlights_silent from to date passengers flexible :
  returns (S := S) (searchFlights P from to date passengers flexible) [].
Proof.
  destruct Hsilent as (Hflights & _).
  unfold searchFlights, Promise_allSettled. intros s. unfold bind, ret.
  rewrite (push_fulfilled_silent (fun search : FlightSearch => search from to date passengers))
    by (intros search Hin; apply Hflights, Hin).
  destruct flexible; [rewrite findMultiCityRoutes_silent|]; reflexivity.
Qed.

Lemma searchHotels_silent location checkIn checkOut guests :
  returns (S := S) (searchHotels P location checkIn checkOut guests) [].
Proof.
  destruct Hsilent as (_ & _ & Hhotels & _).
  unfold searchHotels, Promise_allSettled. intros s. unfold bind, ret.
  rewrite (push_fulfilled_silent
             (fun search : HotelSearch => search location checkIn checkOut guests))
    by (intros search Hin; apply Hhotels, Hin).
  reflexivity.
Qed.

Lemma searchExperiences_silent location date :
  returns (S := S) (searchExperiences P location date) [].
Proof.
  destruct Hsilent as (_ & _ & _ & Hexperiences).
  unfold searchExperiences, Promise_allSettled. intros s. unfold bind, ret.
  rewrite (push_fulfilled_silent (fun search : ExperienceSearch => search location date))
    by (intros search Hin; apply Hexperiences, Hin).
  reflexivity.
Qed.
End SilentProviders.

Ltac name_silent S Hsilent :=
  repeat match goal with
    | |- context [searchFlights ?P ?a ?b ?c ?d ?e] =>
        let Hv := fresh "Hroutes" in
        pose proof (searchFlights_silent P (S := S) Hsilent a b c d e) as Hv;
        generalize dependent (searchFlights (S := S) P a b c d e); intros
    | |- context [searchHotels ?P ?a ?b ?c ?d] =>
        let Hv := fresh "Hdeals" in
        pose proof (searchHotels_silent P (S := S) Hsilent a b c d) as Hv;
        generalize dependent (searchHotels (S := S) P a b c d); intros
    | |- context [searchExperiences ?P ?a ?b] =>
        let Hv := fresh "Hexps" in
        pose proof (searchExperiences_silent P (S := S) Hsilent a b) as Hv;
        generalize dependent (searchExperiences (S := S) P a b); intros
    end.

Lemma searchAllSources_silent `{JsRuntime} (P : Providers) {S : Type} (q : BookingQuery) :
  silent P -> returns (S := S) (searchAllSources P q) no_results.
Proof.
  intros Hsilent. unfold searchAllSources.
  destruct q as [type from to date returnDate passengers flexible budget].
  cbn [q_type q_from q_to q_date q_returnDate q_passengers q_flexible].
  destruct type; try destruct from as [from|]; try destruct (String.eqb from "") eqn:E;
    cbn [negb]; name_silent S Hsilent; run_settled.
Qed.

(** Which list of the results a query can fill. *)
Lemma searchAllSources_slots `{JsRuntime} (P : Providers) {S : Type} (q : BookingQuery) :
  exists r,
    returns (S := S) (searchAllSources P q) r /\
    (sr_hotels r <> [] \/ sr_experiences r <> [] ->
     q_type q = TAll /\ origin_given q = true) /\
    (sr_transport r <> [] -> q_type q = TAll /\ origin_given q = false) /\
    (transport_query q -> r = no_results).
Proof.
  unfold searchAllSources, origin_given, transport_query.
  destruct q as [type from to date returnDate passengers flexible budget].
  cbn [q_type q_from q_to q_date q_returnDate q_passengers q_flexible].
  destruct type; try destruct from as [from|]; try destruct (String.eqb from "") eqn:E;
    cbn [negb]; name_searches S;
    (eexists; split; [run_settled|]);
    cbv [fulfilled_at Settled_map sr_transport sr_hotels sr_experiences]; simpl;
    (split; [|split]).
  all: try solve [intros [Hne | Hne]; congruence].
  all: try solve [intros Hne; congruence].
  all: try solve [intros [Hq | [Hq | Hq]]; first [discriminate Hq | reflexivity]].
  all: try solve [intros _; split; reflexivity].
Qed.

(** ** What a search returns *)


Lemma mapM_length {S A B} (f : A -> M S B) (xs : list A) (st st' : S) (ys : list B) :
  mapM f xs st = (Fulfilled ys, st') -> length ys = length xs.
Proof.
  intros Hrun. apply mapM_fulfilled in Hrun.
  induction Hrun as [|x y xs ys _ _ IH]; [reflexivity|]. simpl. rewrite IH. reflexivity.
Qed.

Section MergedLists.
Context `{JsRuntime} {T : Type} `{Offer T}.

Lemma merged_at_most_one (k : string) (results : list T) :
  (forall x : T, generateMergeKey x = k) ->
  (length (mergeDuplicates results) <= 1)%nat.
Proof.
  intros Hk. rewrite <- (length_map generateMergeKey).
  apply (constant_keys_at_most_one _ k).
  - rewrite mergeDuplicates_keys. apply (group_by_groups_of generateMergeKey results).
  - intros k' Hk'. apply in_map_iff in Hk'. destruct Hk' as (x & <- & _). apply Hk.
Qed.




Lemma group_by_constant (k : string) (first : T) (rest : list T) :
  (forall x : T, generateMergeKey x = k) ->
  group_by generateMergeKey (first :: rest) = [(k, first :: rest)].
Proof.
  intros Hk. induction rest as [|x rest IH] using rev_ind.
  - unfold group_by. simpl. rewrite Hk. reflexivity.
  - rewrite app_comm_cons, group_by_snoc, IH, Hk. simpl.
    rewrite String.eqb_refl. reflexivity.
Qed.

Lemma reduce_keeps_first (first : T) (rest : list T) :
  (forall x, In x rest -> js_lt (offer_amount x) (offer_amount first) = false) ->
  reduce cheaper first rest = first.
Proof.
  unfold reduce. induction rest as [|x rest IH] using rev_ind; intros Hrest;
    [reflexivity|].
  rewrite fold_left_app. cbn [fold_left].
  rewrite IH by (intros y Hy; apply Hrest, in_app_iff; left; exact Hy).
  unfold cheaper. rewrite Hrest; [reflexivity|].
  apply in_app_iff. right. left. reflexivity.
Qed.
End MergedLists.

Section FindBestDeals.
Context `{JsRuntime}.

Lemma better_hotel_either (best current : NormalizedHotel) :
  better_hotel best current = best \/ better_hotel best current = current.
Proof. unfold better_hotel. destruct (number_lt _ _); auto. Qed.

Lemma findBestDeals_items (merged : Normalized) :
  (length (findBestDeals merged) <= 3)%nat /\
  Forall (item_among (flights merged) (hotels merged)) (findBestDeals merged).
Proof.
  unfold findBestDeals.
  destruct (flights merged) as [|f fs] eqn:Hf; destruct (hotels merged) as [|h hs] eqn:Hh.
  - split; [simpl; lia | constructor].
  - pose proof (reduce_In better_hotel h hs better_hotel_either) as Hbest.
    destruct (find _ (h :: hs)) as [special|] eqn:Hfind.
    + apply find_some in Hfind. split; [simpl; lia|].
      constructor; [exact Hbest|]. constructor; [apply Hfind | constructor].
    + split; [simpl; lia|]. constructor; [exact Hbest | constructor].
  - pose proof (reduce_In cheaper f fs cheaper_either) as Hcheapest.
    split; [simpl; lia|]. constructor; [exact Hcheapest | constructor].
  - pose proof (reduce_In cheaper f fs cheaper_either) as Hcheapest.
    pose proof (reduce_In better_hotel h hs better_hotel_either) as Hbest.
    destruct (find _ (h :: hs)) as [special|] eqn:Hfind.
    + apply find_some in Hfind. split; [simpl; lia|].
      constructor; [exact Hcheapest|]. constructor; [exact Hbest|].
      constructor; [apply Hfind | constructor].
    + split; [simpl; lia|].
      constructor; [exact Hcheapest|]. constructor; [exact Hbest | constructor].
Qed.
End FindBestDeals.

Section SearchResults.
Context `{JsRuntime} (P : Providers) (JSON_stringify : BookingQuery -> string).

Lemma search_miss (query : BookingQuery) (a : Aggregator) :
  cache a !! generateCacheKey JSON_stringify query = None ->
  search P JSON_stringify query a = recompute P JSON_stringify query a.
Proof.
  intros Hmiss. rewrite search_unfold, (cache_lookup_absent _ _ Hmiss). reflexivity.
Qed.

Lemma normalizeAll_parts (results : SourceResults) (w w' : World) (n : Normalized) :
  normalizeAll results w = (Fulfilled n, w') ->
  exists w1 w2,
    mapM (fun f => normalizeFlight (Raw_object f) (source_or_unknown f))
         (sr_flights results) w = (Fulfilled (flights n), w1) /\
    mapM (fun h => normalizeHotel (Raw_object h) (source_or_unknown h))
         (sr_hotels results) w1 = (Fulfilled (hotels n), w2) /\
    mapM (fun t => normalizeTransport (Raw_object t) (source_or_unknown t))
         (sr_transport results) w2 = (Fulfilled (transport n), w') /\
    experiences n = sr_experiences results.
Proof.
  intros Hrun. unfold normalizeAll in Hrun. unfold bind at 1 in Hrun.
  destruct (mapM _ (sr_flights results) w) as [[fl|e] w1] eqn:Hfl; [|discriminate].
  unfold bind at 1 in Hrun.
  destruct (mapM _ (sr_hotels results) w1) as [[hl|e] w2] eqn:Hhl; [|discriminate].
  unfold bind at 1 in Hrun.
  destruct (mapM _ (sr_transport results) w2) as [[tl|e] w3] eqn:Htl; [|discriminate].
  injection Hrun as <- <-. exists w1, w2. cbn [flights hotels transport experiences].
  split; [first [reflexivity | exact Hfl]|]. split; [exact Hhl|].
  split; [exact Htl | reflexivity].
Qed.

(** The results of a recomputation, in terms of what the sources returned. *)
Lemma recompute_parts (query : BookingQuery) (a a' : Aggregator) (r : AggregatedResults) :
  recompute P JSON_stringify query a = (Fulfilled r, a') ->
  exists raw n w1,
    returns (S := Aggregator) (searchAllSources P query) raw /\
    normalizeAll raw (world a) = (Fulfilled n, w1) /\
    ar_flights r = mergeDuplicates (flights n) /\
    ar_hotels r = mergeDuplicates (hotels n) /\
    ar_transport r = mergeDuplicates (transport n) /\
    ar_experiences r = sr_experiences raw /\
    bestDeals r = findBestDeals (mergeAll n) /\
    sources r = extractSources raw.
Proof.
  intros Hrun.
  destruct (searchAllSources_returns P (S := Aggregator) query) as (raw & Hraw & _).
  unfold recompute, bind at 1 in Hrun. rewrite Hraw in Hrun.
  unfold bind at 1, in_world at 1 in Hrun.
  destruct (normalizeAll raw (world a)) as [[n|e] w1] eqn:Hn; [|discriminate Hrun].
  destruct (normalizeAll_parts _ _ _ _ Hn) as (_ & _ & _ & _ & _ & Hexperiences).
  cbv beta iota zeta delta
    [bind in_world cache_store ret new_Date_toISOString Date_now world cache] in Hrun.
  injection Hrun as <- _. exists raw, n, w1.
  cbn [ar_flights ar_hotels ar_transport ar_experiences bestDeals sources mergeAll
       flights hotels transport experiences].
  split; [exact Hraw|]. split; [exact Hn|].
  rewrite Hexperiences. repeat (split; [reflexivity|]). reflexivity.
Qed.
End SearchResults.

Section SearchProperties.
Context `{JsRuntime} (P : Providers) (JSON_stringify : BookingQuery -> string).

Lemma recompute_of_no_results (query : BookingQuery) (a a' : Aggregator)
    (r : AggregatedResults) :
  returns (S := Aggregator) (searchAllSources P query) no_results ->
  recompute P JSON_stringify query a = (Fulfilled r, a') ->
  all_empty r.
Proof.
  intros Hraw Hrun.
  unfold recompute, bind at 1 in Hrun. rewrite Hraw in Hrun.
  cbv beta iota zeta delta
    [bind in_world cache_store ret new_Date_toISOString Date_now world cache
     normalizeAll no_results mapM sr_flights sr_hotels sr_transport sr_experiences]
    in Hrun.
  injection Hrun as <- _. repeat split.
Qed.

(** X15 (providers that find nothing): when every provider search fails or
    resolves with an empty list, as every search of the repository does, a
    search that is not answered from the cache returns empty lists, no deal
    and no source, and does not throw. *)
Theorem search_of_silent_providers (query : BookingQuery) (a : Aggregator) :
  silent P ->
  cache a !! generateCacheKey JSON_stringify query = None ->
  exists results a',
    search P JSON_stringify query a = (Fulfilled results, a') /\
    all_empty results.
Proof.
  intros Hsilent Hmiss.
  destruct (search_succeeds P JSON_stringify query a) as (results & a' & Hrun).
  exists results, a'. split; [exact Hrun|].
  rewrite (search_miss P JSON_stringify query a Hmiss) in Hrun.
  exact (recompute_of_no_results query a a' results
           (searchAllSources_silent P query Hsilent) Hrun).
Qed.

(** X16 (buses, trains and ferries): whatever the providers deliver, a query
    for buses, trains or ferries that is not answered from the cache returns
    empty lists, no deal and no source. *)
Theorem search_for_transport (query : BookingQuery) (a : Aggregator) :
  transport_query query ->
  cache a !! generateCacheKey JSON_stringify query = None ->
  exists results a',
    search P JSON_stringify query a = (Fulfilled results, a') /\
    all_empty results.
Proof.
  intros Htransport Hmiss.
  destruct (search_succeeds P JSON_stringify query a) as (results & a' & Hrun).
  exists results, a'. split; [exact Hrun|].
  rewrite (search_miss P JSON_stringify query a Hmiss) in Hrun.
  destruct (searchAllSources_slots P (S := Aggregator) query)
    as (raw & Hraw & _ & _ & Hnone).
  rewrite (Hnone Htransport) in Hraw.
  exact (recompute_of_no_results query a a' results Hraw Hrun).
Qed.

Lemma normalized_none {A B} (f : A -> M World B) (xs : list A) (w w' : World)
    (ys : list B) :
  mapM f xs w = (Fulfilled ys, w') -> ys <> [] -> xs <> [].
Proof.
  intros Hrun Hys ->. apply Hys. cbn in Hrun. injection Hrun as <- _. reflexivity.
Qed.

(** X17 (which lists a query can fill): in the results of a search that is not
    answered from the cache, the hotels and the experiences can only be
    non-empty for a query of type [all] that names an origin, and the
    transport can only be non-empty for a query of type [all] that names
    none. *)
Theorem search_slots (query : BookingQuery) (a : Aggregator) :
  cache a !! generateCacheKey JSON_stringify query = None ->
  exists results a',
    search P JSON_stringify query a = (Fulfilled results, a') /\
    (ar_hotels results <> [] \/ ar_experiences results <> [] ->
     q_type query = TAll /\ origin_given query = true) /\
    (ar_transport results <> [] ->
     q_type query = TAll /\ origin_given query = false).
Proof.
  intros Hmiss.
  destruct (search_succeeds P JSON_stringify query a) as (results & a' & Hrun).
  exists results, a'. split; [exact Hrun|].
  rewrite (search_miss P JSON_stringify query a Hmiss) in Hrun.
  destruct (recompute_parts P JSON_stringify query a a' results Hrun)
    as (raw & n & w1 & Hraw & Hn & _ & Hhotels & Htransport & Hexperiences & _).
  destruct (searchAllSources_slots P (S := Aggregator) query)
    as (raw' & Hraw' & Hfilled & Hshifted & _).
  destruct (returns_run _ _ _ a a Hraw (Hraw' a)) as [-> _].
  destruct (normalizeAll_parts _ _ _ _ Hn) as (w2 & w3 & _ & Hhl & Htl & _).
  split.
  - intros [Hne | Hne]; apply Hfilled.
    + left. apply (normalized_none _ _ _ _ _ Hhl).
      intros Hnil. apply Hne. rewrite Hhotels, Hnil. reflexivity.
    + right. rewrite <- Hexperiences. exact Hne.
  - intros Hne. apply Hshifted. apply (normalized_none _ _ _ _ _ Htl).
    intros Hnil. apply Hne. rewrite Htransport, Hnil. reflexivity.
Qed.

(** X18 (at most one of each): a search that is not answered from the cache
    returns at most one flight, one hotel and one transport, however many the
    providers found, and at most three deals, each for a flight or a hotel of
    the results. *)
Theorem search_result_shape (query : BookingQuery) (a : Aggregator) :
  cache a !! generateCacheKey JSON_stringify query = None ->
  exists results a',
    search P JSON_stringify query a = (Fulfilled results, a') /\
    (length (ar_flights results) <= 1)%nat /\
    (length (ar_hotels results) <= 1)%nat /\
    (length (ar_transport results) <= 1)%nat /\
    (length (bestDeals results) <= 3)%nat /\
    Forall (item_among (ar_flights results) (ar_hotels results)) (bestDeals results).
Proof.
  intros Hmiss.
  destruct (search_succeeds P JSON_stringify query a) as (results & a' & Hrun).
  exists results, a'. split; [exact Hrun|].
  rewrite (search_miss P JSON_stringify query a Hmiss) in Hrun.
  destruct (recompute_parts P JSON_stringify query a a' results Hrun)
    as (raw & n & w1 & _ & _ & -> & -> & -> & _ & -> & _).
  split; [apply (merged_at_most_one "--"), flight_key_constant|].
  split; [apply (merged_at_most_one "--"), hotel_key_constant|].
  split; [apply (merged_at_most_one "[object Object]-[object Object]-[object Object]"),
                transport_key_constant|].
  apply (findBestDeals_items (mergeAll n)).
Qed.

(** X19 (the cache after a search): every search, answered from the cache or
    not, returns; afterwards the cache holds the returned results under the
    key of the query, and the entry of every other key is as it was. *)
Theorem search_cache_frame (query : BookingQuery) (a : Aggregator) :
  exists results a',
    search P JSON_stringify query a = (Fulfilled results, a') /\
    (exists stamp,
        cache a' !! generateCacheKey JSON_stringify query
        = Some {| data := results; timestamp := stamp |}) /\
    (forall key, key <> generateCacheKey JSON_stringify query ->
                 cache a' !! key = cache a !! key).
Proof.
  assert (Hrecompute : forall a0 : Aggregator,
            exists results a',
              recompute P JSON_stringify query a0 = (Fulfilled results, a') /\
              (exists stamp,
                  cache a' !! generateCacheKey JSON_stringify query
                  = Some {| data := results; timestamp := stamp |}) /\
              (forall key, key <> generateCacheKey JSON_stringify query ->
                           cache a' !! key = cache a0 !! key)).
  { intros [c w]. destruct (recompute_run P JSON_stringify query w)
      as (results & stamp & w' & Hrun).
    eexists _, _. split; [apply Hrun|]. cbn [cache]. split.
    - exists stamp. apply lookup_insert_eq.
    - intros key Hkey. apply lookup_insert_ne. congruence. }
  rewrite search_unfold.
  destruct (cache a !! generateCacheKey JSON_stringify query) as [entry|] eqn:Hentry.
  - rewrite (cache_lookup_entry _ _ _ Hentry).
    destruct (now_of a - timestamp entry <? cacheTTL)%Z.
    + exists (data entry), (tick a). split; [reflexivity|]. cbn [tick cache]. split.
      * exists (timestamp entry). rewrite Hentry. destruct entry. reflexivity.
      * reflexivity.
    + exact (Hrecompute (tick a)).
  - rewrite (cache_lookup_absent _ _ Hentry). exact (Hrecompute a).
Qed.

(** X20 (after clearCache): [clearCache] empties the cache and leaves the
    world alone; the next search of any query is computed again, whatever
    the cache held. *)
Theorem search_after_clearCache (query : BookingQuery) (a : Aggregator) :
  let cleared := snd (clearCache a) in
  cache cleared = ∅ /\
  world cleared = world a /\
  search P JSON_stringify query cleared = recompute P JSON_stringify query cleared.
Proof.
  intros cleared. split; [reflexivity|]. split; [reflexivity|].
  apply search_miss. apply lookup_empty.
Qed.
End SearchProperties.

Lemma placeholder_providers_silent : silent placeholder_providers.
Proof.
  unfold silent, placeholder_providers. cbn [flightSearches searchRoute hotelSearches
                                            experienceSearches].
  split; [|split; [|split]].
  - intros search Hin. apply repeat_spec in Hin. subst search. reflexivity.
  - reflexivity.
  - intros search Hin. apply repeat_spec in Hin. subst search. reflexivity.
  - intros search Hin. apply repeat_spec in Hin. subst search. reflexivity.
Qed.

Lemma search_of_silent_providers_witness :
  exists results a',
    search placeholder_providers stringify (query_of TAll (Some "ATH")) (fresh 0 1)
    = (Fulfilled results, a') /\
    all_empty results.
Proof.
  apply (search_of_silent_providers placeholder_providers stringify).
  - exact placeholder_providers_silent.
  - reflexivity.
Defined.

Lemma search_for_transport_witness :
  exists results a',
    search sample_providers stringify (query_of TFerry (Some "Piraeus")) (fresh 0 1)
    = (Fulfilled results, a') /\
    all_empty results.
Proof.
  apply (search_for_transport sample_providers stringify).
  - right. right. reflexivity.
  - reflexivity.
Defined.

Lemma search_slots_witness :
  exists results a',
    search sample_providers stringify (query_of THotel None) (fresh 0 1)
    = (Fulfilled results, a') /\
    (ar_hotels results <> [] \/ ar_experiences results <> [] ->
     q_type (query_of THotel None) = TAll /\ origin_given (query_of THotel None) = true) /\
    (ar_transport results <> [] ->
     q_type (query_of THotel None) = TAll /\ origin_given (query_of THotel None) = false).
Proof.
  apply (search_slots sample_providers stringify). reflexivity.
Defined.

Lemma search_result_shape_witness :
  exists results a',
    search sample_providers stringify (query_of TAll (Some "ATH")) (fresh 0 1)
    = (Fulfilled results, a') /\
    (length (ar_flights results) <= 1)%nat /\
    (length (ar_hotels results) <= 1)%nat /\
    (length (ar_transport results) <= 1)%nat /\
    (length (bestDeals results) <= 3)%nat /\
    Forall (item_among (ar_flights results) (ar_hotels results)) (bestDeals results).
Proof.
  apply (search_result_shape sample_providers stringify). reflexivity.
Defined.

(** ** What the merge does to the flights of the providers *)

Section ProviderFlights.
Context `{JsRuntime}.

Lemma normalized_routes_are_free (routes : list Raw) (w w' : World)
    (normalized : list NormalizedFlight) :
  Forall is_flight routes ->
  mapM (fun f => normalizeFlight (Raw_object f) (source_or_unknown f)) routes w
  = (Fulfilled normalized, w') ->
  Forall (fun f => amount (nf_price f) = JQ 0) normalized.
Proof.
  intros Hroutes Hrun. apply mapM_fulfilled in Hrun.
  induction Hrun as [|x y xs ys (s1 & s2 & Hy) _ IH]; [constructor|].
  apply List.Forall_cons_iff in Hroutes. destruct Hroutes as [[r ->] Hroutes].
  constructor; [|exact (IH Hroutes)].
  destruct (normalizeFlight_route_run r (source_or_unknown (RawFlight r)) s1)
    as (f & w1 & Hf & Hamount & _).
  rewrite Hf in Hy. injection Hy as <- _. exact Hamount.
Qed.

Lemma merge_keeps_first_of_free (flights : list NormalizedFlight) :
  Forall (fun f => amount (nf_price f) = JQ 0) flights ->
  mergeDuplicates flights = firstn 1 flights.
Proof.
  intros Hfree. destruct flights as [|first rest]; [reflexivity|].
  unfold mergeDuplicates.
  rewrite (group_by_constant "--" first rest flight_key_constant).
  cbn [flat_map snd firstn]. rewrite merge_group_reduce, app_nil_r. f_equal.
  apply reduce_keeps_first. intros x Hx.
  rewrite List.Forall_forall in Hfree.
  cbn [offer_amount NormalizedFlight_Offer].
  rewrite (Hfree x), (Hfree first); [reflexivity | left; reflexivity | right; exact Hx].
Qed.

(** X21 (the flight that survives): the flights that [normalizeAll] makes of
    provider routes all have the price 0, so [mergeAll] keeps the first of
    them and drops the others, whatever their routes, dates and prices. *)
Theorem provider_flights_merge (results : SourceResults) (w w' : World) (n : Normalized) :
  Forall is_flight (sr_flights results) ->
  normalizeAll results w = (Fulfilled n, w') ->
  length (flights n) = length (sr_flights results) /\
  Forall (fun f => amount (nf_price f) = JQ 0) (flights n) /\
  flights (mergeAll n) = firstn 1 (flights n).
Proof.
  intros Hroutes Hn.
  destruct (normalizeAll_parts _ _ _ _ Hn) as (w1 & w2 & Hfl & _).
  pose proof (normalized_routes_are_free _ _ _ _ Hroutes Hfl) as Hfree.
  split; [exact (mapM_length _ _ _ _ _ Hfl)|]. split; [exact Hfree|].
  exact (merge_keeps_first_of_free _ Hfree).
Qed.
End ProviderFlights.

Lemma provider_flights_merge_witness :
  exists n w',
    normalizeAll found_flights (world_at 0 1) = (Fulfilled n, w') /\
    length (flights n) = 2%nat /\
    Forall (fun f => amount (nf_price f) = JQ 0) (flights n) /\
    flights (mergeAll n) = firstn 1 (flights n).
Proof.
  eexists _, _. split; [reflexivity|].
  eapply (provider_flights_merge found_flights (world_at 0 1)).
  - repeat constructor; eexists; reflexivity.
  - reflexivity.
Defined.

(** ** Sources and deals *)

Lemma Set_add_In (x s : string) (set : list string) :
  In s (Set_add x set) <-> s = x \/ In s set.
Proof.
  unfold Set_add. destruct (existsb (String.eqb x) set) eqn:Hhas.
  - split; [auto|]. intros [-> | Hin]; [|exact Hin].
    apply existsb_exists in Hhas. destruct Hhas as (y & Hy & Heq).
    apply String.eqb_eq in Heq. subst y. exact Hy.
  - rewrite in_app_iff. simpl. intuition.
Qed.

Lemma Set_add_NoDup (x : string) (set : list string) :
  List.NoDup set -> List.NoDup (Set_add x set).
Proof.
  intros Hnd. unfold Set_add. destruct (existsb (String.eqb x) set) eqn:Hhas; [exact Hnd|].
  apply List.NoDup_app; [exact Hnd | repeat constructor; intros [] |].
  intros y Hy [<- | []].
  assert (Htrue : existsb (String.eqb x) set = true).
  { apply existsb_exists. exists x. split; [exact Hy | apply String.eqb_refl]. }
  congruence.
Qed.

Lemma fold_Set_add_In (xs : list Raw) (set : list string) (s : string) :
  In s (fold_left (fun set x => Set_add (Raw_source x) set) xs set)
  <-> In s set \/ exists x, In x xs /\ Raw_source x = s.
Proof.
  revert set. induction xs as [|x xs IH]; intros set; cbn [fold_left].
  - split; [auto|]. intros [Hs | (x & [] & _)]. exact Hs.
  - rewrite IH, Set_add_In. split.
    + intros [[-> | Hs] | (y & Hy & Hsource)].
      * right. exists x. split; [left; reflexivity | reflexivity].
      * left. exact Hs.
      * right. exists y. split; [right; exact Hy | exact Hsource].
    + intros [Hs | (y & [<- | Hy] & Hsource)].
      * left. right. exact Hs.
      * left. left. symmetry. exact Hsource.
      * right. exists y. split; [exact Hy | exact Hsource].
Qed.

Lemma fold_Set_add_NoDup (xs : list Raw) (set : list string) :
  List.NoDup set ->
  List.NoDup (fold_left (fun set x => Set_add (Raw_source x) set) xs set).
Proof.
  revert set. induction xs as [|x xs IH]; intros set Hnd; [exact Hnd|].
  cbn [fold_left]. apply IH, Set_add_NoDup, Hnd.
Qed.

(** X22 (the sources of the results): [extractSources] lists no source twice,
    and lists exactly the sources of the records in [flights], [hotels] and
    [transport]; the source of a record in [experiences] is listed only if
    one of those records has it too. *)
Theorem extractSources_distinct (results : SourceResults) :
  List.NoDup (extractSources results) /\
  forall s,
    In s (extractSources results)
    <-> exists x,
          (In x (sr_flights results) \/ In x (sr_hotels results) \/
           In x (sr_transport results)) /\ Raw_source x = s.
Proof.
  unfold extractSources. split.
  - repeat apply fold_Set_add_NoDup. apply List.NoDup_nil.
  - intros s. rewrite !fold_Set_add_In. split.
    + intros [[[[] | (x & Hx & Hs)] | (x & Hx & Hs)] | (x & Hx & Hs)];
        exists x; (split; [tauto | exact Hs]).
    + intros (x & [Hx | [Hx | Hx]] & Hs).
      * left. left. right. exists x. tauto.
      * left. right. exists x. tauto.
      * right. exists x. tauto.
Qed.

Section BestDeals.
Context `{JsRuntime}.

(** X23 (the deals of a result): [findBestDeals] returns at most three deals,
    none when there is neither a flight nor a hotel; every deal is for a
    flight or a hotel of the merged lists; and a deal with the reason
    [First-time customer special] is among them exactly when some hotel has a
    first-time offer. *)
Theorem findBestDeals_shape (merged : Normalized) :
  (length (findBestDeals merged) <= 3)%nat /\
  Forall (item_among (flights merged) (hotels merged)) (findBestDeals merged) /\
  (findBestDeals merged = [] <-> flights merged = [] /\ hotels merged = []) /\
  ((exists d, In d (findBestDeals merged) /\
              deal_reason d = "First-time customer special")
   <-> exists h, In h (hotels merged) /\ has_first_time_offer h = true).
Proof.
  destruct (findBestDeals_items merged) as [Hlength Hitems].
  split; [exact Hlength|]. split; [exact Hitems|]. clear Hlength Hitems.
  unfold findBestDeals, has_first_time_offer.
  destruct (flights merged) as [|f fs]; destruct (hotels merged) as [|h hs].
  - split; [split; auto|]. split.
    + intros (d & [] & _).
    + intros (x & [] & _).
  - destruct (find _ (h :: hs)) as [special|] eqn:Hfind.
    + split; [split; [discriminate | intros [_ Hh]; discriminate Hh]|]. split.
      * intros _. apply find_some in Hfind. exists special. exact Hfind.
      * intros _. eexists. split; [right; left; reflexivity | reflexivity].
    + split; [split; [discriminate | intros [_ Hh]; discriminate Hh]|]. split.
      * intros (d & [<- | []] & Hreason). discriminate Hreason.
      * intros (x & Hx & Hoffer).
        rewrite (find_none _ _ Hfind x Hx) in Hoffer. discriminate Hoffer.
  - split; [split; [discriminate | intros [Hf _]; discriminate Hf]|]. split.
    + intros (d & [<- | []] & Hreason). discriminate Hreason.
    + intros (x & [] & _).
  - destruct (find _ (h :: hs)) as [special|] eqn:Hfind.
    + split; [split; [discriminate | intros [Hf _]; discriminate Hf]|]. split.
      * intros _. apply find_some in Hfind. exists special. exact Hfind.
      * intros _. eexists. split; [right; right; left; reflexivity | reflexivity].
    + split; [split; [discriminate | intros [Hf _]; discriminate Hf]|]. split.
      * intros (d & [<- | [<- | []]] & Hreason); discriminate Hreason.
      * intros (x & Hx & Hoffer).
        rewrite (find_none _ _ Hfind x Hx) in Hoffer. discriminate Hoffer.
Qed.
End BestDeals.

Section ExperienceAsTransport.
Context `{JsRuntime}.

(** X24 (an experience, normalized as transport): [normalizeTransport] never
    throws on an [Experience]; the result is of type [bus], keeps the price,
    and has no origin, no destination, no operator and no departure. *)
Theorem normalizeTransport_of_experience (e : Experience) (source : JsVal) (w : World) :
  exists t w',
    normalizeTransport (Raw_object (RawExperience e)) source w = (Fulfilled t, w') /\
    nt_type t = JStr "bus" /\
    amount (nt_price t) = JQ (ex_price e) /\
    nt_from t = nowhere /\ nt_to t = nowhere /\
    nt_operator t = JStr "" /\
    datetime (nt_departure t) = JStr "" /\
    exists minutes : Z,
      (0 <= minutes)%Z /\
      parseDuration (S := World) (JStr (ex_duration e)) w = (Fulfilled (nt_duration t), w) /\
      nt_duration t = num_of_Z minutes.
Proof.
  set (data := Raw_object (RawExperience e)).
  assert (Hid : data.["id"] = JUndefined) by reflexivity.
  assert (Hobject : nullish data = false) by reflexivity.
  assert (Hduration : data.["duration"] = JStr (ex_duration e)) by reflexivity.
  assert (Htype : data.["type"] ||| JStr "bus" = JStr "bus") by reflexivity.
  assert (Hprice : amount (normalizePrice data.["price"] data.["currency"])
                   = JQ (ex_price e)) by reflexivity.
  assert (Hfrom : {| place_code := data.["fromCode"] ||| JStr "";
                     place_name := data.["fromName"] ||| data.["from"] ||| JStr "";
                     place_city := data.["fromCity"] ||| JStr "" |} = nowhere)
    by reflexivity.
  assert (Hto : {| place_code := data.["toCode"] ||| JStr "";
                   place_name := data.["toName"] ||| data.["to"] ||| JStr "";
                   place_city := data.["toCity"] ||| JStr "" |} = nowhere)
    by reflexivity.
  assert (Hoperator : data.["operator"] ||| data.["company"] ||| JStr "" = JStr "")
    by reflexivity.
  assert (Hdeparture : data.["departure"] ||| data.["departureTime"] ||| JStr ""
                       = JStr "") by reflexivity.
  clearbody data.
  eexists _, _. split.
  - unfold normalizeTransport, object_coercible, make_id, bind.
    rewrite Hid, Hobject, Hduration. cbn [truthy].
    unfold ret at 1. unfold Math_random_toString36. cbv beta iota.
    unfold ret at 1. cbv beta iota.
    unfold parseDuration at 1. unfold ret at 1. cbv beta iota.
    unfold new_Date_toISOString, bind, Date_now, ret. cbv beta iota. reflexivity.
  - cbn [nt_type nt_price nt_from nt_to nt_operator nt_departure datetime nt_duration].
    rewrite Htype, Hprice, Hfrom, Hto, Hoperator, Hdeparture.
    repeat (split; [reflexivity|]).
    eexists. split; [|split; reflexivity].
    pose proof (capture_nonneg "h" (ex_duration e)).
    pose proof (capture_nonneg "m" (ex_duration e)). lia.
Qed.
End ExperienceAsTransport.


(** ** Failing providers: what is returned *)

Section ProvidersKeepFulfilled.
Context `{JsRuntime} (P : Providers) {S : Type}.



End ProvidersKeepFulfilled.


Section FailureTolerance.
Context `{JsRuntime} (P : Providers) (JSON_stringify : BookingQuery -> string).


End FailureTolerance.


(** In that run the two routes are normalized in the order of their total
    prices, and the merge keeps the first of the two flights. *)
Example one_flight_provider_fails_run :
  exists results a',
    search one_flight_provider_fails stringify (query_of TFlight (Some "ATH")) (fresh 0 1)
    = (Fulfilled results, a') /\
    map nf_source (ar_flights results) = [JStr "kayak"] /\
    sources results = ["kayak"; "skyscanner"].
Proof.
  eexists _, _. split; [vm_compute; reflexivity|]. split; vm_compute; reflexivity.
Qed.
